(** * xprint / temple: function registry, template assembly, usage tracking,
      render service and helper functions

    A shallow embedding of the Go package [temple] (the latest revision of
    each source file) and of the parts of the Go standard library its
    helpers are written against, followed by the properties of the package
    proved on that embedding.

    Conventions.
    - a Go [string] is a [string]; a [[]byte] is a [list byte]; the
      conversions [[]byte(s)] and [string(b)] are [list_byte_of_string] and
      [string_of_list_byte];
    - a Go [map[string]T] is a [gmap string T]; where the code ranges over a
      map, the unspecified iteration order of Go is an explicit argument
      (the sequence of entries in the order the range statement yields
      them);
    - a Go [(T, error)] result is a [result T] ([inl] the error);
    - the template engine (text/template, html/template), encoding/json,
      AES-GCM and what is used of unicode, strconv and fmt are external
      collaborators: they are the operations of the classes [Engine],
      [Json], [AEAD] and [Text] below; the clock, the entropy source and
      the file system are explicit arguments. *)

From Stdlib Require Import ZArith NArith Lia List Bool.
From Stdlib Require Import Strings.String Strings.Ascii Strings.Byte.
From Stdlib Require Import Numbers.DecimalString.
From Stdlib Require Numbers.DecimalNat.
From stdpp Require Import base option list gmap strings fin_maps sorting.

Local Open Scope string_scope.
Local Open Scope list_scope.

(* ================================================================== *)
(** ** Errors and dynamic values *)
(* ================================================================== *)

(** [strconv.Itoa] on a non-negative count. *)
Definition Itoa (n : nat) : string :=
  NilZero.string_of_uint (Nat.to_uint n).

(** The Go [error] values the modelled code creates or receives. *)
Inductive error : Type :=
| ErrNoTemplates                      (* fmt.Errorf("no templates found") *)
| ErrUnexpectedEOF                    (* io.ErrUnexpectedEOF *)
| ErrInvalidArgument (ty supported : string)
                                      (* fmt.Errorf("invalid argument %T, supported types: ...") *)
| ErrHexLength                        (* hex.ErrLength *)
| ErrHexInvalidByte (b : byte)        (* hex.InvalidByteError *)
| ErrBase64Corrupt (off : nat)        (* base64.CorruptInputError *)
| ErrKeySize (n : nat)                (* aes.KeySizeError *)
| ErrParseBool (s : string)           (* *strconv.NumError of ParseBool *)
| ErrTooLong                          (* bufio.ErrTooLong *)
| ErrExternal (msg : string).         (* an error of an external collaborator *)

Abbreviation result A := (sum error A).

(** The dynamic type of an [interface{}] argument, as far as the type
    switches of the helpers distinguish it. A reader is given by what
    [io.Copy] obtains from it: the bytes read, or the error that ended the
    copy. *)
Inductive Value : Type :=
| VString (s : string)
| VBytes (b : list byte)
| VReader (r : result (list byte))
| VInt (z : Z)
| VBool (b : bool)
| VOther (ty : string).               (* any other type, with its %T name *)

(** [%T] of a value that reaches a [default:] branch. *)
Definition typeName (v : Value) : string :=
  match v with
  | VString _ => "string"
  | VBytes _ => "[]uint8"
  | VReader _ => "*bytes.Buffer"
  | VInt _ => "int"
  | VBool _ => "bool"
  | VOther ty => ty
  end.

(* ================================================================== *)
(** ** The function registry ([templeFnMap], [FnMap], [BuildFuncMap]) *)
(* ================================================================== *)

(** The Go functions registered in [FnMap], as opaque callables. *)
Inductive callable : Type :=
| f_add | f_b64dec | f_b64enc | f_cmd | f_decrypt | f_time_ParseDuration
| f_encrypt | f_env | f_fns | f_fromgob | f_fromjson | f_fromyaml
| f_gunzip | f_gzip | f_hexdec | f_hexenc | f_http | f_is
| f_strings_Join | f_strings_ToLower | f_math | f_filepath_Base
| f_filepath_Ext | f_Random | f_rawfile | f_strings_Split | f_stringify
| f_textfile | f_timestamp | f_togob | f_tojson | f_toyaml
| f_strings_TrimPrefix | f_strings_TrimSuffix | f_strings_ToUpper
| f_userinput | f_writefile.

Record fn : Type := mkFn {
  _fn : callable;
  Description : string;
  Signature : string;
  Unsafe : bool
}.

Abbreviation templeFnMap := (gmap string fn).
Abbreviation FuncMap := (gmap string callable).

(** [func (t templeFnMap) Fn(name, description, funct, unsafe)], with
    [reflect.TypeOf(funct).String()] as the argument [typeString]. *)
Definition Fn (typeString : callable -> string) (t : templeFnMap)
    (name description : string) (funct : callable) (unsafe : bool) : templeFnMap :=
  <[name := mkFn funct description (typeString funct) unsafe]> t.

(** [BuildFuncMap]: the loop [for name, info := range t] that copies an
    entry when [!info.Unsafe || addUnsafeFuncs]. *)
Definition BuildFuncMap (t : templeFnMap) (addUnsafeFuncs : bool) : FuncMap :=
  map_fold
    (fun name info m =>
       if negb (Unsafe info) || addUnsafeFuncs then <[name := _fn info]> m else m)
    ∅ t.

(** [BuildHTMLFuncMap] is the same loop over an [html/template] map. *)
Definition BuildHTMLFuncMap (t : templeFnMap) (addUnsafeFuncs : bool) : FuncMap :=
  map_fold
    (fun name info m =>
       if negb (Unsafe info) || addUnsafeFuncs then <[name := _fn info]> m else m)
    ∅ t.

(** The entries of the composite literal [FnMap], in source order. *)
Definition FnMap_entries (typeString : callable -> string) : list (string * fn) :=
  let e name f descr unsafe := (name, mkFn f descr (typeString f) unsafe) in
  [ e "add" f_add "add value $2 to map or slice $1, map needs $3 for value's key in map" false;
    e "b64dec" f_b64dec "base64 decode" false;
    e "b64enc" f_b64enc "base64 encode" false;
    e "cmd" f_cmd "execute a command on local host" true;
    e "decrypt" f_decrypt "decrypt data with AES_GCM: $1 ctxt, $2 base64 key, $3 AAD" false;
    e "duration" f_time_ParseDuration "time.ParseDuration" false;
    e "encrypt" f_encrypt "encrypt data with AES_GCM: $1 ptxt, $2 base64 key, $3 AAD" false;
    e "env" f_env "get environment vars, optionally use a placeholder value $2" true;
    e "fns" f_fns "get list of available functions" false;
    e "fromgob" f_fromgob "gob decode" false;
    e "fromjson" f_fromjson "json decode" false;
    e "fromyaml" f_fromyaml "yaml decode" false;
    e "gunzip" f_gunzip "extract GZIP compressed data" false;
    e "gzip" f_gzip "compress with GZIP" false;
    e "hexdec" f_hexdec "hex decode" false;
    e "hexenc" f_hexenc "hex encode" false;
    e "http" f_http "HEAD|GET|POST, url, body(raw), headers" true;
    e "is" f_is "check if $1 is all |upper(case), |lower(case), |int, |float, |float32, |bool or ==$2" false;
    e "join" f_strings_Join "strings.Join" false;
    e "lower" f_strings_ToLower "strings.ToLower" false;
    e "math" f_math "math operations (+, -, *, /, %, max, min)" false;
    e "pathbase" f_filepath_Base "filepath.Base" false;
    e "pathext" f_filepath_Ext "filepath.Ext" false;
    e "random" f_Random "generate a $1 sized []byte filled with bytes from crypto.Rand" false;
    e "rawfile" f_rawfile "read raw bytes from a file" true;
    e "split" f_strings_Split "strings.Split" false;
    e "string" f_stringify "convert int/bool to string, retype []byte to string (handle with care)" false;
    e "textfile" f_textfile "read a file as a string" true;
    e "timestamp" f_timestamp "$1 for timezone (default UTC)" false;
    e "togob" f_togob "gob encode" false;
    e "tojson" f_tojson "json encode" false;
    e "toyaml" f_toyaml "yaml encode" false;
    e "trimprefix" f_strings_TrimPrefix "strings.TrimPrefix" false;
    e "trimsuffix" f_strings_TrimSuffix "strings.TrimSuffix" false;
    e "upper" f_strings_ToUpper "strings.ToUpper" false;
    e "userinput" f_userinput "get interactive user input (needs a terminal), if $2 bool is provided and true, term.ReadPassword is used. $1 is used as hint" true;
    e "writefile" f_writefile "store data to a file (append if it already exists)" true ].

Definition FnMap (typeString : callable -> string) : templeFnMap :=
  list_to_map (FnMap_entries typeString).

(** The names the registry marks unsafe, as [UnsafeFuncs] lists them. *)
Definition unsafeNames : list string :=
  ["cmd"; "env"; "http"; "rawfile"; "textfile"; "userinput"; "writefile"].

(* ================================================================== *)
(** ** encoding/hex *)
(* ================================================================== *)

Definition byte_of_N (n : N) : byte :=
  match Byte.of_N n with Some b => b | None => "000"%byte end.

Definition hextable : list byte := list_byte_of_string "0123456789abcdef".

Definition hexDigit (n : N) : byte := nth (N.to_nat n) hextable "000"%byte.

(** [hex.Encode]: two digits per byte, [hextable[v>>4]] and
    [hextable[v&0x0f]]. *)
Definition hex_Encode (src : list byte) : list byte :=
  flat_map (fun v => [hexDigit (N.shiftr (Byte.to_N v) 4);
                      hexDigit (N.land (Byte.to_N v) 15)]) src.

Definition hex_EncodeToString (src : list byte) : string :=
  string_of_list_byte (hex_Encode src).

(** [reverseHexTable]: the value of a hexadecimal digit, [None] where the
    table holds 0xff. *)
Definition fromHexChar (c : byte) : option N :=
  let n := Byte.to_N c in
  (if (48 <=? n) && (n <=? 57) then Some (n - 48)
  else if (97 <=? n) && (n <=? 102) then Some (n - 97 + 10)
  else if (65 <=? n) && (n <=? 70) then Some (n - 65 + 10)
  else None)%N.

(** [hex.Decode(dst, src)]: the bytes written to [dst] (that is [dst[:n]])
    and the error. An invalid digit is reported before an odd length. *)
Fixpoint hex_Decode (src : list byte) : list byte * option error :=
  match src with
  | [] => ([], None)
  | [p] =>
      match fromHexChar p with
      | None => ([], Some (ErrHexInvalidByte p))
      | Some _ => ([], Some ErrHexLength)
      end
  | p :: q :: rest =>
      match fromHexChar p with
      | None => ([], Some (ErrHexInvalidByte p))
      | Some a =>
          match fromHexChar q with
          | None => ([], Some (ErrHexInvalidByte q))
          | Some b =>
              let '(out, e) := hex_Decode rest in
              (byte_of_N (N.lor (N.shiftl a 4) b) :: out, e)
          end
      end
  end.

(** [hex.DecodeString(s)]: [src[:n], err]. *)
Definition hex_DecodeString (s : string) : list byte * option error :=
  hex_Decode (list_byte_of_string s).

(* ================================================================== *)
(** ** encoding/base64 (decoding) *)
(* ================================================================== *)

(** [decodeMap] of the standard alphabet. *)
Definition b64_decodeMap (c : byte) : option N :=
  let n := Byte.to_N c in
  (if (65 <=? n) && (n <=? 90) then Some (n - 65)
  else if (97 <=? n) && (n <=? 122) then Some (n - 97 + 26)
  else if (48 <=? n) && (n <=? 57) then Some (n - 48 + 52)
  else if n =? 43 then Some 62
  else if n =? 47 then Some 63
  else None)%N.

Definition isNewline (c : byte) : bool :=
  (Byte.to_N c =? 10)%N || (Byte.to_N c =? 13)%N.

Definition isPad (c : byte) : bool := (Byte.to_N c =? 61)%N.

(** The loop [for si < len(src) && (src[si] == '\n' || src[si] == '\r')]:
    the input left and the number of bytes skipped. *)
Fixpoint skipNewlines (src : list byte) : list byte * nat :=
  match src with
  | c :: rest =>
      if isNewline c then let '(r, k) := skipNewlines rest in (r, S k)
      else (src, 0)
  | [] => ([], 0)
  end.

(** The bytes of a quantum of [dlen] sextets: [dlen - 1] bytes of the 24-bit
    value (non-strict decoding: trailing bits are dropped). *)
Definition quantumBytes (dbuf : list N) : list byte :=
  let d i := nth i dbuf 0%N in
  let val := N.lor (N.lor (N.shiftl (d 0) 18) (N.shiftl (d 1) 12))
                   (N.lor (N.shiftl (d 2) 6) (d 3)) in
  firstn (length dbuf - 1)
    [byte_of_N (N.land (N.shiftr val 16) 255);
     byte_of_N (N.land (N.shiftr val 8) 255);
     byte_of_N (N.land val 255)].

(** After the padding of a quantum: skip newlines; anything left is
    trailing garbage. *)
Definition b64_afterPad (rest : list byte) (si : nat) (dbuf : list N)
  : list byte * option error :=
  let '(rest', k) := skipNewlines rest in
  (quantumBytes dbuf,
   match rest' with [] => None | _ :: _ => Some (ErrBase64Corrupt (si + k)) end).

(** [Encoding.Decode] as the iteration of [decodeQuantum]: [si] is the index
    of the next input byte, [dbuf] the sextets of the quantum being read
    ([j = length dbuf]), [total] is [len(src)], and [padded] tells the
    standard encoding ([StdEncoding], true) from the raw one
    ([RawStdEncoding], false). The result is [dst[:n]] and the error. *)
Fixpoint b64_decodeFrom (padded : bool) (total : nat) (src : list byte)
    (si : nat) (dbuf : list N) : list byte * option error :=
  match src with
  | [] =>
      match length dbuf with
      | 0 => ([], None)
      | 1 => ([], Some (ErrBase64Corrupt (si - 1)))
      | j => if padded then ([], Some (ErrBase64Corrupt (si - j)))
             else (quantumBytes dbuf, None)
      end
  | c :: rest =>
      match b64_decodeMap c with
      | Some out =>
          if (length dbuf =? 3)%nat then
            let '(o, e) := b64_decodeFrom padded total rest (S si) [] in
            (quantumBytes (dbuf ++ [out]) ++ o, e)
          else b64_decodeFrom padded total rest (S si) (dbuf ++ [out])
      | None =>
          if isNewline c then b64_decodeFrom padded total rest (S si) dbuf
          else if negb (padded && isPad c) then ([], Some (ErrBase64Corrupt si))
          else
            match length dbuf with
            | 0 | 1 => ([], Some (ErrBase64Corrupt si))
            | 2 =>
                let '(rest', k) := skipNewlines rest in
                match rest' with
                | [] => ([], Some (ErrBase64Corrupt total))
                | c2 :: rest2 =>
                    if isPad c2 then b64_afterPad rest2 (S (S si + k)) dbuf
                    else ([], Some (ErrBase64Corrupt (S si + k - 1)))
                end
            | _ => b64_afterPad rest (S si) dbuf
            end
      end
  end.

Definition base64_Decode (padded : bool) (src : list byte) : list byte * option error :=
  b64_decodeFrom padded (length src) src 0 [].

(** [base64.StdEncoding.DecodeString]. *)
Definition base64_DecodeString (s : string) : result (list byte) :=
  match base64_Decode true (list_byte_of_string s) with
  | (out, None) => inr out
  | (_, Some e) => inl e
  end.

(** [b64dec]. In the [io.Reader] branch the stream decoder of the raw
    encoding reads the whole content; the offset of a corrupt-input error is
    given here in the whole input. *)
Definition b64dec (v : Value) : result (list byte) :=
  match v with
  | VString t =>
      match base64_Decode true (list_byte_of_string t) with
      | (b, None) => inr b
      | (_, Some e) => inl e
      end
  | VBytes t =>
      match base64_Decode true t with
      | (b, None) => inr b
      | (_, Some e) => inl e
      end
  | VReader r =>
      match r with
      | inl e => inl e
      | inr content =>
          match base64_Decode false content with
          | (b, None) => inr b
          | (_, Some e) => inl e
          end
      end
  | _ => inl (ErrInvalidArgument (typeName v) "io.Reader, string or []byte")
  end.

(* ================================================================== *)
(** ** [hexenc], [hexdec] *)
(* ================================================================== *)

Definition hexenc (v : Value) : result string :=
  match v with
  | VString t => inr (hex_EncodeToString (list_byte_of_string t))
  | VBytes t => inr (hex_EncodeToString t)
  | VReader r =>
      match r with
      | inl e => inl e
      | inr content => inr (hex_EncodeToString content)
      end
  | _ => inl (ErrInvalidArgument (typeName v) "string or []byte")
  end.

(** [hexdec]. The variable [n] is declared with its zero value; the string
    branch assigns [b] only and then slices [b[:n]]; the [[]byte] branch
    assigns both. The stream decoder of the [io.Reader] branch reports an odd
    length as [io.ErrUnexpectedEOF]. *)
Definition hexdec (v : Value) : result (list byte) :=
  let n := 0 in
  match v with
  | VString t =>
      match hex_DecodeString t with
      | (_, Some e) => inl e
      | (b, None) => inr (firstn n b)
      end
  | VBytes t =>
      match hex_Decode t with
      | (_, Some e) => inl e
      | (b, None) => let n := length b in inr (firstn n b)
      end
  | VReader r =>
      match r with
      | inl e => inl e
      | inr content =>
          match hex_Decode content with
          | (b, None) => inr b
          | (_, Some ErrHexLength) => inl ErrUnexpectedEOF
          | (_, Some e) => inl e
          end
      end
  | _ => inl (ErrInvalidArgument (typeName v) "string or []byte")
  end.

(* ================================================================== *)
(** ** Results as a monad *)
(* ================================================================== *)

#[export] Instance result_ret : MRet (sum error) := fun A x => inr x.
#[export] Instance result_bind : MBind (sum error) := fun A B f r =>
  match r with
  | inl e => inl e
  | inr x => f x
  end.

(* ================================================================== *)
(** ** AES-GCM ([encrypt], [decrypt]) *)
(* ================================================================== *)

(** [aead.NonceSize()] of [cipher.NewGCM]: the standard nonce size. *)
Definition NonceSize : nat := 12.

Definition validKeyLen (n : nat) : bool :=
  (n =? 16)%nat || (n =? 24)%nat || (n =? 32)%nat.

(** AES-GCM as a black box: [Seal key nonce plaintext aad] and
    [Open key nonce ciphertext aad] ([None]: authentication failed), with
    the one law of an AEAD the helpers rely on. *)
Class AEAD : Type := {
  Seal : list byte -> list byte -> list byte -> list byte -> list byte;
  Open : list byte -> list byte -> list byte -> list byte -> option (list byte);
  Open_Seal : forall key nonce ptxt aad,
    validKeyLen (length key) = true ->
    length nonce = NonceSize ->
    Open key nonce (Seal key nonce ptxt aad) aad = Some ptxt
}.

(** [aes.NewCipher(key)]: the key sizes of AES-128, AES-192 and AES-256.
    [cipher.NewGCM] does not fail on an AES block. *)
Definition aes_NewCipher (key : list byte) : result (list byte) :=
  if validKeyLen (length key) then inr key else inl (ErrKeySize (length key)).

(** [Random(size)]: [size] bytes of [crypto/rand], here the first [size]
    bytes the entropy source [rnd] delivers. *)
Definition Random (rnd : nat -> byte) (size : nat) : list byte :=
  firstn size (map rnd (seq 0 size)).

(** [consumeReader] on a reader. *)
Definition consumeReader (r : result (list byte)) : result (list byte) := r.

Definition encrypt {aead : AEAD} (rnd : nat -> byte) (v : Value) (b64key aad : string)
  : result (list byte) :=
  ptxt ← match v with
         | VString t => inr (list_byte_of_string t)
         | VBytes t => inr t
         | VReader r => consumeReader r
         | _ => inl (ErrInvalidArgument (typeName v) "string or []byte")
         end;
  key ← base64_DecodeString b64key;
  cb ← aes_NewCipher key;
  let iv := Random rnd NonceSize in
  let ctxt := Seal cb iv ptxt (list_byte_of_string aad) in
  inr (ctxt ++ iv).

(** [decrypt]: the type switch has no default branch, so any other
    argument leaves [ctxt] nil. *)
Definition decrypt {aead : AEAD} (v : Value) (b64key aad : string) : result (list byte) :=
  ctxt ← match v with
         | VString t => b64dec (VString t)
         | VBytes t => inr t
         | VReader r => consumeReader r
         | _ => inr []
         end;
  key ← base64_DecodeString b64key;
  cb ← aes_NewCipher key;
  let ns := NonceSize in
  let l := length ctxt in
  if (l <? ns)%nat then inl ErrUnexpectedEOF
  else
    match Open cb (skipn (l - ns) ctxt) (firstn (l - ns) ctxt) (list_byte_of_string aad) with
    | None => inl (ErrExternal "cipher: message authentication failed")
    | Some out => inr out
    end.

(* ================================================================== *)
(** ** strings, strconv, unicode, path *)
(* ================================================================== *)

Definition HasPrefix (s pre : string) : bool := String.prefix pre s.

Definition TrimPrefix (s pre : string) : string :=
  if HasPrefix s pre
  then String.substring (String.length pre) (String.length s - String.length pre) s
  else s.

(** [strconv.ParseBool]. *)
Definition ParseBool (str : string) : result bool :=
  if existsb (String.eqb str) ["1"; "t"; "T"; "true"; "TRUE"; "True"] then inr true
  else if existsb (String.eqb str) ["0"; "f"; "F"; "false"; "FALSE"; "False"] then inr false
  else inl (ErrParseBool str).

(** What the package uses of unicode and strconv: the runes of a string as
    [for _, r := range s] yields them, the letter classes, whether
    [strconv.Atoi] and [strconv.ParseFloat] accept a string, and the quoting
    of a string inside the text of a [*strconv.NumError]. *)
Class Text : Type := {
  rune : Type;
  runes : string -> list rune;
  IsLetter : rune -> bool;
  IsLower : rune -> bool;
  IsUpper : rune -> bool;
  Atoi : string -> result Z;
  float : Type;
  ParseFloat : string -> nat -> result float;
  Quote : string -> string;             (* strconv.Quote *)
  GoString : Value -> string            (* fmt.Sprintf("%#v", v) *)
}.

Definition isErr {A} (r : result A) : bool :=
  match r with inl _ => true | inr _ => false end.

(** [is] ([is] is a reserved word here, hence [is_]): every case of the
    inner switch that does not return false falls out of the switch to the
    final [return true]. *)
Definition is_ {TX : Text} (s what : string) : bool :=
  if HasPrefix what "|" then
    let x := TrimPrefix what "|" in
    if existsb (String.eqb x) ["u"; "upper"] then
      forallb (fun r => negb (IsLetter r && IsLower r)) (runes s)
    else if existsb (String.eqb x) ["l"; "lower"] then
      forallb (fun r => negb (IsLetter r && IsUpper r)) (runes s)
    else if existsb (String.eqb x) ["i"; "int"] then
      negb (isErr (Atoi s))
    else if existsb (String.eqb x) ["f"; "float"] then
      negb (isErr (ParseFloat s 64))
    else if existsb (String.eqb x) ["f32"; "float32"] then
      negb (isErr (ParseFloat s 32))
    else if existsb (String.eqb x) ["b"; "bool"] then
      negb (negb (String.eqb s "true") && negb (String.eqb s "false"))
    else String.eqb s what
  else String.eqb s what.

(** The predicate names the inner switch of [is_] recognises. *)
Definition isPredicates : list string :=
  ["u"; "upper"; "l"; "lower"; "i"; "int"; "f"; "float"; "f32"; "float32"; "b"; "bool"].

Definition isSlash (c : ascii) : bool := Ascii.eqb c "/".

Fixpoint dropWhile {A} (f : A -> bool) (l : list A) : list A :=
  match l with
  | x :: r => if f x then dropWhile f r else l
  | [] => []
  end.

Fixpoint takeWhile {A} (f : A -> bool) (l : list A) : list A :=
  match l with
  | x :: r => if f x then x :: takeWhile f r else []
  | [] => []
  end.

(** [path.Base]: strip trailing slashes, keep what follows the last slash;
    "." for the empty path and "/" for a path of slashes only. *)
Definition path_Base (path : string) : string :=
  if String.eqb path "" then "."
  else
    let stripped := dropWhile isSlash (rev (list_ascii_of_string path)) in
    let last := rev (takeWhile (fun c => negb (isSlash c)) stripped) in
    match last with
    | [] => "/"
    | _ :: _ => string_of_list_ascii last
    end.

(* ================================================================== *)
(** ** Reading a local template file ([fload]) *)
(* ================================================================== *)

(** A file system: [os.Open] fails, or the file yields its content and the
    error (if any) that ended the reads before the end of the file. The
    errors of the operating system are given by their text. *)
Abbreviation FS := (string -> string + (string * option string)).

(** [bufio.MaxScanTokenSize]. *)
Definition MaxScanTokenSize : N := 65536.

Definition tooLong (tok : string) : bool :=
  (MaxScanTokenSize <=? N.of_nat (String.length tok))%N.

(** [dropCR]: a line loses one trailing carriage return. *)
Definition dropCR (tok : string) : string :=
  match rev (list_ascii_of_string tok) with
  | c :: r => if Ascii.eqb c "013" then string_of_list_ascii (rev r) else tok
  | [] => tok
  end.

(** The tokens [bufio.Scanner] yields with [ScanLines], and [scanner.Err()]:
    [cur] is the line being read. A final line needs no newline; a line
    that fills the scanner's buffer ends the scan with [ErrTooLong]; a read
    error [rerr] ends it after the data read so far. *)
Fixpoint scanLines (rerr : option error) (data : string) (cur : string)
  : list string * option error :=
  match data with
  | EmptyString =>
      if tooLong cur then ([], Some ErrTooLong)
      else (if String.eqb cur "" then [] else [dropCR cur], rerr)
  | String c rest =>
      if Ascii.eqb c "010" then
        if tooLong cur then ([], Some ErrTooLong)
        else let '(ls, e) := scanLines rerr rest "" in (dropCR cur :: ls, e)
      else scanLines rerr rest (cur +:+ String c "")
  end.

(** The loop of [fload] over the scanned lines: the state is the buffer and
    the counter [i], which the loop reads and the source never changes. *)
Fixpoint fload_loop (lines : list string) (buf : string) (i : nat) : string :=
  match lines with
  | [] => buf
  | t :: rest =>
      if (i =? 0)%nat && HasPrefix t "#!" then fload_loop rest buf i
      else fload_loop rest (buf +:+ (t +:+ String "010" "")) i
  end.

(** [fload] (the revision that writes each line with its newline). *)
Definition fload (fs : FS) (p : string) : string * option error :=
  match fs p with
  | inl err => ("", Some (ErrExternal err))
  | inr (content, rerr) =>
      let '(lines, serr) := scanLines (ErrExternal <$> rerr) content "" in
      (fload_loop lines "" 0, serr)
  end.

(** [fload] of the older revision of the file, which writes each line
    without a newline. *)
Module Older.

Fixpoint fload_loop (lines : list string) (buf : string) (i : nat) : string :=
  match lines with
  | [] => buf
  | t :: rest =>
      if (i =? 0)%nat && HasPrefix t "#!" then fload_loop rest buf i
      else fload_loop rest (buf +:+ t) i
  end.

Definition fload (fs : FS) (p : string) : string * option error :=
  match fs p with
  | inl err => ("", Some (ErrExternal err))
  | inr (content, rerr) =>
      let '(lines, serr) := scanLines (ErrExternal <$> rerr) content "" in
      (fload_loop lines "" 0, serr)
  end.

End Older.

(* ================================================================== *)
(** ** The text of an error ([err.Error()]) *)
(* ================================================================== *)

Definition upperHexDigit (n : N) : ascii :=
  nth (N.to_nat n) (list_ascii_of_string "0123456789ABCDEF") "0"%char.

(** [%#U] of a rune below 256: the code point, and the character itself
    when [strconv.IsPrint] holds of it (written in UTF-8). *)
Definition formatU (b : byte) : string :=
  let n := Byte.to_N b in
  let code := "U+00" +:+ String (upperHexDigit (N.shiftr n 4))
                          (String (upperHexDigit (N.land n 15)) "") in
  let shown (bs : list N) :=
    code +:+ " '" +:+ string_of_list_ascii (map ascii_of_N bs) +:+ "'" in
  (if (32 <=? n) && (n <=? 126) then shown [n]
   else if (161 <=? n) && negb (n =? 173)
        then shown [N.lor 192 (N.shiftr n 6); N.lor 128 (N.land n 63)]
   else code)%N.

Definition Error {TX : Text} (e : error) : string :=
  match e with
  | ErrNoTemplates => "no templates found"
  | ErrUnexpectedEOF => "unexpected EOF"
  | ErrInvalidArgument ty supported =>
      "invalid argument " +:+ ty +:+ ", supported types: " +:+ supported
  | ErrHexLength => "encoding/hex: odd length hex string"
  | ErrHexInvalidByte b => "encoding/hex: invalid byte: " +:+ formatU b
  | ErrBase64Corrupt off => "illegal base64 data at input byte " +:+ Itoa off
  | ErrKeySize n => "crypto/aes: invalid key size " +:+ Itoa n
  | ErrParseBool s => "strconv.ParseBool: parsing " +:+ Quote s +:+ ": invalid syntax"
  | ErrTooLong => "bufio.Scanner: token too long"
  | ErrExternal msg => msg
  end.

(* ================================================================== *)
(** ** The template engine and the assembly ([BuildTemplate]) *)
(* ================================================================== *)

(** text/template (or html/template) as a black box over the data it
    executes against. A value of [tset] is the set of associated templates
    that the handles made by [New] share. [parse funcs set name text] parses
    [text] as the body of the template [name] (the functions it calls must
    be in [funcs]) and gives the set with what the text defines added;
    [exec funcs set name data] executes the template [name] of the set.
    Both fail with the text of the engine's error. *)
Class Engine (data : Type) : Type := {
  tset : Type;
  emptySet : tset;
  parse : FuncMap -> tset -> string -> string -> string + tset;
  exec : FuncMap -> tset -> string -> data -> string + list byte
}.

(** A [*template.Template]: a name, the shared set, the function map. *)
Record Template {data} {E : Engine data} : Type := mkTemplate {
  tname : string;
  tmpl : tset;
  tfuncs : FuncMap
}.
Arguments Template data {_}.
Arguments mkTemplate {data _} tname tmpl tfuncs.

Section TemplateOps.
Context {data : Type} {E : Engine data}.

(** [template.New(name)]. *)
Definition template_New (name : string) : Template data :=
  mkTemplate name emptySet ∅.

(** [t.Funcs(m)]: the entries of [m] are added to the function map. *)
Definition Funcs (t : Template data) (m : FuncMap) : Template data :=
  mkTemplate (tname t) (tmpl t) (m ∪ tfuncs t).

(** [t.New(name)]: a new handle on the set of [t]. *)
Definition New (t : Template data) (name : string) : Template data :=
  mkTemplate name (tmpl t) (tfuncs t).

(** [t.Parse(text)]: the text becomes the body of [t]; the result is [t]
    itself. *)
Definition Parse (t : Template data) (text : string) : result (Template data) :=
  match parse (tfuncs t) (tmpl t) (tname t) text with
  | inl msg => inl (ErrExternal msg)
  | inr set' => inr (mkTemplate (tname t) set' (tfuncs t))
  end.

(** [t.Execute(w, data)]: executes the template the handle names; the
    result is what was written to [w]. *)
Definition Execute (t : Template data) (d : data) : result (list byte) :=
  match exec (tfuncs t) (tmpl t) (tname t) d with
  | inl msg => inl (ErrExternal msg)
  | inr out => inr out
  end.

(** [t.ExecuteTemplate(w, name, data)]: executes the template [name] of
    the set of [t]. *)
Definition ExecuteTemplate (t : Template data) (name : string) (d : data)
  : result (list byte) :=
  match exec (tfuncs t) (tmpl t) name d with
  | inl msg => inl (ErrExternal msg)
  | inr out => inr out
  end.
End TemplateOps.

(** The order in which a [range] statement yields the entries of a map: any
  order, each entry once. *)
Class MapOrder : Type := {
mapRange : forall {V : Type}, gmap string V -> list (string * V);
mapRange_perm : forall (V : Type) (m : gmap string V), mapRange m ≡ₚ map_to_list m
}.

Section Assembly.
Context {data : Type} {E : Engine data} {MO : MapOrder}.

(** The loop [for _, lft := range localFiles]. *)
Fixpoint loadLocal (fs : FS) (localFiles : list string)
    (st : Template data * list string) : result (Template data * list string) :=
  match localFiles with
  | [] => inr st
  | lft :: rest =>
      let '(tpl, all) := st in
      match fload fs lft with
      | (_, Some err) => inl err
      | (text, None) =>
          let n := path_Base lft in
          tpl' ← Parse (New tpl n) text;
          loadLocal fs rest (tpl', all ++ [n])
      end
  end.

(** The loop [for fname, content := range loadedFiles], over the entries
    in the order the range yields them. *)
Fixpoint loadNamed (entries : list (string * string))
    (st : Template data * list string) : result (Template data * list string) :=
  match entries with
  | [] => inr st
  | (fname, content) :: rest =>
      let '(tpl, all) := st in
      let fname := path_Base fname in
      tpl' ← Parse (New tpl fname) content;
      loadNamed rest (tpl', all ++ [fname])
  end.

(** [BuildTemplate]; the result [(tpl, all, nil)] is [inr (tpl, all)]. *)
Definition BuildTemplate (fs : FS) (t : templeFnMap) (_unsafe : bool)
    (name _template : string) (loadedFiles : gmap string string)
    (localFiles : list string) : result (Template data * list string) :=
  let tpl := Funcs (template_New name) (BuildFuncMap t _unsafe) in
  st ← (if String.eqb _template "" then inr (tpl, [])
        else tpl' ← Parse tpl _template; inr (tpl', [path_Base name]));
  st ← loadLocal fs localFiles st;
  st ← loadNamed (mapRange loadedFiles) st;
  if (length st.2 <? 1)%nat then inl ErrNoTemplates else inr st.

(** [BuildHTMLTemplate]: the same steps on an html/template engine. *)
Definition BuildHTMLTemplate (fs : FS) (t : templeFnMap) (_unsafe : bool)
    (name _template : string) (loadedFiles : gmap string string)
    (localFiles : list string) : result (Template data * list string) :=
  let tpl := Funcs (template_New name) (BuildHTMLFuncMap t _unsafe) in
  st ← (if String.eqb _template "" then inr (tpl, [])
        else tpl' ← Parse tpl _template; inr (tpl', [path_Base name]));
  st ← loadLocal fs localFiles st;
  st ← loadNamed (mapRange loadedFiles) st;
  if (length st.2 <? 1)%nat then inl ErrNoTemplates else inr st.
(** A text parses as the template [n] whatever the set holds already. *)
Definition parsesAlways (fm : FuncMap) (n text : string) : Prop :=
  forall set : tset, exists set', parse fm set n text = inr set'.

(** The first step of [BuildTemplate]: the inline template, if any. *)
Definition inlineStep (t : templeFnMap) (_unsafe : bool) (name _template : string)
  : result (Template data * list string) :=
  let tpl := Funcs (template_New name) (BuildFuncMap t _unsafe) in
  if String.eqb _template "" then inr (tpl, [])
  else tpl' ← Parse tpl _template; inr (tpl', [path_Base name]).
End Assembly.

(* ================================================================== *)
(** ** The usage tracker ([trackUsage], [StartTracking], [StopTracking]) *)
(* ================================================================== *)

Record fnTrack : Type := mkTrack {
  T : Z;                         (* time.Now() *)
  F : string;
  Args : list Value;
  Output : string;
  Err : option error
}.

(** The package-level state of the tracker. [fnTrackChan] is unbuffered: a
    send completes when the consumer goroutine receives the record, so the
    channel itself never holds one. [received] is the record the consumer
    has taken and not yet logged; [blocked] lists the records of the
    callers that are past [Tracking.Add(1)] and whose send has not been
    received, oldest first; [sent] lists, in order, the records whose send
    was issued; [logged] the records the consumer has logged. *)
Record TrackState : Type := mkState {
  debugAllFunctions : bool;
  startTracingOnce : bool;       (* the Once has run: the consumer exists *)
  Tracking : nat;                (* the counter of the WaitGroup *)
  received : option fnTrack;
  blocked : list fnTrack;
  sent : list fnTrack;
  logged : list fnTrack
}.

Definition initialState : TrackState := mkState false false 0 None [] [] [].

(** What a call does to its caller: it returns, or it stays blocked in the
    send on [fnTrackChan] (there is no consumer to receive). *)
Inductive outcome (A : Type) : Type :=
| Returns (a : A)
| Blocks (st : TrackState).
Arguments Returns {A} a.
Arguments Blocks {A} st.

(** The first half of [trackUsage]: [Tracking.Add(1)] and the send of the
    record [x] is issued. *)
Definition issue (st : TrackState) (x : fnTrack) : TrackState :=
  mkState (debugAllFunctions st) (startTracingOnce st) (S (Tracking st))
          (received st) (blocked st ++ [x]) (sent st ++ [x]) (logged st).

(** The end of a turn of the loop of [usageDebugger]: log the record held,
    then [Tracking.Done()]. *)
Definition consume (st : TrackState) : TrackState :=
  match received st with
  | Some x =>
      mkState (debugAllFunctions st) (startTracingOnce st) (pred (Tracking st))
              None (blocked st) (sent st) (logged st ++ [x])
  | None => st
  end.

(** The receive of the loop of [usageDebugger], from the caller that has
    been blocked longest. *)
Definition receive (st : TrackState) : TrackState :=
  match received st, blocked st with
  | None, x :: q =>
      mkState (debugAllFunctions st) (startTracingOnce st) (Tracking st)
              (Some x) q (sent st) (logged st)
  | _, _ => st
  end.

(** [n] turns of the consumer: each ends the turn before and receives. *)
Fixpoint serve (n : nat) (st : TrackState) : TrackState :=
  match n with
  | 0 => st
  | S n => serve n (receive (consume st))
  end.

(** [trackUsage], up to the return of the call: the send completes when
    the consumer has received the record, after those of the callers
    blocked before. *)
Definition trackUsage {TX : Text} (st : TrackState) (_fn : string) (alwaysTrack : bool)
    (output : Value) (err : option error) (args : list Value) (now : Z)
  : outcome TrackState :=
  if debugAllFunctions st || alwaysTrack then
    let x := mkTrack now _fn args (GoString output) err in
    let st1 := issue st x in
    if startTracingOnce st then Returns (serve (length (blocked st1)) st1)
    else Blocks st1
  else Returns st.

Definition StartTracking (st : TrackState) : TrackState :=
  mkState true true (Tracking st) (received st) (blocked st) (sent st) (logged st).

Definition StopTracking (st : TrackState) : TrackState :=
  mkState false (startTracingOnce st) (Tracking st) (received st) (blocked st)
          (sent st) (logged st).

(** The atomic steps of the tracker when goroutines run concurrently:
    [StartTracking] and [StopTracking]; a caller of [trackUsage] that
    passes the test does [Tracking.Add(1)] and goes to the send; the
    consumer receives the record of one of the blocked callers (which one
    is left open here), which lets that caller return; the consumer logs
    the record it holds and does [Tracking.Done()]. *)
Inductive step : TrackState -> TrackState -> Prop :=
| step_start st : step st (StartTracking st)
| step_stop st : step st (StopTracking st)
| step_issue st x alwaysTrack :
    debugAllFunctions st || alwaysTrack = true -> step st (issue st x)
| step_receive st x q1 q2 :
    startTracingOnce st = true -> received st = None -> blocked st = q1 ++ x :: q2 ->
    step st (mkState (debugAllFunctions st) (startTracingOnce st) (Tracking st)
                     (Some x) (q1 ++ q2) (sent st) (logged st))
| step_done st x : received st = Some x -> step st (consume st).

(** The states of a run: from the initial state by steps, in any
    interleaving; they include the states in which callers are blocked in
    the send. *)
Inductive reachable : TrackState -> Prop :=
| reach_init : reachable initialState
| reach_step st st' : reachable st -> step st st' -> reachable st'.

(** [defer trackUsage(name, alwaysTrack, &out, err, args...)] in a helper:
    the arguments are evaluated at the defer statement ([err] is still nil
    there, [&out] points to the result), the call runs when the helper is
    about to return, and the helper returns to its caller after it. *)
Definition deferTrackUsage {TX : Text} {A} (st : TrackState) (now : Z) (_fn : string)
    (alwaysTrack : bool) (out : Value) (args : list Value) (r : A)
  : outcome (A * TrackState) :=
  match trackUsage st _fn alwaysTrack out None args now with
  | Returns st' => Returns (r, st')
  | Blocks st' => Blocks st'
  end.

(** [env]: the value of the variable, or the placeholder. *)
Definition env (environ : gmap string string) (name : string) (or : list string) : string :=
  match environ !! name with
  | Some v => v
  | None => match or with x :: _ => x | [] => "" end
  end.

(** [env] with its deferred call: a helper that passes
    [alwaysTrack = true]. *)
Definition env_call {TX : Text} (st : TrackState) (now : Z) (environ : gmap string string)
    (name : string) (or : list string) : outcome (string * TrackState) :=
  let r := env environ name or in
  deferTrackUsage st now "env" true (VString r) [VString name; VOther "[]string"] r.

(* ================================================================== *)
(** ** The render service ([RenderServer]) *)
(* ================================================================== *)

(** [strings.Contains]. *)
Fixpoint Contains (s substr : string) : bool :=
  HasPrefix s substr ||
  match s with
  | EmptyString => false
  | String _ rest => Contains rest substr
  end.

Record jreq (data : Type) : Type := mkJreq {
  Template_ : string;
  Templates : gmap string string;
  Data : data;
  Outfile : string;
  ForceDL : bool
}.
Arguments mkJreq {data} _ _ _ _ _.
Arguments Template_ {data} _.
Arguments Templates {data} _.
Arguments Data {data} _.
Arguments Outfile {data} _.
Arguments ForceDL {data} _.

Record jresp : Type := mkJresp {
  Status : nat;
  Error_ : string
}.

(** encoding/json over the values a template is executed against:
    [json.Unmarshal(d, &post.Data)], [json.NewDecoder(r.Body).Decode(&post)]
    on the request body (both fail with an error; the decoder reads the
    first JSON value of the body and leaves what follows it unread), the
    nil interface value and a string as a value. *)
Class Json (data : Type) : Type := {
  nilValue : data;
  stringValue : string -> data;
  Unmarshal : list byte -> result data;
  DecodeRequest : string -> result (jreq data)
}.

(** One part of a multipart body: its form name, its file name, and what
    [io.Copy(buf, part)] obtains. *)
Record Part : Type := mkPart {
  FormName : string;
  FileName : string;
  content : result (list byte)
}.

(** A request as the handler reads it. [MultipartReader] is the result of
    [r.MultipartReader()]: an error, or the results of the successive calls
    of [mr.NextPart()] up to [io.EOF]. *)
Record Request : Type := mkRequest {
  Method : string;
  ContentType : string;                       (* r.Header.Get("content-type") *)
  DumpRequest : result string;                (* httputil.DumpRequest(r, true) *)
  MultipartReader : result (list (result Part));
  Body : string
}.

Inductive body : Type :=
| BEmpty
| BText (s : string)
| BJson (j : jresp)                           (* json.NewEncoder(w).Encode(j) *)
| BBytes (b : list byte).

(** What the handler sets of the response: the status given to
    [WriteHeader], the headers set before it, the body written. *)
Record Response : Type := mkResponse {
  status : nat;
  header : gmap string string;
  rbody : body
}.

Definition StatusOK : nat := 200.
Definition StatusPermanentRedirect : nat := 308.
Definition StatusBadRequest : nat := 400.
Definition StatusInternalServerError : nat := 500.

(** [http.Error(w, msg, code)] on a response with no header set. *)
Definition http_Error (msg : string) (code : nat) : Response :=
  mkResponse code
    (<["X-Content-Type-Options" := "nosniff"]>
       (<["Content-Type" := "text/plain; charset=utf-8"]> ∅))
    (BText (msg +:+ String "010" "")).

(** [w.WriteHeader(code); json.NewEncoder(w).Encode(jresp{code, msg})]. *)
Definition jsonError (code : nat) (msg : string) : Response :=
  mkResponse code ∅ (BJson (mkJresp code msg)).

(** The double quote. *)
Definition dquote : string := String (ascii_of_nat 34) "".

(** [http.StatusText(code)] of the redirect statuses. *)
Definition StatusText (code : nat) : string :=
  if (code =? 301)%nat then "Moved Permanently"
  else if (code =? 302)%nat then "Found"
  else if (code =? 303)%nat then "See Other"
  else if (code =? 307)%nat then "Temporary Redirect"
  else if (code =? 308)%nat then "Permanent Redirect"
  else "".

(** [http.Redirect(w, r, url, code)] on a response with no header set, for
    an absolute [url] of ASCII characters none of which HTML escapes: the
    Location header for every method, the Content-Type header for GET and
    HEAD, and for GET the short page with the link, written by
    [fmt.Fprintln]. *)
Definition http_Redirect (r : Request) (url : string) (code : nat) : Response :=
  let h := <["Location" := url]> ∅ in
  let h := if String.eqb (Method r) "GET" || String.eqb (Method r) "HEAD"
           then <["Content-Type" := "text/html; charset=utf-8"]> h
           else h in
  mkResponse code h
    (if String.eqb (Method r) "GET"
     then BText ("<a href=" +:+ dquote +:+ url +:+ dquote +:+ ">" +:+ StatusText code
                 +:+ "</a>." +:+ String "010" (String "010" ""))
     else BEmpty).

(** [bye]. *)
Definition bye (r : Request) : Response :=
  http_Redirect r "https://www.youtube.com/watch?v=dQw4w9WgXcQ?autoplay=1"
    StatusPermanentRedirect.

(** The process-wide settings and what the handler takes from outside the
    package: [reflect.TypeOf(f).String()], [http.DetectContentType], the
    page constant [renderedPage] and the file system. *)
Record Config : Type := mkConfig {
  DebugHTTPRequests : bool;
  EnableUnsafeFunctions : bool;
  typeString : callable -> string;
  DetectContentType : list byte -> string;
  renderedPage : string;
  fsys : FS
}.

Section Server.
Context {data : Type} {TX : Text} {MO : MapOrder} {JS : Json data}.
Context (textTpl : Engine data) (htmlTpl : Engine string).

Definition setTemplate (post : jreq data) (v : string) : jreq data :=
  mkJreq v (Templates post) (Data post) (Outfile post) (ForceDL post).
Definition setTemplates (post : jreq data) (k v : string) : jreq data :=
  mkJreq (Template_ post) (<[k := v]> (Templates post)) (Data post) (Outfile post) (ForceDL post).
Definition setData (post : jreq data) (d : data) : jreq data :=
  mkJreq (Template_ post) (Templates post) d (Outfile post) (ForceDL post).
Definition setOutfile (post : jreq data) (v : string) : jreq data :=
  mkJreq (Template_ post) (Templates post) (Data post) v (ForceDL post).
Definition setForceDL (post : jreq data) (v : bool) : jreq data :=
  mkJreq (Template_ post) (Templates post) (Data post) (Outfile post) v.

(** The body of the loop over the parts, for a part that was read:
    [inl] is the response of an early return. *)
Definition readPart (part : Part) (post : jreq data) : Response + jreq data :=
  let pname := FormName part in
  let read (k : list byte -> Response + jreq data) : Response + jreq data :=
    match content part with
    | inl err => inl (http_Error (Error err) StatusInternalServerError)
    | inr buf => k buf
    end in
  if String.eqb pname "template" then
    read (fun buf => inr (setTemplate post (string_of_list_byte buf)))
  else if String.eqb pname "data" then
    read (fun d =>
      match Unmarshal d with
      | inr v => inr (setData post v)
      | inl _ => inr (setData post (stringValue (string_of_list_byte d)))
      end)
  else if String.eqb pname "templates" then
    read (fun buf =>
      if (0 <? length buf)%nat
      then inr (setTemplates post (FileName part) (string_of_list_byte buf))
      else inr post)
  else if String.eqb pname "outfile" then
    read (fun buf => inr (setOutfile post (string_of_list_byte buf)))
  else if String.eqb pname "forcedl" then
    read (fun buf =>
      match ParseBool (string_of_list_byte buf) with
      | inr b => inr (setForceDL post b)
      | inl err => inl (http_Error (Error err) StatusBadRequest)
      end)
  else inr post.

(** The loop [for { part, err := mr.NextPart() ... }]. *)
Fixpoint readParts (parts : list (result Part)) (post : jreq data)
  : Response + jreq data :=
  match parts with
  | [] => inr post
  | inl err :: _ => inl (http_Error (Error err) StatusInternalServerError)
  | inr part :: rest =>
      match readPart part post with
      | inl resp => inl resp
      | inr post' => readParts rest post'
      end
  end.

(** Parsing: the request body becomes a [jreq]. *)
Definition parseRequest (r : Request) : Response + jreq data :=
  let post := mkJreq "" ∅ nilValue "" false in
  if Contains (ContentType r) "multipart" then
    match MultipartReader r with
    | inl err => inl (http_Error (Error err) StatusInternalServerError)
    | inr parts => readParts parts post
    end
  else
    match DecodeRequest (Body r) with
    | inl err => inl (jsonError StatusBadRequest (Error err))
    | inr post' => inr post'
    end.

(** Responding, once the template has been executed with output [out]. *)
Definition respond (cfg : Config) (multipart : bool) (post : jreq data)
    (out : list byte) : Response :=
  let post := if String.eqb (Outfile post) "" then setOutfile post "rendered.out" else post in
  let h := <["Content-Control" := "private, no-transform, no-store, must-revalidate"]>
             (<["Expires" := "0"]> ∅) in
  if (Z.of_nat (length out) <? 2 ^ 20)%Z && negb (ForceDL post) && multipart then
    match BuildHTMLTemplate (E := htmlTpl) (fsys cfg) (FnMap (typeString cfg)) false
            "rendered" (renderedPage cfg) ∅ [] with
    | inl _ => mkResponse StatusInternalServerError h BEmpty
    | inr (tpl, _) =>
        match ExecuteTemplate tpl "rendered" (string_of_list_byte out) with
        | inl _ => mkResponse StatusInternalServerError h BEmpty
        | inr rbuf => mkResponse StatusOK h (BBytes rbuf)
        end
    end
  else
    let ctypeBuf := repeat "000"%byte 512 ++ out in
    mkResponse StatusOK
      (<["Content-Length" := Itoa (length out)]>
         (<["Content-Transfer-Encoding" := "binary"]>
            (<["Content-Disposition" := "attachment; filename=" +:+ Outfile post]>
               (<["Content-Type" := DetectContentType cfg ctypeBuf]> h))))
      (BBytes out).

(** The handler [RenderServer(fnMap)] returns. *)
Definition RenderServer (cfg : Config) (fnMap : templeFnMap) (r : Request) : Response :=
  if DebugHTTPRequests cfg && isErr (DumpRequest r) then
    http_Error "" StatusInternalServerError
  else if negb (String.eqb (Method r) "POST") then bye r
  else
    let multipart := Contains (ContentType r) "multipart" in
    match parseRequest r with
    | inl resp => resp
    | inr post =>
        match BuildTemplate (E := textTpl) (fsys cfg) fnMap (EnableUnsafeFunctions cfg)
                "post" (Template_ post) (Templates post) [] with
        | inl err => jsonError StatusBadRequest (Error err)
        | inr (tpl, _) =>
            match Execute tpl (Data post) with
            | inl err => jsonError StatusInternalServerError (Error err)
            | inr buf => respond cfg multipart post buf
            end
        end
    end.
End Server.

(* ================================================================== *)
(** ** Stand-ins for the external collaborators *)
(* ================================================================== *)

(** Small instances of the classes above, on which the definitions run:
    the concrete runs among the properties are stated on them. *)

(** A range order: the order of [map_to_list]. *)
#[export] Instance listOrder : MapOrder := {|
  mapRange := fun V m => map_to_list m;
  mapRange_perm := fun V m => reflexivity (map_to_list m)
|}.

(** ASCII text: one rune per byte. *)
Definition asciiText : Text := {|
  rune := ascii;
  runes := list_ascii_of_string;
  IsLetter := fun c => let n := N_of_ascii c in
    ((65 <=? n) && (n <=? 90) || (97 <=? n) && (n <=? 122))%N;
  IsLower := fun c => let n := N_of_ascii c in ((97 <=? n) && (n <=? 122))%N;
  IsUpper := fun c => let n := N_of_ascii c in ((65 <=? n) && (n <=? 90))%N;
  Atoi := fun s => inl (ErrExternal "strconv.Atoi: invalid syntax");
  float := unit;
  ParseFloat := fun s _ => inl (ErrExternal "strconv.ParseFloat: invalid syntax");
  Quote := fun s => "'" +:+ s +:+ "'";
  GoString := typeName
|}.

(** An engine whose templates are literal text: parsing registers the text
    under the name, executing writes the text of the template named. *)
Definition literalEngine (data : Type) : Engine data := {|
  tset := gmap string string;
  emptySet := ∅;
  parse := fun _ set name text => inr (<[name := text]> set);
  exec := fun _ set name _ =>
    match set !! name with
    | Some text => inr (list_byte_of_string text)
    | None => inl "incomplete or empty template"
    end
|}.

(** An html engine that writes the page text followed by the output. *)
Definition pageEngine : Engine string := {|
  tset := gmap string string;
  emptySet := ∅;
  parse := fun _ set name text => inr (<[name := text]> set);
  exec := fun _ set name output =>
    match set !! name with
    | Some text => inr (list_byte_of_string (text +:+ output))
    | None => inl "incomplete or empty template"
    end
|}.

(** A JSON decoder that accepts no input. *)
Definition noJson : Json Value := {|
  nilValue := VOther "<nil>";
  stringValue := VString;
  Unmarshal := fun _ => inl (ErrExternal "unexpected end of JSON input");
  DecodeRequest := fun _ => inl (ErrExternal "unexpected end of JSON input")
|}.

(** An AEAD that appends a constant tag of 16 bytes. *)
Definition tagOnly_Seal (key nonce ptxt aad : list byte) : list byte :=
  ptxt ++ repeat "000"%byte 16.

Definition tagOnly_Open (key nonce ctxt aad : list byte) : option (list byte) :=
  if (length ctxt <? 16)%nat then None
  else Some (firstn (length ctxt - 16) ctxt).

Definition tagOnly : AEAD.
Proof.
  refine {| Seal := tagOnly_Seal; Open := tagOnly_Open |}.
  intros key nonce ptxt aad _ _. unfold tagOnly_Open, tagOnly_Seal.
  rewrite length_app, repeat_length.
  destruct (Nat.ltb_spec (length ptxt + 16) 16) as [Hlt|Hge]; [lia|].
  replace (length ptxt + 16 - 16) with (length ptxt) by lia.
  by rewrite take_app_length.
Defined.

(** An entropy source, a file system with no file, a configuration. *)
Definition countingRnd (i : nat) : byte := byte_of_N (N.of_nat i).

Definition noFiles : FS := fun p => inl ("open " +:+ p +:+ ": no such file or directory").

Definition LF : string := String "010" "".

(** A file system with one file, "/srv/t.tpl", of three lines; the second
    begins with "#!". *)
Definition oneFile : FS := fun p =>
  if String.eqb p "/srv/t.tpl"
  then inr ("first" +:+ LF +:+ "#!second" +:+ LF +:+ "third" +:+ LF, None)
  else noFiles p.

Definition testConfig : Config := {|
  DebugHTTPRequests := false;
  EnableUnsafeFunctions := false;
  typeString := fun _ => "func()";
  DetectContentType := fun _ => "application/octet-stream";
  renderedPage := "<pre>";
  fsys := noFiles
|}.

(** The state a call of the tracker leaves, returned or blocked. *)
Definition stateOf (o : outcome TrackState) : TrackState :=
  match o with Returns st => st | Blocks st => st end.

(** The inline page of a rendered output: the page template built and
    executed on the output, as [respond] does. *)
Definition inlinePage {MO : MapOrder} (htmlTpl : Engine string) (cfg : Config)
    (out : list byte) : result (list byte) :=
  match BuildHTMLTemplate (E := htmlTpl) (fsys cfg) (FnMap (typeString cfg)) false
          "rendered" (renderedPage cfg) ∅ [] with
  | inl e => inl e
  | inr (tpl, _) => ExecuteTemplate tpl "rendered" (string_of_list_byte out)
  end.

(** The headers both response shapes carry. *)
Definition cacheHeaders : gmap string string :=
  <["Content-Control" := "private, no-transform, no-store, must-revalidate"]>
    (<["Expires" := "0"]> ∅).

(** A multipart request whose reader cannot be made, and one whose second
    part cannot be read. *)
Definition noBoundaryRequest : Request :=
  mkRequest "POST" "multipart/form-data" (inr "")
    (inl (ErrExternal "no multipart boundary param in Content-Type")) "".

Definition truncatedRequest : Request :=
  mkRequest "POST" "multipart/form-data; boundary=x" (inr "")
    (inr [ inr (mkPart "template" "" (inr (list_byte_of_string "hi")));
           inl ErrUnexpectedEOF ])
    "".

(** A multipart request with an inline template, one uploaded fragment and
    the download option. *)
Definition fragmentRequest : Request :=
  mkRequest "POST" "multipart/form-data; boundary=x" (inr "")
    (inr [ inr (mkPart "template" "" (inr (list_byte_of_string "INLINE")));
           inr (mkPart "templates" "frag.tpl" (inr (list_byte_of_string "FRAGMENT")));
           inr (mkPart "forcedl" "" (inr (list_byte_of_string "true"))) ])
    "".

(** Multipart requests: a forcedl part that is no boolean; a download under
    a given name; a plain render. *)
Definition badForcedlRequest : Request :=
  mkRequest "POST" "multipart/form-data; boundary=x" (inr "")
    (inr [ inr (mkPart "template" "" (inr (list_byte_of_string "hi")));
           inr (mkPart "forcedl" "" (inr (list_byte_of_string "maybe"))) ])
    "".

Definition downloadRequest : Request :=
  mkRequest "POST" "multipart/form-data; boundary=x" (inr "")
    (inr [ inr (mkPart "template" "" (inr (list_byte_of_string "hi")));
           inr (mkPart "outfile" "" (inr (list_byte_of_string "o.txt")));
           inr (mkPart "forcedl" "" (inr (list_byte_of_string "true"))) ])
    "".

Definition inlineRequest : Request :=
  mkRequest "POST" "multipart/form-data; boundary=x" (inr "")
    (inr [ inr (mkPart "template" "" (inr (list_byte_of_string "hi"))) ])
    "".

(** The handle [BuildTemplate] returns on the literal engine for the inline
    template "hi" alone. *)
Definition hiTemplate : Template (E := literalEngine Value) Value :=
  mkTemplate (E := literalEngine Value) "post" (<["post" := "hi"]> ∅)
    (BuildFuncMap (FnMap (fun _ => "func()")) false ∪ ∅).

(* ================================================================== *)
(** ** Further functions of the package *)
(* ================================================================== *)

(** [UnsafeFuncs]: the names whose entry is unsafe, collected in the order
    of the range and then sorted by [sort.Strings] (ascending in the
    byte-wise order of strings, here [String.le]; the order is total, so
    the sorted list does not depend on the sorting algorithm). *)
Definition UnsafeFuncs {MO : MapOrder} (t : templeFnMap) : list string :=
  merge_sort String.le
    (foldl (fun out e => if Unsafe e.2 then out ++ [e.1] else out) [] (mapRange t)).

(** The part names the loop of [RenderServer] has a case for; a failed
    [NextPart] counts as recognised (it ends the loop). *)
Definition recognised (p : result Part) : bool :=
  match p with
  | inl _ => true
  | inr part =>
      existsb (String.eqb (FormName part))
        ["template"; "data"; "templates"; "outfile"; "forcedl"]
  end.

(** Requests for the runs below: a GET, and a POST with no part at all. *)
Definition getRequest : Request :=
  mkRequest "GET" "" (inr "") (inl (ErrExternal "request Content-Type isn't multipart/form-data")) "".

Definition emptyMultipartRequest : Request :=
  mkRequest "POST" "multipart/form-data; boundary=x" (inr "") (inr []) "".

(** The record the consumer holds, as a list. *)
Definition held (st : TrackState) : list fnTrack :=
  match received st with Some x => [x] | None => [] end.

(** An error made by [fmt.Errorf] with a plain text. *)
Definition Errorf (msg : string) : error := ErrExternal msg.

(** The arithmetic helpers [math] dispatches to ([add], [divide], ...): they
    are defined outside the files at hand and are taken as given. *)
Class Arith : Type := {
  add : Value -> Value -> result Value;
  divide : Value -> Value -> result Value;
  maximum : Value -> Value -> result Value;
  minimum : Value -> Value -> result Value;
  modulo : Value -> Value -> result Value;
  multiply : Value -> Value -> result Value;
  subtract : Value -> Value -> result Value
}.

(** [math]. *)
Definition math {AR : Arith} (b a : Value) (x : string) : result Value :=
  if existsb (String.eqb x) ["+"; "add"] then add b a
  else if existsb (String.eqb x) ["/"; "div"] then divide b a
  else if String.eqb x "max" then maximum b a
  else if String.eqb x "min" then minimum b a
  else if existsb (String.eqb x) ["%"; "mod"] then modulo b a
  else if existsb (String.eqb x) ["x"; "mul"] then multiply b a
  else if existsb (String.eqb x) ["-"; "sub"] then subtract b a
  else inl (Errorf ("unsupported method " +:+ x)).

(** The operator spellings [math] has a case for. *)
Definition mathOperators : list string :=
  ["+"; "add"; "/"; "div"; "max"; "min"; "%"; "mod"; "x"; "mul"; "-"; "sub"].

(** compress/gzip as a black box: the compressed form of a byte sequence,
    and the decompression of a byte sequence (which fails on what is not a
    gzip stream), with the law that decompression undoes compression. *)
Class Gzip : Type := {
  Compress : list byte -> list byte;
  Decompress : list byte -> result (list byte);
  Decompress_Compress : forall b, Decompress (Compress b) = inr b
}.

(** [_gzip]: a read error of a reader ends the copy into the writer. *)
Definition _gzip {GZ : Gzip} (v : Value) : result (list byte) :=
  todo ← match v with
         | VString t => inr (list_byte_of_string t)
         | VBytes t => inr t
         | VReader r => r
         | _ => inl (ErrInvalidArgument (typeName v) "io.Reader, string or []byte")
         end;
  inr (Compress todo).

(** [_gunzip]: a string argument is base64-decoded by [b64dec] first. *)
Definition _gunzip {GZ : Gzip} (v : Value) : result (list byte) :=
  todo ← match v with
         | VString t => b64dec (VString t)
         | VBytes t => inr t
         | VReader r => r
         | _ => inl (ErrInvalidArgument (typeName v) "io.Reader or []byte")
         end;
  Decompress todo.

(** The arguments no branch of the helpers' type switches takes. *)
Definition unsupported (v : Value) : bool :=
  match v with
  | VInt _ | VBool _ | VOther _ => true
  | _ => false
  end.

(** A gzip stand-in that stores the bytes behind a one-byte header. *)
Definition storeOnly : Gzip.
Proof.
  refine {| Compress := fun b => "031"%byte :: b;
            Decompress := fun z => match z with
                                   | "031"%byte :: b => inr b
                                   | _ => inl (ErrExternal "gzip: invalid header")
                                   end |}.
  reflexivity.
Defined.

(** Arithmetic stand-in: every helper returns its first argument. *)
Definition firstArg : Arith := {|
  add := fun b a => inr b; divide := fun b a => inr b;
  maximum := fun b a => inr b; minimum := fun b a => inr b;
  modulo := fun b a => inr b; multiply := fun b a => inr b;
  subtract := fun b a => inr b
|}.

(** [unsafeMode] of package main: the default of the -u flag, from the
    environment ([os.Getenv] gives "" for a variable that is not set). *)
Definition unsafeMode (environ : gmap string string) : bool :=
  match ParseBool (default "" (environ !! "XPRINT_UNSAFE")) with
  | inl _ => false
  | inr envvar => envvar
  end.

(** [appendData] of package main, on the package variables [data] and
    [dataIndex]; [n] is the index of the range. The values the program
    stores in [data] are strings. *)
Fixpoint appendData_from (n : nat) (args : list string)
    (st : gmap string string * list string) : gmap string string * list string :=
  match args with
  | [] => st
  | s :: rest =>
      let key := "arg" +:+ Itoa n in
      appendData_from (S n) rest (<[key := s]> st.1, st.2 ++ [key])
  end.

Definition appendData (args : list string)
    (st : gmap string string * list string) : gmap string string * list string :=
  appendData_from 0 args st.

(** What [init] of package main makes of the arguments and of the standard
    input ([Some] its content when it is not a terminal and was read):
    [appendData] runs first under -a and last (deferred) otherwise. *)
Definition initData (argsfirst : bool) (stdin : option string) (args : list string)
  : gmap string string * list string :=
  let st0 : gmap string string * list string := (∅, []) in
  let st1 := if argsfirst then appendData args st0 else st0 in
  let st2 := match stdin with
             | Some b => (<["stdin" := b]> st1.1, st1.2 ++ ["stdin"])
             | None => st1
             end in
  if argsfirst then st2 else appendData args st2.

(** The output of [main] when no template is given: each entry of
    [dataIndex] printed with "%s". *)
Definition echoData (st : gmap string string * list string) : string :=
  String.concat "" (map (fun s => default "%!s(<nil>)" (st.1 !! s)) st.2).

(** The loop of [main] over the -t and -f options in the order of the
    command line, each given by its text or path and whether it is a file:
    the fragments keyed "opt<n>" and the local files. *)
Fixpoint cliTemplates_from (n : nat) (ts : list (string * bool))
    (acc : gmap string string * list string) : gmap string string * list string :=
  match ts with
  | [] => acc
  | (s, isFile) :: rest =>
      cliTemplates_from (S n) rest
        (if isFile then (acc.1, acc.2 ++ [s])
         else if (0 <? String.length s)%nat
              then (<["opt" +:+ Itoa n := s]> acc.1, acc.2)
              else acc)
  end.

Definition cliTemplates (ts : list (string * bool)) : gmap string string * list string :=
  cliTemplates_from 0 ts (∅, []).

(** The rendering of [main] when templates are given; a panic is the
    error it is raised with. *)
Definition cliRender {data : Type} {E : Engine data} {MO : MapOrder}
    (rnd : nat -> byte) (cfg : Config) (ts : list (string * bool)) (d : data)
  : result (list byte) :=
  let '(argTemplates, localTemplates) := cliTemplates ts in
  st ← BuildTemplate (fsys cfg) (FnMap (typeString cfg)) (EnableUnsafeFunctions cfg)
         (hex_EncodeToString (Random rnd 12)) "" argTemplates localTemplates;
  match st.2 with
  | n :: _ => ExecuteTemplate st.1 n d
  | [] => inl (Errorf "runtime error: index out of range [0] with length 0")
  end.

(** A file system with two template files. *)
Definition twoFiles : FS := fun p =>
  if String.eqb p "a.tpl" then inr ("A", None)
  else if String.eqb p "b.tpl" then inr ("B", None)
  else noFiles p.

(** A line as [fload] keeps it unchanged: without a newline inside, without
    a final carriage return, shorter than the scanner's buffer, and not
    beginning with "#!". *)
Definition cleanLine (l : string) : bool :=
  forallb (fun c => negb (Ascii.eqb c "010")) (list_ascii_of_string l)
  && String.eqb (dropCR l) l && negb (tooLong l) && negb (HasPrefix l "#!").


(* ================================================================== *)
(** ** encoding/base64 (encoding), [b64enc] *)
(* ================================================================== *)

(** [enc.encode[i]] of the standard alphabet
    [ABCDEFGHIJKLMNOPQRSTUVWXYZabcdefghijklmnopqrstuvwxyz0123456789+/]. *)
Definition b64_encodeStd (i : N) : byte :=
  byte_of_N
    (if i <? 26 then i + 65
     else if i <? 52 then i - 26 + 97
     else if i <? 62 then i - 52 + 48
     else if i =? 62 then 43
     else 47)%N.

(** [val>>k&0x3F]. *)
Definition sextet (val k : N) : N := N.land (N.shiftr val k) 63.

(** The padding character ['=']. *)
Definition padChar : byte := "="%byte.

(** [Encoding.Encode]: four characters for every three bytes, and for the
    one or two bytes left over two or three characters, filled up to four
    with the padding character when the encoding has one ([padded]:
    [StdEncoding]; not [padded]: [RawStdEncoding]). The result is what is
    written to [dst]. *)
Fixpoint b64_Encode (padded : bool) (src : list byte) : list byte :=
  match src with
  | a :: b :: c :: rest =>
      let val := N.lor (N.lor (N.shiftl (Byte.to_N a) 16) (N.shiftl (Byte.to_N b) 8))
                       (Byte.to_N c) in
      b64_encodeStd (sextet val 18) :: b64_encodeStd (sextet val 12)
        :: b64_encodeStd (sextet val 6) :: b64_encodeStd (sextet val 0)
        :: b64_Encode padded rest
  | [a; b] =>
      let val := N.lor (N.shiftl (Byte.to_N a) 16) (N.shiftl (Byte.to_N b) 8) in
      b64_encodeStd (sextet val 18) :: b64_encodeStd (sextet val 12)
        :: b64_encodeStd (sextet val 6) :: (if padded then [padChar] else [])
  | [a] =>
      let val := N.shiftl (Byte.to_N a) 16 in
      b64_encodeStd (sextet val 18) :: b64_encodeStd (sextet val 12)
        :: (if padded then [padChar; padChar] else [])
  | [] => []
  end.

(** [base64.StdEncoding.EncodedLen(n)]. *)
Definition b64_EncodedLen (n : nat) : nat := (n + 2) / 3 * 4.

(** The stream encoder of [base64.NewEncoder]: the bytes of an incomplete
    block kept for the next write ([buf[:nbuf]]) and what has been written
    to the underlying writer. *)
Record encoder : Type := mkEncoder {
  ebuf : list byte;
  eout : list byte
}.

Definition newEncoder : encoder := mkEncoder [] [].

(** The second and third stages of [encoder.Write]: the whole blocks of [p]
    are encoded and written (the source does so in pieces of at most 768
    bytes, each a multiple of three), the one or two bytes left are kept. *)
Definition encoder_interior (padded : bool) (out p : list byte) : encoder :=
  let nn := length p / 3 * 3 in
  mkEncoder (skipn nn p) (out ++ b64_Encode padded (firstn nn p)).

(** [encoder.Write]: an incomplete block kept from the last write is filled
    up first, and encoded once it has three bytes. *)
Definition encoder_Write (padded : bool) (e : encoder) (p : list byte) : encoder :=
  if (0 <? length (ebuf e))%nat then
    let i := Nat.min (length p) (3 - length (ebuf e)) in
    let buf := ebuf e ++ firstn i p in
    let p := skipn i p in
    if (length buf <? 3)%nat then mkEncoder buf (eout e)
    else encoder_interior padded (eout e ++ b64_Encode padded buf) p
  else encoder_interior padded (eout e) p.

(** [io.Copy] into the encoder, the source delivering its content in the
    pieces [chunks]. *)
Definition encoder_Copy (padded : bool) (chunks : list (list byte)) : encoder :=
  foldl (encoder_Write padded) newEncoder chunks.

(** What the stream encoder has done once the bytes [all] have been
    written to it: the whole blocks are encoded, the rest is kept. *)
Definition encoder_inv (padded : bool) (e : encoder) (all : list byte) : Prop :=
  exists (whole : list byte) (k : nat),
    all = whole ++ ebuf e /\ length whole = 3 * k /\ length (ebuf e) < 3
    /\ eout e = b64_Encode padded whole.

(** [b64enc]. The string and [[]byte] branches use the standard encoding.
    The [io.Reader] branch copies into a stream encoder of the raw encoding
    and takes the buffer's content; the encoder is not closed, so the bytes
    it keeps for an incomplete block are not written. The content of the
    reader is copied in one write (as [bytes.Buffer.WriteTo] does). *)
Definition b64enc (v : Value) : result string :=
  match v with
  | VString t => inr (string_of_list_byte (b64_Encode true (list_byte_of_string t)))
  | VBytes t => inr (string_of_list_byte (b64_Encode true t))
  | VReader r =>
      match r with
      | inl e => inl e
      | inr content => inr (string_of_list_byte (eout (encoder_Copy false [content])))
      end
  | _ => inl (ErrInvalidArgument (typeName v) "io.Reader, string or []byte")
  end.

(* ------------------------------------------------------------------ *)
(** *** The data of [encrypt] and [decrypt] *)

(** The type switch of [encrypt]: the plaintext of the data argument. *)
Definition plaintextOf (v : Value) : result (list byte) :=
  match v with
  | VString t => inr (list_byte_of_string t)
  | VBytes t => inr t
  | VReader r => consumeReader r
  | _ => inl (ErrInvalidArgument (typeName v) "string or []byte")
  end.

(** The type switch of [decrypt]: the ciphertext of the data argument (a
    string is base64-decoded by [b64dec]; there is no default branch). *)
Definition ciphertextOf (v : Value) : result (list byte) :=
  match v with
  | VString t => b64dec (VString t)
  | VBytes t => inr t
  | VReader r => consumeReader r
  | _ => inr []
  end.

(* ------------------------------------------------------------------ *)
(** *** The tracked helpers *)

(** The bodies of the tracked helpers that are not modelled further (gob,
    JSON and YAML coding, [stringify], [mapadd]): what each returns to its
    caller, a panic counting as an error (the deferred call runs in both
    cases). None of them calls a tracked helper. *)
Class Bodies : Type := {
  togob : Value -> result (list byte);
  fromgob : Value -> result Value;
  tojson : Value -> result string;
  fromjson : Value -> result Value;
  toyaml : Value -> result string;
  fromyaml : Value -> result Value;
  stringify : Value -> result string;
  mapadd : Value -> Value -> list Value -> result Value
}.

(** A call of one of the helpers that pass [alwaysTrack = false], with its
    arguments. *)
Inductive invocation : Type :=
| call_togob (v : Value)
| call_fromgob (v : Value)
| call_tojson (v : Value)
| call_fromjson (v : Value)
| call_toyaml (v : Value)
| call_fromyaml (v : Value)
| call_b64enc (v : Value)
| call_b64dec (v : Value)
| call_hexenc (v : Value)
| call_hexdec (v : Value)
| call_gzip (v : Value)
| call_gunzip (v : Value)
| call_string (v : Value)
| call_encrypt (v : Value) (b64key aad : string)
| call_decrypt (v : Value) (b64key aad : string)
| call_add (v value : Value) (key : list Value).

(** The name a helper passes to [trackUsage]. *)
Definition helperName (i : invocation) : string :=
  match i with
  | call_togob _ => "togob"
  | call_fromgob _ => "fromgob"
  | call_tojson _ => "tojson"
  | call_fromjson _ => "fromjson"
  | call_toyaml _ => "toyaml"
  | call_fromyaml _ => "fromyaml"
  | call_b64enc _ => "b64enc"
  | call_b64dec _ => "b64dec"
  | call_hexenc _ => "hexenc"
  | call_hexdec _ => "hexdec"
  | call_gzip _ => "gzip"
  | call_gunzip _ => "gunzip"
  | call_string _ => "string"
  | call_encrypt _ _ _ => "encrypt"
  | call_decrypt _ _ _ => "decrypt"
  | call_add _ _ _ => "add"
  end.

(** The arguments a helper passes to [trackUsage] after [err]. *)
Definition helperArgs (i : invocation) : list Value :=
  match i with
  | call_encrypt v b64key aad | call_decrypt v b64key aad =>
      [v; VString b64key; VString aad]
  | call_add v value key => [v; value; VOther "[]interface {}"]
  | call_togob v | call_fromgob v | call_tojson v | call_fromjson v
  | call_toyaml v | call_fromyaml v | call_b64enc v | call_b64dec v
  | call_hexenc v | call_hexdec v | call_gzip v | call_gunzip v
  | call_string v => [v]
  end.

Definition bytesResult (r : result (list byte)) : result Value :=
  match r with inl e => inl e | inr b => inr (VBytes b) end.

Definition stringResult (r : result string) : result Value :=
  match r with inl e => inl e | inr s => inr (VString s) end.

(** What the body of a helper returns to its caller. *)
Definition returns {aead : AEAD} {GZ : Gzip} {BD : Bodies} (rnd : nat -> byte)
    (i : invocation) : result Value :=
  match i with
  | call_togob v => bytesResult (togob v)
  | call_fromgob v => fromgob v
  | call_tojson v => stringResult (tojson v)
  | call_fromjson v => fromjson v
  | call_toyaml v => stringResult (toyaml v)
  | call_fromyaml v => fromyaml v
  | call_b64enc v => stringResult (b64enc v)
  | call_b64dec v => bytesResult (b64dec v)
  | call_hexenc v => stringResult (hexenc v)
  | call_hexdec v => bytesResult (hexdec v)
  | call_gzip v => bytesResult (_gzip v)
  | call_gunzip v => bytesResult (_gunzip v)
  | call_string v => stringResult (stringify v)
  | call_encrypt v b64key aad => bytesResult (encrypt rnd v b64key aad)
  | call_decrypt v b64key aad => bytesResult (decrypt v b64key aad)
  | call_add v value key => mapadd v value key
  end.

(** The value of [out] when the helper returns: the result, or the zero
    value of its type after an error. *)
Definition outValue (i : invocation) (r : result Value) : Value :=
  match r with
  | inr out => out
  | inl _ =>
      match i with
      | call_tojson _ | call_toyaml _ | call_b64enc _ | call_hexenc _
      | call_string _ => VString ""
      | call_fromgob _ | call_fromjson _ | call_fromyaml _ | call_add _ _ _ =>
          VOther "<nil>"
      | _ => VBytes []
      end
  end.

(** The invocations whose body calls the tracked helper [b64dec]:
    [_gunzip] and [decrypt] in the string case of their type switch. *)
Definition callsB64dec (i : invocation) : bool :=
  match i with
  | call_gunzip (VString _) | call_decrypt (VString _) _ _ => true
  | _ => false
  end.

(** A helper with its deferred call. The body runs first: in [_gunzip]
    and [decrypt] on a string it calls [b64dec], whose own deferred call
    runs at time [now], before that of the caller at time [later]; the
    other bodies leave the tracker alone and their deferred call runs at
    time [now]. *)
Definition invoke {TX : Text} {aead : AEAD} {GZ : Gzip} {BD : Bodies}
    (rnd : nat -> byte) (i : invocation) (st : TrackState) (now later : Z)
  : outcome (result Value * TrackState) :=
  let r := returns rnd i in
  match i with
  | call_gunzip (VString t) | call_decrypt (VString t) _ _ =>
      let inner := call_b64dec (VString t) in
      let rb := returns rnd inner in
      match deferTrackUsage st now (helperName inner) false (outValue inner rb)
              (helperArgs inner) rb with
      | Returns (_, st1) =>
          deferTrackUsage st1 later (helperName i) false (outValue i r) (helperArgs i) r
      | Blocks st1 => Blocks st1
      end
  | _ => deferTrackUsage st now (helperName i) false (outValue i r) (helperArgs i) r
  end.

(** Bodies for the runs below: every one fails. *)
Definition noBodies : Bodies := {|
  togob := fun _ => inl (ErrExternal "gob: unsupported");
  fromgob := fun _ => inl (ErrExternal "gob: unsupported");
  tojson := fun _ => inl (ErrExternal "json: unsupported");
  fromjson := fun _ => inl (ErrExternal "json: unsupported");
  toyaml := fun _ => inl (ErrExternal "yaml: unsupported");
  fromyaml := fun _ => inl (ErrExternal "yaml: unsupported");
  stringify := fun _ => inl (ErrExternal "unsupported");
  mapadd := fun _ _ _ => inl (ErrExternal "unsupported")
|}.

(* ------------------------------------------------------------------ *)
(** *** More requests *)

(** A JSON decoder for request bodies that begin with an object of the
    one field template, whose text has no quote and no backslash: like
    [json.Decoder.Decode] it reads this first value and leaves what
    follows it unread. *)
Definition templateJson : Json Value := {|
  nilValue := VOther "<nil>";
  stringValue := VString;
  Unmarshal := fun _ => inl (ErrExternal "unexpected end of JSON input");
  DecodeRequest := fun body =>
    let opening := "{" +:+ dquote +:+ "template" +:+ dquote +:+ ":" +:+ dquote in
    let plain c := negb (Ascii.eqb c (ascii_of_nat 34)) && negb (Ascii.eqb c (ascii_of_nat 92)) in
    if HasPrefix body opening then
      let rest := list_ascii_of_string (TrimPrefix body opening) in
      let text := string_of_list_ascii (takeWhile plain rest) in
      if HasPrefix (string_of_list_ascii (dropWhile plain rest)) (dquote +:+ "}")
      then inr (mkJreq text ∅ (VOther "<nil>") "" false)
      else inl (ErrExternal "unexpected end of JSON input")
    else inl (ErrExternal "invalid character looking for beginning of value")
|}.

(** A body that is not JSON as a whole: a request object followed by
    text. *)
Definition trailingTextRequest : Request :=
  mkRequest "POST" "application/json" (inr "")
    (inl (ErrExternal "request Content-Type isn't multipart/form-data"))
    ("{" +:+ dquote +:+ "template" +:+ dquote +:+ ":" +:+ dquote +:+ "hi" +:+ dquote
     +:+ "} this is not JSON").

(** A body on which the decoder fails, with request dumping on and the
    dump failing. *)
Definition debugConfig : Config := {|
  DebugHTTPRequests := true;
  EnableUnsafeFunctions := false;
  typeString := fun _ => "func()";
  DetectContentType := fun _ => "application/octet-stream";
  renderedPage := "<pre>";
  fsys := noFiles
|}.

Definition undumpableRequest : Request :=
  mkRequest "POST" "application/json" (inl (ErrExternal "http: body read error"))
    (inl (ErrExternal "request Content-Type isn't multipart/form-data")) "not json".

(* ================================================================== *)
(** ** Properties *)
(* ================================================================== *)

Lemma lookup_BuildFuncMap (t : templeFnMap) (addUnsafeFuncs : bool) (name : string) :
  BuildFuncMap t addUnsafeFuncs !! name =
  t !! name ≫= (fun info =>
    if negb (Unsafe info) || addUnsafeFuncs then Some (_fn info) else None).
Proof.
  unfold BuildFuncMap.
  apply (map_fold_weak_ind (fun (r : FuncMap) (m : templeFnMap) =>
    r !! name = m !! name ≫= (fun info =>
      if negb (Unsafe info) || addUnsafeFuncs then Some (_fn info) else None))).
  - by rewrite !lookup_empty.
  - intros i x m r Hi IH.
    destruct (decide (i = name)) as [->|Hne].
    + rewrite lookup_insert_eq. simpl.
      destruct (negb (Unsafe x) || addUnsafeFuncs).
      * by rewrite lookup_insert_eq.
      * rewrite IH, Hi. done.
    + rewrite (lookup_insert_ne m) by done.
      destruct (negb (Unsafe x) || addUnsafeFuncs).
      * by rewrite lookup_insert_ne.
      * done.
Qed.

(** *** The function registry *)

Lemma lookup_BuildHTMLFuncMap (t : templeFnMap) (addUnsafeFuncs : bool) :
  BuildHTMLFuncMap t addUnsafeFuncs = BuildFuncMap t addUnsafeFuncs.
Proof. reflexivity. Qed.

Lemma BuildFuncMap_safe_only (t : templeFnMap) (name : string) (f : callable) :
  BuildFuncMap t false !! name = Some f ->
  exists info, t !! name = Some info /\ Unsafe info = false /\ _fn info = f.
Proof.
  rewrite lookup_BuildFuncMap.
  destruct (t !! name) as [info|] eqn:Hinfo; simpl; [|done].
  destruct (Unsafe info) eqn:Hu; simpl; [done|].
  intros [= <-]. by exists info.
Qed.

Lemma BuildFuncMap_all (t : templeFnMap) (name : string) (info : fn) :
  t !! name = Some info -> BuildFuncMap t true !! name = Some (_fn info).
Proof.
  intros Hinfo. rewrite lookup_BuildFuncMap, Hinfo. simpl.
  by rewrite orb_true_r.
Qed.

Lemma FnMap_unsafe_flags (typeString : callable -> string) :
  Forall (fun name => exists info, FnMap typeString !! name = Some info /\ Unsafe info = true)
         unsafeNames.
Proof.
  unfold unsafeNames.
  repeat (apply Forall_cons; split; [eexists; split; [vm_compute; reflexivity | reflexivity] |]).
  apply Forall_nil. done.
Qed.

(** C1. The callable set built without the unsafe functions holds only
    entries of the registry whose [Unsafe] flag is false: a registered name
    whose flag is true is absent from it, and so are, for the built-in
    registry [FnMap], cmd, env, http, rawfile, textfile, userinput and
    writefile, each of which the registry does hold. The callable set built
    with the unsafe functions holds the callable of every registered
    name. *)
Theorem BuildFuncMap_capability_boundary (typeString : callable -> string) :
  (forall (t : templeFnMap) (name : string) (f : callable),
      BuildFuncMap t false !! name = Some f ->
      exists info, t !! name = Some info /\ Unsafe info = false /\ _fn info = f)
  /\ (forall (t : templeFnMap) (name : string) (info : fn),
      t !! name = Some info -> Unsafe info = true ->
      BuildFuncMap t false !! name = None)
  /\ Forall (fun name =>
        is_Some (FnMap typeString !! name)
        /\ BuildFuncMap (FnMap typeString) false !! name = None) unsafeNames
  /\ (forall (t : templeFnMap) (name : string) (info : fn),
      t !! name = Some info ->
      BuildFuncMap t true !! name = Some (_fn info))
  /\ (forall (t : templeFnMap), dom (BuildFuncMap t true) = dom t).
Proof.
  split; [exact BuildFuncMap_safe_only|].
  assert (Hgone : forall (t : templeFnMap) name info,
             t !! name = Some info -> Unsafe info = true ->
             BuildFuncMap t false !! name = None).
  { intros t name info Hinfo Hu.
    rewrite lookup_BuildFuncMap, Hinfo. simpl. by rewrite Hu. }
  split; [exact Hgone|].
  split.
  - eapply Forall_impl; [apply (FnMap_unsafe_flags typeString)|].
    intros name (info & Hinfo & Hu). split; [by exists info|].
    by apply (Hgone _ _ info).
  - split; [exact BuildFuncMap_all|].
    intros t. apply set_eq. intros name.
    rewrite !elem_of_dom, lookup_BuildFuncMap.
    destruct (t !! name) as [info|]; simpl.
    + rewrite orb_true_r. split; intros _; by eexists.
    + split; intros [? ?]; done.
Qed.

(** A run of C1 on the built-in registry: [cmd] is registered and unsafe,
    absent from the safe set, present in the full set. *)
Lemma BuildFuncMap_capability_boundary_witness :
  BuildFuncMap (FnMap (fun _ => "func()")) false !! "cmd" = None
  /\ BuildFuncMap (FnMap (fun _ => "func()")) true !! "cmd" = Some f_cmd.
Proof.
  destruct (BuildFuncMap_capability_boundary (fun _ => "func()"))
    as (_ & Hgone & _ & Hall & _).
  split.
  - apply (Hgone _ "cmd" (mkFn f_cmd "execute a command on local host" "func()" true));
      [vm_compute; reflexivity | reflexivity].
  - apply (Hall _ "cmd" (mkFn f_cmd "execute a command on local host" "func()" true)).
    vm_compute; reflexivity.
Defined.

(** *** [hexenc] and [hexdec] *)

Lemma hex_digits_byte (v : byte) :
  fromHexChar (hexDigit (N.shiftr (Byte.to_N v) 4)) = Some (N.shiftr (Byte.to_N v) 4)
  /\ fromHexChar (hexDigit (N.land (Byte.to_N v) 15)) = Some (N.land (Byte.to_N v) 15)
  /\ byte_of_N (N.lor (N.shiftl (N.shiftr (Byte.to_N v) 4) 4) (N.land (Byte.to_N v) 15)) = v.
Proof. destruct v; vm_compute; auto. Qed.

Lemma hex_Decode_Encode (b : list byte) : hex_Decode (hex_Encode b) = (b, None).
Proof.
  induction b as [|v b IH]; [reflexivity|].
  destruct (hex_digits_byte v) as (Hhi & Hlo & Hv).
  change (hex_Encode (v :: b))
    with (hexDigit (N.shiftr (Byte.to_N v) 4)
            :: hexDigit (N.land (Byte.to_N v) 15) :: hex_Encode b).
  cbn [hex_Decode]. rewrite Hhi, Hlo, IH, Hv. reflexivity.
Qed.

Lemma hex_DecodeString_EncodeToString (b : list byte) :
  hex_DecodeString (hex_EncodeToString b) = (b, None).
Proof.
  unfold hex_DecodeString, hex_EncodeToString.
  rewrite list_byte_of_string_of_list_byte. apply hex_Decode_Encode.
Qed.

Lemma hexenc_is_encoding (v : Value) (h : string) :
  hexenc v = inr h -> exists b, h = hex_EncodeToString b.
Proof.
  destruct v as [s|b|[e|c]|z|b|ty]; simpl; intros Hh; try discriminate;
    injection Hh as <-; eauto.
Qed.

Lemma hexdec_string_empty (s : string) (out : list byte) :
  hexdec (VString s) = inr out -> out = [].
Proof.
  simpl. destruct (hex_DecodeString s) as [b [e|]]; [discriminate|].
  intros [= <-]. reflexivity.
Qed.

(** C9. A call of [hexdec] on a string that does not fail returns the empty
    byte sequence; hence [hexdec] of the string that [hexenc] returns, for
    any argument, is empty, while [hexdec] of the same digits given as a
    byte sequence returns the bytes that were encoded, so the two forms of
    the same data decode differently whenever there is a byte to decode. *)
Theorem hexdec_string_returns_empty :
  (forall (s : string) (out : list byte), hexdec (VString s) = inr out -> out = [])
  /\ (forall (v : Value) (h : string), hexenc v = inr h -> hexdec (VString h) = inr [])
  /\ (forall b : list byte,
        hexenc (VBytes b) = inr (hex_EncodeToString b)
        /\ hexdec (VString (hex_EncodeToString b)) = inr []
        /\ hexdec (VBytes (list_byte_of_string (hex_EncodeToString b))) = inr b)
  /\ (forall (c : byte) (b : list byte),
        hexdec (VString (hex_EncodeToString (c :: b)))
        <> hexdec (VBytes (list_byte_of_string (hex_EncodeToString (c :: b))))).
Proof.
  assert (Hstr : forall b, hexdec (VString (hex_EncodeToString b)) = inr []).
  { intros b. simpl. by rewrite hex_DecodeString_EncodeToString. }
  assert (Hbytes : forall b,
             hexdec (VBytes (list_byte_of_string (hex_EncodeToString b))) = inr b).
  { intros b. simpl. fold (hex_DecodeString (hex_EncodeToString b)).
    rewrite hex_DecodeString_EncodeToString. by rewrite firstn_all. }
  split; [exact hexdec_string_empty|].
  split.
  { intros v h Hh. destruct (hexenc_is_encoding v h Hh) as [b ->]. apply Hstr. }
  split.
  { intros b. split; [reflexivity|]. split; [apply Hstr | apply Hbytes]. }
  intros c b. rewrite Hstr, Hbytes. discriminate.
Qed.

(** A run of C9: the digits of "hi" decode to nothing as a string and to
    the two bytes as a byte sequence. *)
Lemma hexdec_string_returns_empty_witness :
  hexdec (VString "6869") = inr []
  /\ hexdec (VBytes (list_byte_of_string "6869")) = inr (list_byte_of_string "hi").
Proof.
  destruct hexdec_string_returns_empty as (_ & _ & Hb & _).
  destruct (Hb (list_byte_of_string "hi")) as (_ & Hs & Hd).
  split; [exact Hs | exact Hd].
Defined.

(** *** [is_] *)

Lemma substring_whole (s : string) : String.substring 0 (String.length s) s = s.
Proof. induction s as [|c s IH]; simpl; [reflexivity | by rewrite IH]. Qed.

Lemma HasPrefix_bar (x : string) : HasPrefix ("|" +:+ x) "|" = true.
Proof. unfold HasPrefix. simpl. destruct x; reflexivity. Qed.

Lemma TrimPrefix_bar (x : string) : TrimPrefix ("|" +:+ x) "|" = x.
Proof.
  unfold TrimPrefix. rewrite HasPrefix_bar. simpl.
  rewrite Nat.sub_0_r. apply substring_whole.
Qed.

Lemma existsb_eqb_notin (x : string) (l : list string) :
  (forall p, In p l -> x <> p) -> existsb (String.eqb x) l = false.
Proof.
  intros Hne. induction l as [|p l IH]; [reflexivity|].
  simpl. rewrite (proj2 (String.eqb_neq x p)) by (apply Hne; by left).
  apply IH. intros q Hq. apply Hne. by right.
Qed.

(** C10. For a predicate string made of "|" and a remainder that is none of
    the recognised predicate names, [is_ s p] is the equality of [s] with
    the whole of [p], its leading "|" included. *)
Theorem is_unrecognised_predicate {TX : Text} (s x : string) :
  ~ In x isPredicates ->
  is_ s ("|" +:+ x) = String.eqb s ("|" +:+ x)
  /\ (is_ s ("|" +:+ x) = true <-> s = "|" +:+ x).
Proof.
  intros Hx.
  assert (Heq : is_ s ("|" +:+ x) = String.eqb s ("|" +:+ x)).
  { unfold is_. rewrite TrimPrefix_bar.
    rewrite HasPrefix_bar.
    rewrite !existsb_eqb_notin; [reflexivity|..];
      intros p Hp ->; apply Hx; unfold isPredicates; simpl in *; tauto. }
  split; [exact Heq|]. rewrite Heq. apply String.eqb_eq.
Qed.

(** A run of C10: "|x" is not a predicate, so it is compared as it is. *)
Lemma is_unrecognised_predicate_witness :
  is_ (TX := asciiText) "|x" "|x" = true /\ is_ (TX := asciiText) "x" "|x" = false.
Proof.
  assert (Hx : ~ In "x" isPredicates).
  { unfold isPredicates. simpl. intros Hin.
    repeat (destruct Hin as [Hin|Hin]; [discriminate Hin|]). exact Hin. }
  split.
  - exact (proj1 (is_unrecognised_predicate (TX := asciiText) "|x" "x" Hx)).
  - exact (proj1 (is_unrecognised_predicate (TX := asciiText) "x" "x" Hx)).
Defined.

(** *** [encrypt] and [decrypt] *)

Lemma Random_length (rnd : nat -> byte) (size : nat) : length (Random rnd size) = size.
Proof.
  unfold Random. rewrite length_take, length_map, length_seq. lia.
Qed.

Lemma aes_NewCipher_valid (key : list byte) :
  validKeyLen (length key) = true -> aes_NewCipher key = inr key.
Proof. intros Hk. unfold aes_NewCipher. by rewrite Hk. Qed.

Section Crypto.
Context {aead : AEAD}.
Variables (K A : string) (key : list byte).
Hypothesis HK : base64_DecodeString K = inr key.
Hypothesis Hlen : validKeyLen (length key) = true.

Lemma encrypt_output (rnd : nat -> byte) (P : Value) (ptxt : list byte) :
  P = VBytes ptxt \/ (exists s, P = VString s /\ ptxt = list_byte_of_string s) ->
  encrypt rnd P K A
  = inr (Seal key (Random rnd NonceSize) ptxt (list_byte_of_string A)
         ++ Random rnd NonceSize).
Proof.
  intros [-> | (s & -> & ->)]; unfold encrypt; simpl;
    rewrite HK; simpl; rewrite (aes_NewCipher_valid _ Hlen); reflexivity.
Qed.

Lemma decrypt_bytes_split (ctxt nonce : list byte) :
  length nonce = NonceSize ->
  decrypt (VBytes (ctxt ++ nonce)) K A
  = match Open key nonce ctxt (list_byte_of_string A) with
    | None => inl (ErrExternal "cipher: message authentication failed")
    | Some out => inr out
    end.
Proof.
  intros Hn. unfold decrypt. simpl. rewrite HK. simpl.
  rewrite (aes_NewCipher_valid _ Hlen). simpl.
  rewrite length_app, Hn.
  destruct (Nat.ltb_spec (length ctxt + NonceSize) NonceSize) as [Hlt|_]; [lia|].
  replace (length ctxt + NonceSize - NonceSize) with (length ctxt) by lia.
  by rewrite drop_app_length, take_app_length.
Qed.

Lemma decrypt_short (v : Value) (ctxt : list byte) :
  v = VBytes ctxt \/ (exists s, v = VString s /\ b64dec (VString s) = inr ctxt) ->
  length ctxt < NonceSize ->
  decrypt v K A = inl ErrUnexpectedEOF.
Proof.
  intros Hv Hshort.
  assert (Hrest : (key ← base64_DecodeString K;
                   cb ← aes_NewCipher key;
                   if (length ctxt <? NonceSize)%nat then inl ErrUnexpectedEOF
                   else match Open cb (skipn (length ctxt - NonceSize) ctxt)
                                   (firstn (length ctxt - NonceSize) ctxt)
                                   (list_byte_of_string A) with
                        | None => inl (ErrExternal "cipher: message authentication failed")
                        | Some out => inr out
                        end)
                  = (inl ErrUnexpectedEOF : result (list byte))).
  { rewrite HK. simpl. rewrite (aes_NewCipher_valid _ Hlen). simpl.
    destruct (Nat.ltb_spec (length ctxt) NonceSize) as [_|Hge]; [reflexivity | lia]. }
  destruct Hv as [-> | (s & -> & Hs)]; unfold decrypt.
  - exact Hrest.
  - rewrite Hs. exact Hrest.
Qed.

Lemma decrypt_string_not_base64 (s : string) (e : error) :
  b64dec (VString s) = inl e -> decrypt (VString s) K A = inl e.
Proof. intros Hs. unfold decrypt. rewrite Hs. reflexivity. Qed.
End Crypto.

(** C4 as the code has it. For a key [K] that base64-decodes to a key of an
    AES length and any associated data [A]: [encrypt] of a plaintext given
    as a byte sequence or as a string returns the sealed text followed by
    the nonce (the nonce size many fresh random bytes, appended), and
    [decrypt] of that output returns the plaintext bytes. [decrypt] fails
    with [io.ErrUnexpectedEOF] whenever the ciphertext bytes it works on are
    fewer than the nonce size, these bytes being a byte-sequence argument as
    given and a string argument after base64 decoding; a string argument
    that is not valid base64 fails with the decoder's error. *)
Theorem encrypt_decrypt_roundtrip {aead : AEAD} (K A : string) (key : list byte)
    (HK : base64_DecodeString K = inr key)
    (Hlen : validKeyLen (length key) = true) :
  (forall (rnd : nat -> byte) (P : Value) (ptxt : list byte),
      P = VBytes ptxt \/ (exists s, P = VString s /\ ptxt = list_byte_of_string s) ->
      exists ctxt nonce,
        encrypt rnd P K A = inr (ctxt ++ nonce)
        /\ nonce = Random rnd NonceSize /\ length nonce = NonceSize
        /\ ctxt = Seal key nonce ptxt (list_byte_of_string A)
        /\ decrypt (VBytes (ctxt ++ nonce)) K A = inr ptxt)
  /\ (forall (v : Value) (ctxt : list byte),
      v = VBytes ctxt \/ (exists s, v = VString s /\ b64dec (VString s) = inr ctxt) ->
      length ctxt < NonceSize ->
      decrypt v K A = inl ErrUnexpectedEOF)
  /\ (forall (s : string) (e : error),
      b64dec (VString s) = inl e -> decrypt (VString s) K A = inl e).
Proof.
  split; [|split].
  - intros rnd P ptxt HP.
    exists (Seal key (Random rnd NonceSize) ptxt (list_byte_of_string A)),
           (Random rnd NonceSize).
    split; [by apply (encrypt_output K A key HK Hlen)|].
    split; [reflexivity|]. split; [apply Random_length|]. split; [reflexivity|].
    rewrite (decrypt_bytes_split K A key HK Hlen) by apply Random_length.
    rewrite Open_Seal; [reflexivity | exact Hlen | apply Random_length].
  - intros v ctxt. apply (decrypt_short K A key HK Hlen).
  - intros s e. apply decrypt_string_not_base64.
Qed.

(** A key of sixteen zero bytes, in base64. *)
Lemma zeroKey_valid :
  base64_DecodeString "AAAAAAAAAAAAAAAAAAAAAA==" = inr (repeat "000"%byte 16)
  /\ validKeyLen (length (repeat "000"%byte 16)) = true.
Proof. split; vm_compute; reflexivity. Qed.

(** A run of C4 with the tag-only AEAD and the key of sixteen zero bytes. *)
Lemma encrypt_decrypt_roundtrip_witness :
  (exists ctxt nonce,
      encrypt (aead := tagOnly) countingRnd (VString "secret") "AAAAAAAAAAAAAAAAAAAAAA==" "aad"
      = inr (ctxt ++ nonce)
      /\ length nonce = NonceSize
      /\ decrypt (aead := tagOnly) (VBytes (ctxt ++ nonce)) "AAAAAAAAAAAAAAAAAAAAAA==" "aad"
         = inr (list_byte_of_string "secret"))
  /\ decrypt (aead := tagOnly) (VBytes (list_byte_of_string "short")) "AAAAAAAAAAAAAAAAAAAAAA==" "aad"
     = inl ErrUnexpectedEOF.
Proof.
  destruct (encrypt_decrypt_roundtrip (aead := tagOnly) "AAAAAAAAAAAAAAAAAAAAAA==" "aad"
              (repeat "000"%byte 16) (proj1 zeroKey_valid) (proj2 zeroKey_valid))
    as (Hround & Hshort & _).
  split.
  - destruct (Hround countingRnd (VString "secret") (list_byte_of_string "secret"))
      as (ctxt & nonce & Henc & _ & Hn & _ & Hdec).
    + right. exists "secret". split; reflexivity.
    + exists ctxt, nonce. split; [exact Henc|]. split; [exact Hn | exact Hdec].
  - apply (Hshort _ (list_byte_of_string "short")).
    + left. reflexivity.
    + vm_compute. lia.
Defined.

(** C4 as stated fails on a string argument: "!" is shorter than the nonce
    size and [decrypt] fails on it with the base64 decoder's error, not with
    [io.ErrUnexpectedEOF]. *)
Lemma decrypt_short_string_not_EOF :
  String.length "!" < NonceSize
  /\ decrypt (aead := tagOnly) (VString "!") "AAAAAAAAAAAAAAAAAAAAAA==" ""
     = inl (ErrBase64Corrupt 0)
  /\ ErrBase64Corrupt 0 <> ErrUnexpectedEOF.
Proof.
  split; [vm_compute; lia|]. split; [vm_compute; reflexivity | discriminate].
Qed.

(** *** [fload] *)

Lemma append_empty_r (s : string) : s +:+ "" = s.
Proof.
  induction s as [|c s IH]; [reflexivity|].
  change (String c (s +:+ "") = String c s). by rewrite IH.
Qed.

Lemma append_assoc (a b c : string) : (a +:+ b) +:+ c = a +:+ (b +:+ c).
Proof.
  induction a as [|x a IH]; [reflexivity|].
  change (String x ((a +:+ b) +:+ c) = String x (a +:+ (b +:+ c))). by rewrite IH.
Qed.

Lemma concat_empty_cons (x : string) (l : list string) :
  String.concat "" (x :: l) = x +:+ String.concat "" l.
Proof.
  destruct l as [|y l]; [|reflexivity].
  change (x = x +:+ ""). symmetry. apply append_empty_r.
Qed.

(** The loop keeps exactly the lines that do not begin with "#!", wherever
    they stand. *)
Lemma fload_loop_filter (lines : list string) (buf : string) :
  fload_loop lines buf 0
  = buf +:+ String.concat ""
      (map (fun t => t +:+ LF) (filter (fun t => HasPrefix t "#!" = false) lines)).
Proof.
  revert buf. induction lines as [|t lines IH]; intros buf.
  - simpl. by rewrite append_empty_r.
  - cbn [fload_loop]. change ((0 =? 0)%nat) with true. cbn [andb].
    destruct (HasPrefix t "#!") eqn:Hp.
    + rewrite IH. rewrite filter_cons_False by (rewrite Hp; discriminate). reflexivity.
    + rewrite IH. rewrite filter_cons_True by exact Hp.
      cbn [map]. rewrite concat_empty_cons. fold LF.
      by rewrite !append_assoc.
Qed.

(** C5 on the code: in a file whose second line begins with "#!", [fload]
    drops that line although it is not the leading one; the body the
    specification describes keeps it. Both revisions of [fload] do so. *)
Theorem fload_drops_inner_shebang_line :
  fload oneFile "/srv/t.tpl" = ("first" +:+ LF +:+ "third" +:+ LF, None)
  /\ Older.fload oneFile "/srv/t.tpl" = ("firstthird", None)
  /\ fload oneFile "/srv/t.tpl"
     <> ("first" +:+ LF +:+ "#!second" +:+ LF +:+ "third" +:+ LF, None).
Proof.
  split; [vm_compute; reflexivity|]. split; [vm_compute; reflexivity|].
  vm_compute. discriminate.
Qed.

(** *** [BuildTemplate] *)

Lemma bind_inr {A B : Type} (f : A -> result B) (r : result A) (b : B) :
  r ≫= f = inr b -> exists a, r = inr a /\ f a = inr b.
Proof. destruct r as [e|a]; [discriminate|]. intros Hb. by exists a. Qed.

Lemma bind_inl {A B : Type} (f : A -> result B) (r : result A) (e : error) :
  r ≫= f = inl e -> r = inl e \/ exists a, r = inr a /\ f a = inl e.
Proof.
  destruct r as [e'|a].
  - intros [= ->]. by left.
  - intros Hb. right. by exists a.
Qed.

Lemma scanLines_error (rerr : option string) (data cur : string)
    (ls : list string) (e : error) :
  scanLines (ErrExternal <$> rerr) data cur = (ls, Some e) -> e <> ErrNoTemplates.
Proof.
  revert cur ls. induction data as [|c data IH]; intros cur ls; cbn [scanLines].
  - destruct (tooLong cur); [intros [= _ <-]; discriminate|].
    destruct rerr; simpl; intros [= _ <-]; discriminate.
  - destruct (Ascii.eqb c "010").
    + destruct (tooLong cur); [intros [= _ <-]; discriminate|].
      destruct (scanLines (ErrExternal <$> rerr) data "") as [ls' e'] eqn:Hs.
      intros [= _ ->]. by apply (IH "" ls').
    + apply IH.
Qed.

Lemma fload_error (fs : FS) (p text : string) (e : error) :
  fload fs p = (text, Some e) -> e <> ErrNoTemplates.
Proof.
  unfold fload. destruct (fs p) as [msg|[content rerr]].
  - intros [= _ <-]. discriminate.
  - destruct (scanLines (ErrExternal <$> rerr) content "") as [ls e'] eqn:Hs.
    intros [= _ ->]. by apply (scanLines_error rerr content "" ls).
Qed.

Section AssemblyFacts.
Context {data : Type} {E : Engine data} {MO : MapOrder}.

Lemma Parse_inr (tpl tpl' : Template data) (text : string) :
  Parse tpl text = inr tpl' ->
  tname tpl' = tname tpl /\ tfuncs tpl' = tfuncs tpl.
Proof.
  unfold Parse. destruct (parse _ _ _ _); [discriminate|].
  intros [= <-]. by split.
Qed.

Lemma Parse_error (tpl : Template data) (text : string) (e : error) :
  Parse tpl text = inl e -> e <> ErrNoTemplates.
Proof.
  unfold Parse. destruct (parse _ _ _ _); [|discriminate].
  intros [= <-]. discriminate.
Qed.

Lemma Parse_parsesAlways (tpl : Template data) (text : string) :
  parsesAlways (tfuncs tpl) (tname tpl) text ->
  exists tpl', Parse tpl text = inr tpl'.
Proof.
  intros Hp. unfold Parse. destruct (Hp (tmpl tpl)) as [set' ->]. eauto.
Qed.

Lemma loadLocal_inr (fs : FS) (localFiles : list string)
    (tpl tpl' : Template data) (all all' : list string) :
  loadLocal fs localFiles (tpl, all) = inr (tpl', all') ->
  all' = all ++ map path_Base localFiles
  /\ tname tpl' = default (tname tpl) (last (map path_Base localFiles))
  /\ tfuncs tpl' = tfuncs tpl.
Proof.
  revert tpl all. induction localFiles as [|lft rest IH]; intros tpl all; cbn [loadLocal].
  - intros [= <- <-]. by rewrite app_nil_r.
  - destruct (fload fs lft) as [text [err|]]; [discriminate|].
    intros Hb. apply bind_inr in Hb as (tpl1 & HP & Hrest).
    apply Parse_inr in HP as [Hn Hf]. simpl in Hn, Hf.
    apply IH in Hrest as (-> & Hlast & Hfuncs).
    split; [by rewrite <- app_assoc|]. split; [|congruence].
    rewrite Hlast, Hn. cbn [map]. rewrite last_cons. by destruct (last _).
Qed.

Lemma loadNamed_inr (entries : list (string * string))
    (tpl tpl' : Template data) (all all' : list string) :
  loadNamed entries (tpl, all) = inr (tpl', all') ->
  all' = all ++ map (fun e => path_Base e.1) entries
  /\ tname tpl' = default (tname tpl) (last (map (fun e => path_Base e.1) entries))
  /\ tfuncs tpl' = tfuncs tpl.
Proof.
  revert tpl all. induction entries as [|[fname text] rest IH]; intros tpl all;
    cbn [loadNamed].
  - intros [= <- <-]. by rewrite app_nil_r.
  - intros Hb. apply bind_inr in Hb as (tpl1 & HP & Hrest).
    apply Parse_inr in HP as [Hn Hf]. simpl in Hn, Hf.
    apply IH in Hrest as (-> & Hlast & Hfuncs).
    split; [by rewrite <- app_assoc|]. split; [|congruence].
    rewrite Hlast, Hn. cbn [map]. rewrite last_cons. by destruct (last _).
Qed.

Lemma loadLocal_error (fs : FS) (localFiles : list string)
    (st : Template data * list string) (e : error) :
  loadLocal fs localFiles st = inl e -> e <> ErrNoTemplates.
Proof.
  revert st. induction localFiles as [|lft rest IH]; intros [tpl all]; cbn [loadLocal].
  - discriminate.
  - destruct (fload fs lft) as [text [err|]] eqn:Hf.
    + intros [= <-]. by apply (fload_error fs lft text).
    + intros Hb. apply bind_inl in Hb as [HP | (tpl1 & _ & Hrest)].
      * by apply (Parse_error _ _ _ HP).
      * by apply (IH _ Hrest).
Qed.

Lemma loadNamed_error (entries : list (string * string))
    (st : Template data * list string) (e : error) :
  loadNamed entries st = inl e -> e <> ErrNoTemplates.
Proof.
  revert st. induction entries as [|[fname text] rest IH]; intros [tpl all];
    cbn [loadNamed].
  - discriminate.
  - intros Hb. apply bind_inl in Hb as [HP | (tpl1 & _ & Hrest)].
    + by apply (Parse_error _ _ _ HP).
    + by apply (IH _ Hrest).
Qed.

Lemma loadLocal_parses (fs : FS) (fm : FuncMap) (localFiles : list string) :
  Forall (fun p => exists text, fload fs p = (text, None)
                                /\ parsesAlways fm (path_Base p) text) localFiles ->
  forall st : Template data * list string, tfuncs st.1 = fm ->
  exists st', loadLocal fs localFiles st = inr st' /\ tfuncs st'.1 = fm.
Proof.
  induction 1 as [|lft rest (text & Hf & Hp) _ IH]; intros [tpl all] Hfm; cbn [loadLocal].
  - by exists (tpl, all).
  - rewrite Hf. simpl in Hfm.
    destruct (Parse_parsesAlways (New tpl (path_Base lft)) text) as [tpl1 HP].
    { simpl. by rewrite Hfm. }
    rewrite HP. simpl. apply IH. simpl.
    apply Parse_inr in HP as [_ ->]. exact Hfm.
Qed.

Lemma loadNamed_parses (fm : FuncMap) (entries : list (string * string)) :
  Forall (fun e => parsesAlways fm (path_Base e.1) e.2) entries ->
  forall st : Template data * list string, tfuncs st.1 = fm ->
  exists st', loadNamed entries st = inr st' /\ tfuncs st'.1 = fm.
Proof.
  induction 1 as [|[fname text] rest Hp _ IH]; intros [tpl all] Hfm; cbn [loadNamed].
  - by exists (tpl, all).
  - simpl in Hfm, Hp.
    destruct (Parse_parsesAlways (New tpl (path_Base fname)) text) as [tpl1 HP].
    { simpl. by rewrite Hfm. }
    rewrite HP. simpl. apply IH. simpl.
    apply Parse_inr in HP as [_ ->]. exact Hfm.
Qed.

Lemma mapRange_nil {V : Type} (m : gmap string V) : mapRange m = [] <-> m = ∅.
Proof.
  split.
  - intros Hnil. apply map_to_list_empty_iff.
    apply Permutation_nil_r. rewrite <- Hnil. symmetry. apply mapRange_perm.
  - intros ->. apply Permutation_nil_r.
    rewrite (mapRange_perm V ∅), map_to_list_empty. done.
Qed.

Lemma BuildTemplate_steps (fs : FS) (t : templeFnMap) (_unsafe : bool)
    (name _template : string) (loadedFiles : gmap string string)
    (localFiles : list string) :
  BuildTemplate fs t _unsafe name _template loadedFiles localFiles
  = (st ← inlineStep t _unsafe name _template;
     st ← loadLocal fs localFiles st;
     st ← loadNamed (mapRange loadedFiles) st;
     if (length st.2 <? 1)%nat then inl ErrNoTemplates else inr st).
Proof. reflexivity. Qed.

Lemma inlineStep_inr (t : templeFnMap) (_unsafe : bool) (name _template : string)
    (tpl : Template data) (all : list string) :
  inlineStep t _unsafe name _template = inr (tpl, all) ->
  all = (if String.eqb _template "" then [] else [path_Base name])
  /\ tname tpl = name
  /\ tfuncs tpl = BuildFuncMap t _unsafe.
Proof.
  unfold inlineStep. destruct (String.eqb _template "").
  - intros [= <- <-]. simpl. split; [done|]. split; [done|]. apply (right_id_L ∅ (∪)).
  - intros Hb. apply bind_inr in Hb as (tpl1 & HP & [= <- <-]).
    apply Parse_inr in HP as [-> ->]. simpl.
    split; [done|]. split; [done|]. apply (right_id_L ∅ (∪)).
Qed.

Lemma inlineStep_error (t : templeFnMap) (_unsafe : bool) (name _template : string)
    (e : error) :
  inlineStep t _unsafe name _template = inl e -> e <> ErrNoTemplates.
Proof.
  unfold inlineStep. destruct (String.eqb _template ""); [discriminate|].
  intros Hb. apply bind_inl in Hb as [HP | (tpl1 & _ & Hb)]; [|discriminate].
  by apply (Parse_error _ _ _ HP).
Qed.

(** What a successful [BuildTemplate] returns: the names in the order of
    registration, and a handle whose name is that of the template
    registered last (the inline one only if nothing else was). *)
Lemma BuildTemplate_inr (fs : FS) (t : templeFnMap) (_unsafe : bool)
    (name _template : string) (loadedFiles : gmap string string)
    (localFiles : list string) (tpl : Template data) (names : list string) :
  BuildTemplate fs t _unsafe name _template loadedFiles localFiles = inr (tpl, names) ->
  names <> []
  /\ names = (if String.eqb _template "" then [] else [path_Base name])
             ++ map path_Base localFiles
             ++ map (fun e => path_Base e.1) (mapRange loadedFiles)
  /\ tname tpl = default name
       (last (map path_Base localFiles
              ++ map (fun e => path_Base e.1) (mapRange loadedFiles))).
Proof.
  rewrite BuildTemplate_steps. intros Hb.
  apply bind_inr in Hb as ([tpl0 all0] & H0 & Hb).
  apply bind_inr in Hb as ([tpl1 all1] & H1 & Hb).
  apply bind_inr in Hb as ([tpl2 all2] & H2 & Hb).
  simpl in Hb. destruct all2 as [|n all2]; [discriminate|].
  injection Hb as <- <-.
  apply inlineStep_inr in H0 as (-> & Hn0 & _).
  apply loadLocal_inr in H1 as (-> & Hn1 & _).
  apply loadNamed_inr in H2 as (Hall & Hn2 & _).
  split; [done|]. split; [by rewrite Hall, <- app_assoc|].
  rewrite Hn2, Hn1, Hn0, last_app.
  by destruct (last (map (fun e => path_Base e.1) (mapRange loadedFiles))).
Qed.
End AssemblyFacts.

Section AssemblyResults.
Context {data : Type} {E : Engine data} {MO : MapOrder}.
Variables (fs : FS) (t : templeFnMap) (_unsafe : bool) (name _template : string).
Variables (loadedFiles : gmap string string) (localFiles : list string).

Lemma BuildTemplate_none_supplied :
  _template = "" -> loadedFiles = ∅ -> localFiles = [] ->
  BuildTemplate fs t _unsafe name _template loadedFiles localFiles = inl ErrNoTemplates.
Proof.
  intros -> -> ->. rewrite BuildTemplate_steps. unfold inlineStep. simpl.
  by rewrite (proj2 (mapRange_nil (∅ : gmap string string)) eq_refl).
Qed.

Lemma BuildTemplate_no_templates_inv :
  BuildTemplate fs t _unsafe name _template loadedFiles localFiles = inl ErrNoTemplates ->
  _template = "" /\ loadedFiles = ∅ /\ localFiles = [].
Proof.
  rewrite BuildTemplate_steps. intros Hb.
  apply bind_inl in Hb as [H0 | ([tpl0 all0] & H0 & Hb)].
  { by destruct (inlineStep_error _ _ _ _ _ H0). }
  apply bind_inl in Hb as [H1 | ([tpl1 all1] & H1 & Hb)].
  { by destruct (loadLocal_error _ _ _ _ H1). }
  apply bind_inl in Hb as [H2 | ([tpl2 all2] & H2 & Hb)].
  { by destruct (loadNamed_error _ _ _ H2). }
  simpl in Hb. destruct all2 as [|n all2]; [|discriminate].
  apply inlineStep_inr in H0 as (-> & _ & _).
  apply loadLocal_inr in H1 as (-> & _ & _).
  apply loadNamed_inr in H2 as (Hall & _ & _).
  symmetry in Hall. apply app_eq_nil in Hall as [Hall Hnamed].
  apply app_eq_nil in Hall as [Hinline Hlocal].
  split; [|split].
  - destruct (String.eqb_spec _template ""); [done | discriminate].
  - apply mapRange_nil. by apply map_eq_nil in Hnamed.
  - by apply map_eq_nil in Hlocal.
Qed.

Lemma BuildTemplate_sources_parse :
  _template <> "" \/ loadedFiles <> ∅ \/ localFiles <> [] ->
  (_template <> "" -> parsesAlways (BuildFuncMap t _unsafe) name _template) ->
  Forall (fun p => exists text, fload fs p = (text, None)
                   /\ parsesAlways (BuildFuncMap t _unsafe) (path_Base p) text)
         localFiles ->
  (forall k v, loadedFiles !! k = Some v ->
               parsesAlways (BuildFuncMap t _unsafe) (path_Base k) v) ->
  exists tpl names,
    BuildTemplate fs t _unsafe name _template loadedFiles localFiles = inr (tpl, names).
Proof.
  intros Hsome Hinline Hlocal Hnamed.
  assert (H0 : exists st0, inlineStep t _unsafe name _template = inr st0
                           /\ tfuncs st0.1 = BuildFuncMap t _unsafe).
  { unfold inlineStep. destruct (String.eqb_spec _template "") as [->|Hne].
    - eexists. split; [reflexivity|]. simpl. apply (right_id_L ∅ (∪)).
    - destruct (Parse_parsesAlways
                  (Funcs (template_New name) (BuildFuncMap t _unsafe)) _template)
        as [tpl' HP].
      { simpl. rewrite (right_id_L ∅ (∪)). by apply Hinline. }
      rewrite HP. eexists. split; [reflexivity|]. simpl.
      apply Parse_inr in HP as [_ ->]. simpl. apply (right_id_L ∅ (∪)). }
  destruct H0 as ([tpl0 all0] & H0 & Hf0).
  destruct (loadLocal_parses fs _ localFiles Hlocal (tpl0, all0) Hf0)
    as ([tpl1 all1] & H1 & Hf1).
  assert (Hentries : Forall (fun e => parsesAlways (BuildFuncMap t _unsafe)
                                        (path_Base e.1) e.2) (mapRange loadedFiles)).
  { apply Forall_forall. intros [k v] Hin. simpl. apply Hnamed.
    apply elem_of_map_to_list. by rewrite <- (mapRange_perm _ loadedFiles). }
  destruct (loadNamed_parses _ (mapRange loadedFiles) Hentries (tpl1, all1) Hf1)
    as ([tpl2 all2] & H2 & _).
  rewrite BuildTemplate_steps, H0. simpl. rewrite H1. simpl. rewrite H2. simpl.
  destruct all2 as [|n all2]; [|by eauto].
  exfalso.
  apply inlineStep_inr in H0 as (-> & _ & _).
  apply loadLocal_inr in H1 as (-> & _ & _).
  apply loadNamed_inr in H2 as (Hall & _ & _).
  symmetry in Hall. apply app_eq_nil in Hall as [Hall Hn].
  apply app_eq_nil in Hall as [Hi Hl].
  destruct Hsome as [Hs | [Hs | Hs]]; apply Hs.
  - destruct (String.eqb_spec _template ""); [done | discriminate].
  - apply mapRange_nil. by apply map_eq_nil in Hn.
  - by apply map_eq_nil in Hl.
Qed.

(** C8. [BuildTemplate] fails with the error "no templates found" exactly
    when the inline body is empty and there is no named fragment and no
    local file. A successful call returns a non-empty list of names: the
    base name of the inline template if there is one, then those of the
    local files in their order, then those of the fragments in the order
    the map is ranged over. And when a source is supplied, every local file
    loads, and every source parses, the call succeeds. *)
Theorem BuildTemplate_no_templates_iff :
  (BuildTemplate fs t _unsafe name _template loadedFiles localFiles = inl ErrNoTemplates
   <-> _template = "" /\ loadedFiles = ∅ /\ localFiles = [])
  /\ Error (TX := asciiText) ErrNoTemplates = "no templates found"
  /\ (forall tpl names,
        BuildTemplate fs t _unsafe name _template loadedFiles localFiles = inr (tpl, names) ->
        names <> []
        /\ names = (if String.eqb _template "" then [] else [path_Base name])
                   ++ map path_Base localFiles
                   ++ map (fun e => path_Base e.1) (mapRange loadedFiles))
  /\ (_template <> "" \/ loadedFiles <> ∅ \/ localFiles <> [] ->
      (_template <> "" -> parsesAlways (BuildFuncMap t _unsafe) name _template) ->
      Forall (fun p => exists text, fload fs p = (text, None)
                       /\ parsesAlways (BuildFuncMap t _unsafe) (path_Base p) text)
             localFiles ->
      (forall k v, loadedFiles !! k = Some v ->
                   parsesAlways (BuildFuncMap t _unsafe) (path_Base k) v) ->
      exists tpl names,
        BuildTemplate fs t _unsafe name _template loadedFiles localFiles = inr (tpl, names)
        /\ names <> []).
Proof.
  split.
  { split; [apply BuildTemplate_no_templates_inv|].
    intros (H1 & H2 & H3). by apply BuildTemplate_none_supplied. }
  split; [reflexivity|].
  split.
  { intros tpl names Hb. apply BuildTemplate_inr in Hb as (Hne & Hnames & _). done. }
  intros Hsome Hinline Hlocal Hnamed.
  destruct (BuildTemplate_sources_parse Hsome Hinline Hlocal Hnamed) as (tpl & names & Hb).
  exists tpl, names. split; [exact Hb|].
  by apply BuildTemplate_inr in Hb as (Hne & _).
Qed.
End AssemblyResults.

(** A run of C8 on the literal engine: no source at all fails with "no
    templates found"; an inline body alone succeeds with its one name. *)
Lemma BuildTemplate_no_templates_iff_witness :
  BuildTemplate (E := literalEngine Value) noFiles (FnMap (fun _ => "func()")) false
    "post" "" ∅ [] = inl ErrNoTemplates
  /\ exists tpl names,
       BuildTemplate (E := literalEngine Value) noFiles (FnMap (fun _ => "func()")) false
         "post" "hi" ∅ [] = inr (tpl, names) /\ names <> [].
Proof.
  split.
  - apply (proj1 (BuildTemplate_no_templates_iff (E := literalEngine Value) noFiles
                    (FnMap (fun _ => "func()")) false "post" "" ∅ [])).
    done.
  - apply (proj2 (proj2 (proj2 (BuildTemplate_no_templates_iff (E := literalEngine Value)
                    noFiles (FnMap (fun _ => "func()")) false "post" "hi" ∅ [])))).
    + left. discriminate.
    + intros _ set. eexists. reflexivity.
    + constructor.
    + intros k v Hk. by rewrite lookup_empty in Hk.
Defined.

(** *** The template the render path executes *)

(** The inline template heads the list of names [BuildTemplate] returns. *)
Lemma BuildTemplate_inline_first {data : Type} {E : Engine data} {MO : MapOrder}
    (fs : FS) (t : templeFnMap) (_unsafe : bool) (name _template : string)
    (loadedFiles : gmap string string) (localFiles : list string)
    (tpl : Template data) (names : list string) :
  _template <> "" ->
  BuildTemplate fs t _unsafe name _template loadedFiles localFiles = inr (tpl, names) ->
  head names = Some (path_Base name).
Proof.
  intros Hne Hb. apply BuildTemplate_inr in Hb as (_ & -> & _).
  destruct (String.eqb_spec _template ""); [done | reflexivity].
Qed.

(** C2 on the code: with an inline template "INLINE" and one fragment
    "frag.tpl", [BuildTemplate] lists the inline template first but returns
    the handle of the fragment, the template registered last; [Execute] on
    that handle, which is what [RenderServer] calls, writes the fragment,
    and so the response carries "FRAGMENT" where the specification has
    "INLINE". *)
Theorem RenderServer_executes_last_registered :
  (exists tpl,
      BuildTemplate (E := literalEngine Value) noFiles (FnMap (fun _ => "func()")) false
        "post" "INLINE" {["frag.tpl" := "FRAGMENT"]} []
      = inr (tpl, ["post"; "frag.tpl"])
      /\ tname tpl = "frag.tpl"
      /\ Execute tpl (VOther "<nil>") = inr (list_byte_of_string "FRAGMENT")
      /\ ExecuteTemplate tpl "post" (VOther "<nil>") = inr (list_byte_of_string "INLINE"))
  /\ rbody (RenderServer (TX := asciiText) (JS := noJson) (literalEngine Value) pageEngine
              testConfig (FnMap (fun _ => "func()")) fragmentRequest)
     = BBytes (list_byte_of_string "FRAGMENT").
Proof.
  split.
  - eexists. split; [vm_compute; reflexivity|].
    split; [reflexivity|]. split; vm_compute; reflexivity.
  - vm_compute. reflexivity.
Qed.

(** *** The usage tracker *)

Lemma consume_blocked (st : TrackState) : blocked (consume st) = blocked st.
Proof. unfold consume. by destruct (received st). Qed.

Lemma consume_sent (st : TrackState) : sent (consume st) = sent st.
Proof. unfold consume. by destruct (received st). Qed.

Lemma consume_flags (st : TrackState) :
  debugAllFunctions (consume st) = debugAllFunctions st
  /\ startTracingOnce (consume st) = startTracingOnce st.
Proof. unfold consume. by destruct (received st). Qed.

Lemma consume_received (st : TrackState) : received (consume st) = None.
Proof. unfold consume. by destruct (received st) eqn:Hr. Qed.

Lemma consume_logged (st : TrackState) : logged (consume st) = logged st ++ held st.
Proof. unfold consume, held. destruct (received st); simpl; by rewrite ?app_nil_r. Qed.

Lemma consume_Tracking (st : TrackState) :
  Tracking (consume st) = Tracking st - length (held st).
Proof. unfold consume, held. destruct (received st); simpl; lia. Qed.

Lemma receive_sent (st : TrackState) : sent (receive st) = sent st.
Proof. unfold receive. by destruct (received st), (blocked st). Qed.

Lemma receive_flags (st : TrackState) :
  debugAllFunctions (receive st) = debugAllFunctions st
  /\ startTracingOnce (receive st) = startTracingOnce st.
Proof. unfold receive. by destruct (received st), (blocked st). Qed.

Lemma serve_sent (n : nat) (st : TrackState) : sent (serve n st) = sent st.
Proof.
  revert st. induction n as [|n IH]; intros st; simpl; [done|].
  by rewrite IH, receive_sent, consume_sent.
Qed.

Lemma serve_flags (n : nat) (st : TrackState) :
  debugAllFunctions (serve n st) = debugAllFunctions st
  /\ startTracingOnce (serve n st) = startTracingOnce st.
Proof.
  revert st. induction n as [|n IH]; intros st; simpl; [done|].
  destruct (IH (receive (consume st))) as [-> ->].
  destruct (receive_flags (consume st)) as [-> ->]. apply consume_flags.
Qed.

(** The record served last is the one of the caller that blocked last;
    those before it, and the one the consumer held, are logged. *)
Lemma serve_snoc (q : list fnTrack) :
  forall (st : TrackState) (x : fnTrack),
    blocked st = q ++ [x] ->
    serve (length (q ++ [x])) st
    = mkState (debugAllFunctions st) (startTracingOnce st)
              (Tracking st - (length (held st) + length q)) (Some x) []
              (sent st) (logged st ++ held st ++ q).
Proof.
  induction q as [|y q IH]; intros st x Hb.
  - simpl. unfold receive. rewrite consume_received, consume_blocked, Hb.
    destruct (consume_flags st) as [-> ->].
    rewrite consume_Tracking, consume_sent, consume_logged.
    rewrite app_nil_r. f_equal. lia.
  - change (length ((y :: q) ++ [x])) with (S (length (q ++ [x]))).
    cbn [serve].
    assert (Hrecv : receive (consume st)
                    = mkState (debugAllFunctions st) (startTracingOnce st)
                              (Tracking st - length (held st)) (Some y) (q ++ [x])
                              (sent st) (logged st ++ held st)).
    { unfold receive. rewrite consume_received, consume_blocked, Hb.
      destruct (consume_flags st) as [-> ->].
      by rewrite consume_Tracking, consume_sent, consume_logged. }
    rewrite Hrecv.
    match goal with |- serve _ ?st2 = _ => rewrite (IH st2 x) by reflexivity end.
    unfold held at 1 3. cbn.
    f_equal; [lia|]. by rewrite <- !app_assoc.
Qed.

(** After one turn for each blocked caller and one more the consumer has
    logged everything. *)
Lemma serve_all (q : list fnTrack) :
  forall st : TrackState,
    blocked st = q ->
    serve (S (length q)) st
    = mkState (debugAllFunctions st) (startTracingOnce st)
              (Tracking st - (length (held st) + length q)) None []
              (sent st) (logged st ++ held st ++ q).
Proof.
  induction q as [|y q IH]; intros st Hb.
  - simpl. unfold receive. rewrite consume_received, consume_blocked, Hb.
    destruct (consume st) as [f o t r b s l] eqn:Hcs.
    pose proof (consume_flags st) as [Hf Ho]. pose proof (consume_Tracking st) as Ht.
    pose proof (consume_sent st) as Hs. pose proof (consume_logged st) as Hl.
    pose proof (consume_received st) as Hr. pose proof (consume_blocked st) as Hb'.
    rewrite Hcs in *. cbn in *. subst. rewrite Hb, app_nil_r. f_equal. lia.
  - change (length (y :: q)) with (S (length q)). cbn [serve].
    assert (Hrecv : receive (consume st)
                    = mkState (debugAllFunctions st) (startTracingOnce st)
                              (Tracking st - length (held st)) (Some y) q
                              (sent st) (logged st ++ held st)).
    { unfold receive. rewrite consume_received, consume_blocked, Hb.
      destruct (consume_flags st) as [-> ->].
      by rewrite consume_Tracking, consume_sent, consume_logged. }
    change (serve (length q) (receive (consume (receive (consume st)))))
      with (serve (S (length q)) (receive (consume st))).
    rewrite Hrecv.
    match goal with |- serve _ ?st2 = _ => rewrite (IH st2) by reflexivity end.
    unfold held at 1 3. cbn.
    f_equal; [lia|]. by rewrite <- !app_assoc.
Qed.

Lemma reachable_consume (st : TrackState) : reachable st -> reachable (consume st).
Proof.
  intros Hreach. destruct (received st) as [x|] eqn:Hr.
  - by apply (reach_step st _ Hreach), (step_done st x).
  - unfold consume. by rewrite Hr.
Qed.

Lemma reachable_receive (st : TrackState) :
  reachable st -> startTracingOnce st = true -> reachable (receive st).
Proof.
  intros Hreach Hon. unfold receive.
  destruct (received st) as [y|] eqn:Hr; [done|].
  destruct (blocked st) as [|x q] eqn:Hb; [done|].
  apply (reach_step st _ Hreach). by apply (step_receive st x [] q).
Qed.

Lemma reachable_serve (n : nat) (st : TrackState) :
  reachable st -> startTracingOnce st = true -> reachable (serve n st).
Proof.
  revert st. induction n as [|n IH]; intros st Hreach Hon; [done|].
  cbn [serve]. apply IH.
  - apply reachable_receive; [by apply reachable_consume|].
    by rewrite (proj2 (consume_flags st)).
  - by rewrite (proj2 (receive_flags _)), (proj2 (consume_flags st)).
Qed.

(** What every step keeps: the counter counts the records issued and not
    yet logged, no record is lost or made up, and the flag is on only when
    the consumer exists. *)
Lemma reachable_inv (st : TrackState) :
  reachable st ->
  Tracking st = length (held st) + length (blocked st)
  /\ sent st ≡ₚ logged st ++ held st ++ blocked st
  /\ (debugAllFunctions st = true -> startTracingOnce st = true).
Proof.
  induction 1 as [|st st' _ (Hc & Hp & Hf) Hstep]; [done|].
  destruct Hstep as [st|st|st x a Ha|st x q1 q2 Hon Hr Hb|st x Hr].
  - done.
  - done.
  - unfold issue, held in *. cbn. split; [|split; [|exact Hf]].
    + rewrite length_app. simpl. lia.
    + rewrite Hp. by rewrite !app_assoc.
  - unfold held in *. cbn. rewrite Hr, Hb in *. cbn in *. split; [|split; [|exact Hf]].
    + rewrite Hc, !length_app. simpl. lia.
    + rewrite Hp. f_equiv. symmetry. apply Permutation_middle.
  - unfold consume, held in *. rewrite Hr in *. cbn in *. split; [|split; [|exact Hf]].
    + lia.
    + rewrite Hp. by rewrite <- app_assoc.
Qed.

Lemma reachable_issue (st : TrackState) (x : fnTrack) (alwaysTrack : bool) :
  reachable st -> debugAllFunctions st || alwaysTrack = true -> reachable (issue st x).
Proof. intros Hreach Ha. by apply (reach_step st _ Hreach), (step_issue st x alwaysTrack). Qed.

Section Tracker.
Context {TX : Text}.

Lemma trackUsage_sent (st : TrackState) (_fn : string) (alwaysTrack : bool)
    (output : Value) (err : option error) (args : list Value) (now : Z) :
  sent (stateOf (trackUsage st _fn alwaysTrack output err args now))
  = sent st ++ (if debugAllFunctions st || alwaysTrack
                then [mkTrack now _fn args (GoString output) err] else []).
Proof.
  unfold trackUsage. destruct (debugAllFunctions st || alwaysTrack).
  - destruct (startTracingOnce st); simpl; [|reflexivity]. by rewrite serve_sent.
  - simpl. by rewrite app_nil_r.
Qed.

Lemma trackUsage_off (st : TrackState) (_fn : string)
    (output : Value) (err : option error) (args : list Value) (now : Z) :
  debugAllFunctions st = false ->
  trackUsage st _fn false output err args now = Returns st.
Proof. intros Hoff. unfold trackUsage. by rewrite Hoff. Qed.

(** A call of [trackUsage] is a run of steps: the states it leaves are
    states of a run. *)
Lemma trackUsage_reachable (st : TrackState) (_fn : string) (alwaysTrack : bool)
    (output : Value) (err : option error) (args : list Value) (now : Z) :
  reachable st ->
  reachable (stateOf (trackUsage st _fn alwaysTrack output err args now)).
Proof.
  intros Hreach. unfold trackUsage.
  destruct (debugAllFunctions st || alwaysTrack) eqn:Ha; [|done].
  pose proof (reachable_issue st (mkTrack now _fn args (GoString output) err)
                alwaysTrack Hreach Ha) as Hissue.
  destruct (startTracingOnce st) eqn:Hon; [|done].
  simpl. by apply reachable_serve.
Qed.

Lemma trackUsage_on (st : TrackState) (_fn : string) (alwaysTrack : bool)
    (output : Value) (err : option error) (args : list Value) (now : Z) :
  reachable st -> debugAllFunctions st = true ->
  exists st',
    trackUsage st _fn alwaysTrack output err args now = Returns st'
    /\ reachable st'
    /\ sent st' = sent st ++ [mkTrack now _fn args (GoString output) err]
    /\ received st' = Some (mkTrack now _fn args (GoString output) err)
    /\ Tracking st' + length (logged st') = S (Tracking st + length (logged st))
    /\ debugAllFunctions st' = true.
Proof.
  intros Hreach Hon.
  destruct (reachable_inv st Hreach) as (Hc & _ & Hf).
  pose proof (Hf Hon) as Hcons.
  pose proof (trackUsage_reachable st _fn alwaysTrack output err args now Hreach) as Hr'.
  unfold trackUsage in *. rewrite Hon, Hcons in *. cbn [orb stateOf] in *.
  eexists. split; [reflexivity|]. split; [exact Hr'|].
  set (x := mkTrack now _fn args (GoString output) err).
  change (blocked (issue st x)) with (blocked st ++ [x]).
  rewrite (serve_snoc (blocked st) (issue st x) x eq_refl). cbn.
  split; [done|]. split; [done|]. split; [|done].
  change (held (issue st x)) with (held st).
  rewrite !length_app. lia.
Qed.
End Tracker.

Section TrackedHelpers.
Context {TX : Text} {aead : AEAD} {GZ : Gzip} {BD : Bodies}.
Variable rnd : nat -> byte.

Lemma deferTrackUsage_off {A} (st : TrackState) (now : Z) (_fn : string) (out : Value)
    (args : list Value) (r : A) :
  debugAllFunctions st = false ->
  deferTrackUsage st now _fn false out args r = Returns (r, st).
Proof. intros Hoff. unfold deferTrackUsage. by rewrite trackUsage_off. Qed.

Lemma deferTrackUsage_on {A} (st : TrackState) (now : Z) (_fn : string) (out : Value)
    (args : list Value) (r : A) :
  reachable st -> debugAllFunctions st = true ->
  exists st' x,
    deferTrackUsage st now _fn false out args r = Returns (r, st')
    /\ reachable st' /\ debugAllFunctions st' = true
    /\ sent st' = sent st ++ [x] /\ F x = _fn
    /\ Tracking st' + length (logged st') = S (Tracking st + length (logged st)).
Proof.
  intros Hreach Hon. unfold deferTrackUsage.
  destruct (trackUsage_on st _fn false out None args now Hreach Hon)
    as (st' & -> & Hr & Hs & _ & Hc & Hf).
  exists st', (mkTrack now _fn args (GoString out) None). done.
Qed.

(** With tracking stopped a helper that passes [alwaysTrack = false]
    returns its result and leaves the tracker as it was, the call of
    [b64dec] inside [_gunzip] and [decrypt] included. *)
Lemma invoke_off (i : invocation) (st : TrackState) (now later : Z) :
  debugAllFunctions st = false ->
  invoke rnd i st now later = Returns (returns rnd i, st).
Proof.
  intros Hoff. unfold invoke.
  destruct i as [v|v|v|v|v|v|v|v|v|v|v|v|v|v k a|v k a|v w k];
    try (by apply deferTrackUsage_off);
    destruct v; try (by apply deferTrackUsage_off);
    rewrite deferTrackUsage_off by exact Hoff; by apply deferTrackUsage_off.
Qed.

(** With tracking started a helper returns its result after one record
    has been handed over for each tracked helper that ran: its own, and
    before it that of [b64dec] when its body called it. *)
Lemma invoke_on (i : invocation) (st : TrackState) (now later : Z) :
  reachable st -> debugAllFunctions st = true ->
  exists st' recs,
    invoke rnd i st now later = Returns (returns rnd i, st')
    /\ reachable st' /\ debugAllFunctions st' = true
    /\ sent st' = sent st ++ recs
    /\ map F recs = (if callsB64dec i then ["b64dec"; helperName i] else [helperName i])
    /\ Tracking st' + length (logged st')
       = Tracking st + length (logged st) + length recs.
Proof.
  intros Hreach Hon.
  assert (Hleaf : forall (now' : Z),
            callsB64dec i = false ->
            exists st' recs,
              deferTrackUsage st now' (helperName i) false
                (outValue i (returns rnd i)) (helperArgs i) (returns rnd i)
              = Returns (returns rnd i, st')
              /\ reachable st' /\ debugAllFunctions st' = true
              /\ sent st' = sent st ++ recs
              /\ map F recs = (if callsB64dec i then ["b64dec"; helperName i]
                               else [helperName i])
              /\ Tracking st' + length (logged st')
                 = Tracking st + length (logged st) + length recs).
  { intros now' Hno. rewrite Hno.
    destruct (deferTrackUsage_on st now' (helperName i) (outValue i (returns rnd i))
                (helperArgs i) (returns rnd i) Hreach Hon)
      as (st' & x & Hcall & Hr & Hf & Hs & Hn & Hc).
    exists st', [x]. simpl. rewrite Hn. repeat split; try done. lia. }
  assert (Hnested : forall (t : string),
            callsB64dec i = true ->
            exists st' recs,
              match deferTrackUsage st now "b64dec" false
                      (outValue (call_b64dec (VString t))
                         (returns rnd (call_b64dec (VString t))))
                      [VString t] (returns rnd (call_b64dec (VString t))) with
              | Returns (_, st1) =>
                  deferTrackUsage st1 later (helperName i) false
                    (outValue i (returns rnd i)) (helperArgs i) (returns rnd i)
              | Blocks st1 => Blocks st1
              end = Returns (returns rnd i, st')
              /\ reachable st' /\ debugAllFunctions st' = true
              /\ sent st' = sent st ++ recs
              /\ map F recs = (if callsB64dec i then ["b64dec"; helperName i]
                               else [helperName i])
              /\ Tracking st' + length (logged st')
                 = Tracking st + length (logged st) + length recs).
  { intros t Hyes. rewrite Hyes.
    destruct (deferTrackUsage_on st now "b64dec"
                (outValue (call_b64dec (VString t)) (returns rnd (call_b64dec (VString t))))
                [VString t] (returns rnd (call_b64dec (VString t))) Hreach Hon)
      as (st1 & x1 & -> & Hr1 & Hf1 & Hs1 & Hn1 & Hc1).
    destruct (deferTrackUsage_on st1 later (helperName i) (outValue i (returns rnd i))
                (helperArgs i) (returns rnd i) Hr1 Hf1)
      as (st2 & x2 & -> & Hr2 & Hf2 & Hs2 & Hn2 & Hc2).
    exists st2, [x1; x2]. simpl. rewrite Hn1, Hn2, Hs2, Hs1, <- app_assoc.
    repeat split; try done. lia. }
  unfold invoke.
  destruct i as [v|v|v|v|v|v|v|v|v|v|v|v|v|v k a|v k a|v w k];
    try (by apply Hleaf);
    destruct v; try (by apply Hleaf); by apply Hnested.
Qed.

(** C6 as the code has it. [trackUsage] issues the send of a record
    exactly when the tracking flag is true or the call passes
    [alwaysTrack = true], and then of that one record. With tracking
    stopped, a call that passes [alwaysTrack = false] changes nothing and
    returns, and so every helper that passes [alwaysTrack = false] returns
    its result with no record issued. With tracking started, in any state
    of a run (other callers may be blocked), a call of [trackUsage]
    returns after the consumer has received exactly one new record, the
    pending count incremented for it (the count and the number of logged
    records grow by one together); a helper returns its result after one
    record for each tracked helper that ran: one, except two for
    [_gunzip] and [decrypt] on a string, whose body calls [b64dec], the
    record of [b64dec] first. *)
Theorem trackUsage_enqueues_iff (st : TrackState) (_fn : string) (alwaysTrack : bool)
    (output : Value) (err : option error) (args : list Value) (now later : Z) :
  let x := mkTrack now _fn args (GoString output) err in
  sent (stateOf (trackUsage st _fn alwaysTrack output err args now))
  = sent st ++ (if debugAllFunctions st || alwaysTrack then [x] else [])
  /\ (debugAllFunctions st = false ->
      trackUsage st _fn false output err args now = Returns st
      /\ forall i, exists res, invoke rnd i st now later = Returns (res, st))
  /\ (reachable st -> debugAllFunctions st = true ->
      (exists st',
         trackUsage st _fn alwaysTrack output err args now = Returns st'
         /\ reachable st'
         /\ sent st' = sent st ++ [x]
         /\ received st' = Some x
         /\ Tracking st' + length (logged st') = S (Tracking st + length (logged st)))
      /\ forall i, exists res st' recs,
           invoke rnd i st now later = Returns (res, st')
           /\ reachable st'
           /\ sent st' = sent st ++ recs
           /\ map F recs = (if callsB64dec i then ["b64dec"; helperName i]
                            else [helperName i])
           /\ length recs = (if callsB64dec i then 2 else 1)
           /\ Tracking st' + length (logged st')
              = Tracking st + length (logged st) + length recs)
  /\ (forall st0, reachable st0 -> reachable (StartTracking st0)
                  /\ debugAllFunctions (StartTracking st0) = true
                  /\ debugAllFunctions (StopTracking st0) = false).
Proof.
  intros x. split; [apply trackUsage_sent|]. split; [|split].
  - intros Hoff. split; [by apply trackUsage_off|].
    intros i. exists (returns rnd i). by apply invoke_off.
  - intros Hreach Hon. split.
    + destruct (trackUsage_on st _fn alwaysTrack output err args now Hreach Hon)
        as (st' & Ht & Hr' & Hs & Hr & Hc & _).
      by exists st'.
    + intros i.
      destruct (invoke_on i st now later Hreach Hon)
        as (st' & recs & Hcall & Hr' & _ & Hs & Hn & Hc).
      exists (returns rnd i), st', recs. repeat split; try done.
      apply (f_equal length) in Hn. rewrite length_map in Hn.
      rewrite Hn. by destruct (callsB64dec i).
  - intros st0 Hreach. split; [|done].
    by apply (reach_step st0 _ Hreach), step_start.
Qed.
End TrackedHelpers.

(** A run of C6: before [StartTracking] a call of [hexenc] returns with no
    record issued; after it, with one. *)
Lemma trackUsage_enqueues_iff_witness :
  (exists res,
     invoke (TX := asciiText) (aead := tagOnly) (GZ := storeOnly) (BD := noBodies)
       countingRnd (call_hexenc (VString "hi")) initialState 7 8
     = Returns (res, initialState))
  /\ exists res st' recs,
       invoke (TX := asciiText) (aead := tagOnly) (GZ := storeOnly) (BD := noBodies)
         countingRnd (call_hexenc (VString "hi")) (StartTracking initialState) 7 8
       = Returns (res, st')
       /\ sent st' = recs /\ map F recs = ["hexenc"] /\ length recs = 1.
Proof.
  split.
  - exact (proj2 (proj1 (proj2 (trackUsage_enqueues_iff (TX := asciiText) (aead := tagOnly)
             (GZ := storeOnly) (BD := noBodies) countingRnd initialState
             "hexenc" false (VString "6869") None [VString "hi"] 7 8)) eq_refl)
             (call_hexenc (VString "hi"))).
  - destruct (proj2 (proj1 (proj2 (proj2 (trackUsage_enqueues_iff (TX := asciiText)
               (aead := tagOnly) (GZ := storeOnly) (BD := noBodies) countingRnd
               (StartTracking initialState) "hexenc" false (VString "6869") None
               [VString "hi"] 7 8)))
               (reach_step _ _ reach_init (step_start _)) eq_refl)
               (call_hexenc (VString "hi")))
      as (res & st' & recs & Hcall & _ & Hsent & Hnames & Hlen & _).
    exists res, st', recs. split; [exact Hcall|]. split; [exact Hsent|].
    split; [exact Hnames | exact Hlen].
Defined.

(** C6 as stated fails on [decrypt] and [_gunzip] applied to a string:
    with tracking started, one call of [decrypt] on a base64 text hands
    over two records, that of [b64dec] and its own, and the pending count
    and the logged records grow by two. *)
Lemma decrypt_string_enqueues_two :
  match invoke (TX := asciiText) (aead := tagOnly) (GZ := storeOnly) (BD := noBodies)
          countingRnd (call_decrypt (VString "aGk=") "AAAAAAAAAAAAAAAAAAAAAA==" "")
          (StartTracking initialState) 7 8 with
  | Returns (_, st') => (map F (sent st'), Tracking st' + length (logged st'))
  | Blocks _ => ([], 0)
  end = (["b64dec"; "decrypt"], 2)
  /\ match invoke (TX := asciiText) (aead := tagOnly) (GZ := storeOnly) (BD := noBodies)
             countingRnd (call_gunzip (VString "aGk=")) (StartTracking initialState) 7 8 with
     | Returns (_, st') => map F (sent st')
     | Blocks _ => []
     end = ["b64dec"; "gunzip"].
Proof. split; vm_compute; reflexivity. Qed.

(** *** The render service *)

Section ServerFacts.
Context {data : Type} {TX : Text} {MO : MapOrder} {JS : Json data}.
Context (textTpl : Engine data) (htmlTpl : Engine string).
Variables (cfg : Config) (fnMap : templeFnMap) (r : Request).
Hypothesis Hdump : DebugHTTPRequests cfg && isErr (DumpRequest r) = false.
Hypothesis Hpost : Method r = "POST".

Lemma readParts_app (pre rest : list (result Part)) (post : jreq data) :
  readParts (pre ++ rest) post
  = match readParts pre post with
    | inl resp => inl resp
    | inr post' => readParts rest post'
    end.
Proof.
  revert post. induction pre as [|[err|part] pre IH]; intros post; simpl.
  - reflexivity.
  - reflexivity.
  - destruct (readPart part post) as [resp|post']; [reflexivity | apply IH].
Qed.

Lemma RenderServer_parse_error (resp : Response) :
  parseRequest r = inl resp ->
  RenderServer textTpl htmlTpl cfg fnMap r = resp.
Proof.
  intros Hparse. unfold RenderServer. rewrite Hdump, Hpost. simpl.
  by rewrite Hparse.
Qed.

Lemma RenderServer_rendered (post : jreq data) (tpl : Template data)
    (names : list string) (out : list byte) :
  parseRequest r = inr post ->
  BuildTemplate (E := textTpl) (fsys cfg) fnMap (EnableUnsafeFunctions cfg)
    "post" (Template_ post) (Templates post) [] = inr (tpl, names) ->
  Execute tpl (Data post) = inr out ->
  RenderServer textTpl htmlTpl cfg fnMap r
  = respond htmlTpl cfg (Contains (ContentType r) "multipart") post out.
Proof.
  intros Hparse Hbuild Hexec. unfold RenderServer.
  rewrite Hdump, Hpost. simpl. by rewrite Hparse, Hbuild, Hexec.
Qed.

Lemma respond_download (multipart : bool) (post : jreq data) (out : list byte) :
  (Z.of_nat (length out) <? 2 ^ 20)%Z && negb (ForceDL post) && multipart = false ->
  let outfile := if String.eqb (Outfile post) "" then "rendered.out" else Outfile post in
  let resp := respond htmlTpl cfg multipart post out in
  status resp = 200 /\ rbody resp = BBytes out
  /\ header resp !! "Content-Disposition" = Some ("attachment; filename=" +:+ outfile)
  /\ header resp !! "Content-Length" = Some (Itoa (length out)).
Proof.
  intros Hcond. unfold respond.
  assert (Hf : ForceDL (if String.eqb (Outfile post) ""
                        then setOutfile post "rendered.out" else post) = ForceDL post).
  { by destruct (String.eqb (Outfile post) ""). }
  rewrite Hf, Hcond. cbn [status rbody header].
  split; [reflexivity|]. split; [reflexivity|]. split.
  - rewrite lookup_insert_ne by done. rewrite lookup_insert_ne by done.
    rewrite lookup_insert_eq. by destruct (String.eqb (Outfile post) "").
  - by rewrite lookup_insert_eq.
Qed.

Lemma respond_inline (multipart : bool) (post : jreq data) (out : list byte) :
  (Z.of_nat (length out) <? 2 ^ 20)%Z && negb (ForceDL post) && multipart = true ->
  let resp := respond htmlTpl cfg multipart post out in
  header resp = cacheHeaders
  /\ header resp !! "Content-Disposition" = None
  /\ forall page, inlinePage htmlTpl cfg out = inr page ->
       resp = mkResponse 200 cacheHeaders (BBytes page).
Proof.
  intros Hcond. unfold respond, inlinePage.
  assert (Hf : ForceDL (if String.eqb (Outfile post) ""
                        then setOutfile post "rendered.out" else post) = ForceDL post).
  { by destruct (String.eqb (Outfile post) ""). }
  rewrite Hf, Hcond.
  destruct (BuildHTMLTemplate _ _ _ _ _ _ _) as [e|[tpl names]].
  - split; [reflexivity|]. split; [reflexivity|]. discriminate.
  - destruct (ExecuteTemplate tpl "rendered" (string_of_list_byte out)) as [e|page].
    + split; [reflexivity|]. split; [reflexivity|]. discriminate.
    + split; [reflexivity|]. split; [reflexivity|]. by intros ? [= <-].
Qed.

(** C7. For a POST request that is parsed, assembled and executed with
    output [out]: when [out] is shorter than 1 MiB, the request was
    multipart and force-download was not requested, the response carries
    no Content-Disposition header and, the page template being rendered,
    is the status 200 with the page that wraps the output; in every other
    case the response is the status 200 with the output itself as body, a
    Content-Disposition header "attachment; filename=" followed by the
    requested outfile ("rendered.out" when none was given) and a
    Content-Length header that is the decimal count of the bytes of the
    output. *)
Theorem RenderServer_response_shape (post : jreq data) (tpl : Template data)
    (names : list string) (out : list byte) :
  parseRequest r = inr post ->
  BuildTemplate (E := textTpl) (fsys cfg) fnMap (EnableUnsafeFunctions cfg)
    "post" (Template_ post) (Templates post) [] = inr (tpl, names) ->
  Execute tpl (Data post) = inr out ->
  let resp := RenderServer textTpl htmlTpl cfg fnMap r in
  let outfile := if String.eqb (Outfile post) "" then "rendered.out" else Outfile post in
  if (Z.of_nat (length out) <? 2 ^ 20)%Z && negb (ForceDL post)
     && Contains (ContentType r) "multipart"
  then header resp !! "Content-Disposition" = None
       /\ forall page, inlinePage htmlTpl cfg out = inr page ->
            resp = mkResponse 200 cacheHeaders (BBytes page)
  else status resp = 200 /\ rbody resp = BBytes out
       /\ header resp !! "Content-Disposition" = Some ("attachment; filename=" +:+ outfile)
       /\ header resp !! "Content-Length" = Some (Itoa (length out)).
Proof.
  intros Hparse Hbuild Hexec resp outfile. subst resp.
  rewrite (RenderServer_rendered post tpl names out Hparse Hbuild Hexec).
  destruct ((Z.of_nat (length out) <? 2 ^ 20)%Z && negb (ForceDL post)
            && Contains (ContentType r) "multipart") eqn:Hcond.
  - destruct (respond_inline _ post out Hcond) as (_ & Hnone & Hpage). by split.
  - apply (respond_download _ post out Hcond).
Qed.
End ServerFacts.

(** *** The render service: the status of every answer *)

Section ServerStatus.
Context {data : Type} {TX : Text} {MO : MapOrder} {JS : Json data}.
Context (textTpl : Engine data) (htmlTpl : Engine string).
Variables (cfg : Config) (fnMap : templeFnMap) (r : Request).
Hypothesis Hpost : Method r = "POST".

(** Why the loop over one part ends the request. *)
Lemma readPart_inl (part : Part) (post : jreq data) (resp : Response) :
  readPart part post = inl resp ->
  (exists err, content part = inl err
               /\ resp = http_Error (Error err) StatusInternalServerError)
  \/ (exists buf err, FormName part = "forcedl" /\ content part = inr buf
                      /\ ParseBool (string_of_list_byte buf) = inl err
                      /\ resp = http_Error (Error err) StatusBadRequest).
Proof.
  unfold readPart.
  destruct (content part) as [err|buf] eqn:Hc.
  - repeat (destruct (String.eqb (FormName part) _); [intros [= <-]; left; by exists err|]).
    discriminate.
  - destruct (String.eqb (FormName part) "template"); [discriminate|].
    destruct (String.eqb (FormName part) "data"); [by destruct (Unmarshal buf)|].
    destruct (String.eqb (FormName part) "templates");
      [by destruct (0 <? length buf)%nat|].
    destruct (String.eqb (FormName part) "outfile"); [discriminate|].
    destruct (String.eqb (FormName part) "forcedl") eqn:Hn; [|discriminate].
    apply String.eqb_eq in Hn.
    destruct (ParseBool (string_of_list_byte buf)) as [err|b] eqn:Hb; [|discriminate].
    intros [= <-]. right. by exists buf, err.
Qed.

(** Why the loop over the parts ends the request: the first part that
    cannot be obtained or read, or whose forcedl text is no boolean. *)
Lemma readParts_inl (parts : list (result Part)) (post : jreq data) (resp : Response) :
  readParts parts post = inl resp ->
  (exists pre err rest,
      parts = pre ++ inl err :: rest
      /\ resp = http_Error (Error err) StatusInternalServerError)
  \/ (exists pre part rest err,
         parts = pre ++ inr part :: rest /\ content part = inl err
         /\ resp = http_Error (Error err) StatusInternalServerError)
  \/ (exists pre part rest buf err,
         parts = pre ++ inr part :: rest
         /\ FormName part = "forcedl" /\ content part = inr buf
         /\ ParseBool (string_of_list_byte buf) = inl err
         /\ resp = http_Error (Error err) StatusBadRequest).
Proof.
  revert post. induction parts as [|[err|part] parts IH]; intros post; simpl.
  - discriminate.
  - intros [= <-]. left. by exists [], err, parts.
  - destruct (readPart part post) as [resp'|post'] eqn:Hpart.
    + intros [= <-]. right.
      destruct (readPart_inl part post resp' Hpart)
        as [(err & Hc & ->)|(buf & err & Hn & Hc & Hb & ->)].
      * left. by exists [], part, parts, err.
      * right. by exists [], part, parts, buf, err.
    + intros Hrest.
      destruct (IH post' Hrest)
        as [(pre & err & rest & -> & ->)
           |[(pre & p & rest & err & -> & Hc & ->)
            |(pre & p & rest & buf & err & -> & Hn & Hc & Hb & ->)]].
      * left. by exists (inr part :: pre), err, rest.
      * right. left. by exists (inr part :: pre), p, rest, err.
      * right. right. by exists (inr part :: pre), p, rest, buf, err.
Qed.

Lemma respond_status (multipart : bool) (post : jreq data) (out : list byte) :
  status (respond htmlTpl cfg multipart post out) = 200
  \/ (status (respond htmlTpl cfg multipart post out) = 500
      /\ isErr (inlinePage htmlTpl cfg out) = true).
Proof.
  unfold respond, inlinePage.
  destruct (_ && _ && multipart); [|by left].
  destruct (BuildHTMLTemplate _ _ _ _ _ _ _) as [e|[tpl names]]; [by right|].
  destruct (ExecuteTemplate tpl "rendered" (string_of_list_byte out)); [by right | by left].
Qed.

(** C3 as the code has it, for a POST request. The malformed inputs: when
    the dump of the request, if requested, succeeds, a body that is not
    multipart and on which the JSON decoder fails is answered with status
    400 and the decoder's error text in the JSON reply; a forcedl part,
    reached after parts that were read, whose text does not parse as a
    boolean with status 400 and the text of the parse error; a multipart
    body whose reader cannot be made, whose next part cannot be obtained
    or one of whose parts cannot be read, with status 500 and the text of
    that error. The statuses: every answer has status 200, 400 or 500; a
    400 is the decoder's failure on a body that is not multipart, a
    forcedl part that is no boolean, or a failure of [BuildTemplate]; a
    500 is a failed dump of the request, a multipart reader that cannot be
    made, a part that cannot be obtained or read, a failure of the
    execution of the template, or a failure of the page of the inline
    answer. *)
Theorem RenderServer_malformed_input :
  let resp := RenderServer textTpl htmlTpl cfg fnMap r in
  let multipart := Contains (ContentType r) "multipart" in
  let build (post : jreq data) :=
    BuildTemplate (E := textTpl) (fsys cfg) fnMap (EnableUnsafeFunctions cfg)
      "post" (Template_ post) (Templates post) [] in
  (DebugHTTPRequests cfg && isErr (DumpRequest r) = false ->
   (forall err,
       multipart = false -> DecodeRequest (Body r) = inl err ->
       resp = jsonError StatusBadRequest (Error err) /\ status resp = 400)
   /\ (forall pre part rest post buf err,
       multipart = true ->
       MultipartReader r = inr (pre ++ inr part :: rest) ->
       readParts pre (mkJreq "" ∅ nilValue "" false) = inr post ->
       FormName part = "forcedl" -> content part = inr buf ->
       ParseBool (string_of_list_byte buf) = inl err ->
       resp = http_Error (Error err) StatusBadRequest /\ status resp = 400
       /\ err = ErrParseBool (string_of_list_byte buf))
   /\ (forall err,
       multipart = true -> MultipartReader r = inl err ->
       resp = http_Error (Error err) StatusInternalServerError /\ status resp = 500)
   /\ (forall pre err rest post,
       multipart = true ->
       MultipartReader r = inr (pre ++ inl err :: rest) ->
       readParts pre (mkJreq "" ∅ nilValue "" false) = inr post ->
       resp = http_Error (Error err) StatusInternalServerError /\ status resp = 500)
   /\ (forall pre part rest post err,
       multipart = true ->
       MultipartReader r = inr (pre ++ inr part :: rest) ->
       readParts pre (mkJreq "" ∅ nilValue "" false) = inr post ->
       recognised (inr part) = true -> content part = inl err ->
       resp = http_Error (Error err) StatusInternalServerError /\ status resp = 500))
  /\ (DebugHTTPRequests cfg && isErr (DumpRequest r) = true ->
      resp = http_Error "" StatusInternalServerError /\ status resp = 500)
  /\ (status resp = 200 \/ status resp = 400 \/ status resp = 500)
  /\ (status resp = 400 ->
      DebugHTTPRequests cfg && isErr (DumpRequest r) = false
      /\ ((multipart = false /\ exists err, DecodeRequest (Body r) = inl err)
          \/ (multipart = true /\ exists pre part rest buf err,
                MultipartReader r = inr (pre ++ inr part :: rest)
                /\ FormName part = "forcedl" /\ content part = inr buf
                /\ ParseBool (string_of_list_byte buf) = inl err)
          \/ (exists post err, parseRequest r = inr post /\ build post = inl err)))
  /\ (status resp = 500 ->
      DebugHTTPRequests cfg && isErr (DumpRequest r) = true
      \/ (multipart = true /\ exists err, MultipartReader r = inl err)
      \/ (multipart = true /\ exists pre err rest,
            MultipartReader r = inr (pre ++ inl err :: rest))
      \/ (multipart = true /\ exists pre part rest err,
            MultipartReader r = inr (pre ++ inr part :: rest) /\ content part = inl err)
      \/ (exists post tpl names err,
            parseRequest r = inr post /\ build post = inr (tpl, names)
            /\ Execute tpl (Data post) = inl err)
      \/ (exists post tpl names out,
            parseRequest r = inr post /\ build post = inr (tpl, names)
            /\ Execute tpl (Data post) = inr out
            /\ isErr (inlinePage htmlTpl cfg out) = true)).
Proof.
  intros resp multipart build.
  assert (Hcases :
    (DebugHTTPRequests cfg && isErr (DumpRequest r) = true
     /\ resp = http_Error "" StatusInternalServerError)
    \/ (DebugHTTPRequests cfg && isErr (DumpRequest r) = false
        /\ ((exists resp0, parseRequest r = inl resp0 /\ resp = resp0)
            \/ (exists post err, parseRequest r = inr post /\ build post = inl err
                                 /\ resp = jsonError StatusBadRequest (Error err))
            \/ (exists post tpl names err,
                  parseRequest r = inr post /\ build post = inr (tpl, names)
                  /\ Execute tpl (Data post) = inl err
                  /\ resp = jsonError StatusInternalServerError (Error err))
            \/ (exists post tpl names out,
                  parseRequest r = inr post /\ build post = inr (tpl, names)
                  /\ Execute tpl (Data post) = inr out
                  /\ resp = respond htmlTpl cfg multipart post out)))).
  { subst resp. unfold RenderServer.
    destruct (DebugHTTPRequests cfg && isErr (DumpRequest r)) eqn:Hd; [by left|].
    right. split; [done|]. rewrite Hpost. cbn [String.eqb Ascii.eqb negb].
    change (negb (String.eqb "POST" "POST")) with false. cbn iota.
    destruct (parseRequest r) as [resp0|post] eqn:Hparse; [left; by exists resp0|].
    right. fold (build post).
    destruct (build post) as [err|[tpl names]] eqn:Hbuild; [left; by exists post, err|].
    right. destruct (Execute tpl (Data post)) as [err|out] eqn:Hexec.
    - left. by exists post, tpl, names, err.
    - right. by exists post, tpl, names, out. }
  assert (Hparse_inl : forall resp0, parseRequest r = inl resp0 ->
    (multipart = false /\ exists err, DecodeRequest (Body r) = inl err
                                      /\ resp0 = jsonError StatusBadRequest (Error err))
    \/ (multipart = true /\ exists err, MultipartReader r = inl err
          /\ resp0 = http_Error (Error err) StatusInternalServerError)
    \/ (multipart = true /\ exists pre err rest,
          MultipartReader r = inr (pre ++ inl err :: rest)
          /\ resp0 = http_Error (Error err) StatusInternalServerError)
    \/ (multipart = true /\ exists pre part rest err,
          MultipartReader r = inr (pre ++ inr part :: rest) /\ content part = inl err
          /\ resp0 = http_Error (Error err) StatusInternalServerError)
    \/ (multipart = true /\ exists pre part rest buf err,
          MultipartReader r = inr (pre ++ inr part :: rest)
          /\ FormName part = "forcedl" /\ content part = inr buf
          /\ ParseBool (string_of_list_byte buf) = inl err
          /\ resp0 = http_Error (Error err) StatusBadRequest)).
  { intros resp0. unfold parseRequest. fold multipart.
    destruct multipart eqn:Hm.
    - destruct (MultipartReader r) as [err|parts] eqn:Hr.
      + intros [= <-]. right. left. split; [done|]. by exists err.
      + intros Hparts. right. right.
        destruct (readParts_inl parts _ resp0 Hparts)
          as [(pre & err & rest & -> & ->)
             |[(pre & p & rest & err & -> & Hc & ->)
              |(pre & p & rest & buf & err & -> & Hn & Hc & Hb & ->)]].
        * left. split; [done|]. by exists pre, err, rest.
        * right. left. split; [done|]. by exists pre, p, rest, err.
        * right. right. split; [done|]. by exists pre, p, rest, buf, err.
    - destruct (DecodeRequest (Body r)) as [err|post'] eqn:Hd; [|discriminate].
      intros [= <-]. left. split; [done|]. by exists err. }
  split; [|split; [|split; [|split]]].
  - intros Hdump.
    assert (Hresp : forall resp0, parseRequest r = inl resp0 -> resp = resp0).
    { intros resp0 Hp. subst resp. unfold RenderServer. rewrite Hdump, Hpost. simpl.
      by rewrite Hp. }
    split; [|split; [|split; [|split]]].
    + intros err Hm Hd. rewrite (Hresp (jsonError StatusBadRequest (Error err))); [done|].
      unfold parseRequest. fold multipart. by rewrite Hm, Hd.
    + intros pre part rest post buf err Hm Hr Hpre Hn Hc Hb.
      assert (Herr : err = ErrParseBool (string_of_list_byte buf)).
      { unfold ParseBool in Hb. destruct (existsb _ _); [discriminate|].
        destruct (existsb _ _); [discriminate|]. by injection Hb. }
      rewrite (Hresp (http_Error (Error err) StatusBadRequest)); [done|].
      unfold parseRequest. fold multipart. rewrite Hm, Hr, readParts_app, Hpre.
      simpl. unfold readPart. rewrite Hn, Hc. simpl. by rewrite Hb.
    + intros err Hm Hr.
      rewrite (Hresp (http_Error (Error err) StatusInternalServerError)); [done|].
      unfold parseRequest. fold multipart. by rewrite Hm, Hr.
    + intros pre err rest post Hm Hr Hpre.
      rewrite (Hresp (http_Error (Error err) StatusInternalServerError)); [done|].
      unfold parseRequest. fold multipart. by rewrite Hm, Hr, readParts_app, Hpre.
    + intros pre part rest post err Hm Hr Hpre Hn Hc.
      rewrite (Hresp (http_Error (Error err) StatusInternalServerError)); [done|].
      unfold parseRequest. fold multipart. rewrite Hm, Hr, readParts_app, Hpre.
      simpl. unfold readPart. rewrite Hc. unfold recognised in Hn. simpl in Hn.
      repeat (destruct (String.eqb (FormName part) _); [done|]). discriminate.
  - intros Hdump. destruct Hcases as [[_ ->]|[Hno _]]; [done | congruence].
  - destruct Hcases as [[_ ->]|[_ [(resp0 & Hp & ->)|[(post & err & _ & _ & ->)
      |[(post & tpl & names & err & _ & _ & _ & ->)
       |(post & tpl & names & out & _ & _ & _ & ->)]]]]].
    + by right; right.
    + destruct (Hparse_inl resp0 Hp)
        as [(_ & err & _ & ->)|[(_ & err & _ & ->)|[(_ & pre & err & rest & _ & ->)
           |[(_ & pre & p & rest & err & _ & _ & ->)
            |(_ & pre & p & rest & buf & err & _ & _ & _ & _ & ->)]]]];
        simpl; auto.
    + simpl; auto.
    + simpl; auto.
    + destruct (respond_status multipart post out) as [->|[-> _]]; auto.
  - intros H400.
    destruct Hcases as [[_ Heq]|[Hdump [(resp0 & Hp & Heq)|[(post & err & Hp & Hb & Heq)
      |[(post & tpl & names & err & _ & _ & _ & Heq)
       |(post & tpl & names & out & _ & _ & _ & Heq)]]]]]; rewrite Heq in H400.
    + discriminate.
    + split; [done|].
      destruct (Hparse_inl resp0 Hp)
        as [(Hm & err & Hd & ->)|[(_ & err & _ & ->)|[(_ & pre & err & rest & _ & ->)
           |[(_ & pre & p & rest & err & _ & _ & ->)
            |(Hm & pre & p & rest & buf & err & Hr & Hn & Hc & Hb & ->)]]]];
        try discriminate.
      * left. split; [done|]. by exists err.
      * right. left. split; [done|]. by exists pre, p, rest, buf, err.
    + split; [done|]. right. right. by exists post, err.
    + discriminate.
    + destruct (respond_status multipart post out) as [H200|[H500 _]]; congruence.
  - intros H500.
    destruct Hcases as [[Hdump _]|[_ [(resp0 & Hp & Heq)|[(post & err & _ & _ & Heq)
      |[(post & tpl & names & err & Hp & Hb & He & _)
       |(post & tpl & names & out & Hp & Hb & He & Heq)]]]]].
    + by left.
    + rewrite Heq in H500. right.
      destruct (Hparse_inl resp0 Hp)
        as [(_ & err & _ & ->)|[(Hm & err & Hr & ->)|[(Hm & pre & err & rest & Hr & ->)
           |[(Hm & pre & p & rest & err & Hr & Hc & ->)
            |(_ & pre & p & rest & buf & err & _ & _ & _ & _ & ->)]]]];
        try discriminate.
      * left. split; [done|]. by exists err.
      * right. left. split; [done|]. by exists pre, err, rest.
      * right. right. left. split; [done|]. by exists pre, p, rest, err.
    + rewrite Heq in H500. discriminate.
    + do 4 right. left. by exists post, tpl, names, err.
    + do 5 right. exists post, tpl, names, out. repeat split; try done.
      rewrite Heq in H500.
      destruct (respond_status multipart post out) as [H200|[_ Hpage]]; [congruence|done].
Qed.
End ServerStatus.

(** Runs of C3 as the code has it: the forcedl part "maybe" is answered
    with 400, the request without a boundary with 500, and a request whose
    dump fails with 500 although its body is not JSON. *)
Lemma RenderServer_malformed_input_witness :
  status (RenderServer (TX := asciiText) (JS := noJson) (literalEngine Value) pageEngine
            testConfig (FnMap (fun _ => "func()")) badForcedlRequest) = 400
  /\ status (RenderServer (TX := asciiText) (JS := noJson) (literalEngine Value) pageEngine
               testConfig (FnMap (fun _ => "func()")) noBoundaryRequest) = 500
  /\ status (RenderServer (TX := asciiText) (JS := noJson) (literalEngine Value) pageEngine
               debugConfig (FnMap (fun _ => "func()")) undumpableRequest) = 500.
Proof.
  split; [|split].
  - pose proof (RenderServer_malformed_input (TX := asciiText) (JS := noJson)
                  (literalEngine Value) pageEngine testConfig (FnMap (fun _ => "func()"))
                  badForcedlRequest eq_refl) as H.
    cbv zeta in H. destruct H as (Hmal & _).
    destruct (Hmal eq_refl) as (_ & Hforcedl & _).
    refine (proj1 (proj2 (Hforcedl
      [inr (mkPart "template" "" (inr (list_byte_of_string "hi")))]
      (mkPart "forcedl" "" (inr (list_byte_of_string "maybe"))) []
      (mkJreq "hi" ∅ (VOther "<nil>") "" false)
      (list_byte_of_string "maybe") (ErrParseBool "maybe") _ _ _ _ _ _)));
      reflexivity.
  - pose proof (RenderServer_malformed_input (TX := asciiText) (JS := noJson)
                  (literalEngine Value) pageEngine testConfig (FnMap (fun _ => "func()"))
                  noBoundaryRequest eq_refl) as H.
    cbv zeta in H. destruct H as (Hmal & _).
    destruct (Hmal eq_refl) as (_ & _ & Hreader & _).
    refine (proj2 (Hreader (ErrExternal "no multipart boundary param in Content-Type")
                     _ _)); reflexivity.
  - pose proof (RenderServer_malformed_input (TX := asciiText) (JS := noJson)
                  (literalEngine Value) pageEngine debugConfig (FnMap (fun _ => "func()"))
                  undumpableRequest eq_refl) as H.
    cbv zeta in H. destruct H as (_ & Hdump & _).
    exact (proj2 (Hdump eq_refl)).
Defined.

(** C3 as stated fails on a malformed multipart stream: a multipart request
    without a boundary, and one whose second part cannot be read, are
    answered with status 500 and the text of the error. *)
Lemma malformed_multipart_is_500 :
  RenderServer (TX := asciiText) (JS := noJson) (literalEngine Value) pageEngine
    testConfig (FnMap (fun _ => "func()")) noBoundaryRequest
  = http_Error "no multipart boundary param in Content-Type" 500
  /\ RenderServer (TX := asciiText) (JS := noJson) (literalEngine Value) pageEngine
       testConfig (FnMap (fun _ => "func()")) truncatedRequest
     = http_Error "unexpected EOF" 500.
Proof. split; reflexivity. Qed.

(** It fails too on a body that is not JSON as a whole but begins with a
    request object: the decoder reads that first value only, and the
    request is rendered with status 200. *)
Lemma trailing_text_is_rendered :
  let resp := RenderServer (TX := asciiText) (JS := templateJson) (literalEngine Value)
                pageEngine testConfig (FnMap (fun _ => "func()")) trailingTextRequest in
  status resp = 200 /\ rbody resp = BBytes (list_byte_of_string "hi").
Proof. split; vm_compute; reflexivity. Qed.

(** A run of C7: the download request is answered with the attachment
    headers and the two bytes of the output, the plain request with the
    page, without a Content-Disposition header. *)
Lemma RenderServer_response_shape_witness :
  (let resp := RenderServer (TX := asciiText) (JS := noJson) (literalEngine Value)
                 pageEngine testConfig (FnMap (fun _ => "func()")) downloadRequest in
   status resp = 200 /\ rbody resp = BBytes (list_byte_of_string "hi")
   /\ header resp !! "Content-Disposition" = Some "attachment; filename=o.txt"
   /\ header resp !! "Content-Length" = Some "2")
  /\ (let resp := RenderServer (TX := asciiText) (JS := noJson) (literalEngine Value)
                    pageEngine testConfig (FnMap (fun _ => "func()")) inlineRequest in
      header resp !! "Content-Disposition" = None
      /\ resp = mkResponse 200 cacheHeaders (BBytes (list_byte_of_string "<pre>hi"))).
Proof.
  split.
  - refine (RenderServer_response_shape (TX := asciiText) (JS := noJson)
              (literalEngine Value) pageEngine testConfig (FnMap (fun _ => "func()"))
              downloadRequest eq_refl eq_refl
              (mkJreq "hi" ∅ (VOther "<nil>") "o.txt" true)
              hiTemplate ["post"] (list_byte_of_string "hi") _ _ _);
      vm_compute; reflexivity.
  - assert (Hinline := RenderServer_response_shape (TX := asciiText) (JS := noJson)
              (literalEngine Value) pageEngine testConfig (FnMap (fun _ => "func()"))
              inlineRequest eq_refl eq_refl
              (mkJreq "hi" ∅ (VOther "<nil>") "" false)
              hiTemplate ["post"] (list_byte_of_string "hi")).
    destruct Hinline as [Hnone Hpage]; [vm_compute; reflexivity..|].
    split; [exact Hnone|]. apply Hpage. vm_compute. reflexivity.
Defined.

(* ================================================================== *)
(** ** Further properties *)
(* ================================================================== *)

(** *** The registry: [UnsafeFuncs], [Fn] *)

Lemma collect_unsafe (l : list (string * fn)) (acc : list string) :
  foldl (fun out e => if Unsafe e.2 then out ++ [e.1] else out) acc l
  = acc ++ (filter (fun e => Unsafe e.2 = true) l).*1.
Proof.
  revert acc. induction l as [|[name info] l IH]; intros acc; simpl.
  - by rewrite app_nil_r.
  - rewrite IH. destruct (Unsafe info) eqn:Hu.
    + rewrite filter_cons_True by done. simpl. by rewrite <- app_assoc.
    + rewrite filter_cons_False by (simpl; congruence). done.
Qed.

Lemma UnsafeFuncs_Permutation {MO : MapOrder} (t : templeFnMap) :
  UnsafeFuncs t ≡ₚ (filter (fun e => Unsafe e.2 = true) (map_to_list t)).*1.
Proof.
  unfold UnsafeFuncs. rewrite merge_sort_Permutation, collect_unsafe. simpl.
  by rewrite (mapRange_perm _ t).
Qed.

(** [UnsafeFuncs] returns, in ascending order and each once, exactly the
    registered names whose entry is unsafe; the result does not depend on
    the order in which the map is ranged over, and for the built-in
    registry it is cmd, env, http, rawfile, textfile, userinput,
    writefile. *)
Theorem UnsafeFuncs_sorted_exact {MO : MapOrder} (t : templeFnMap)
    (typeString : callable -> string) :
  StronglySorted String.le (UnsafeFuncs t)
  /\ NoDup (UnsafeFuncs t)
  /\ (forall name, name ∈ UnsafeFuncs t
        <-> exists info, t !! name = Some info /\ Unsafe info = true)
  /\ (forall MO' : MapOrder, UnsafeFuncs (MO := MO') t = UnsafeFuncs t)
  /\ UnsafeFuncs (FnMap typeString) = unsafeNames.
Proof.
  assert (Hsorted : forall (M : MapOrder) (m : templeFnMap),
             StronglySorted String.le (UnsafeFuncs (MO := M) m)).
  { intros M m. unfold UnsafeFuncs. apply (StronglySorted_merge_sort _). }
  assert (Hindep : forall (M M' : MapOrder) (m : templeFnMap),
             UnsafeFuncs (MO := M') m = UnsafeFuncs (MO := M) m).
  { intros M M' m. apply (StronglySorted_unique String.le); [apply Hsorted..|].
    by rewrite !UnsafeFuncs_Permutation. }
  split; [apply Hsorted|]. split; [|split; [|split]].
  - rewrite UnsafeFuncs_Permutation.
    apply NoDup_fmap_fst.
    + intros name i1 i2 H1%list_elem_of_filter H2%list_elem_of_filter.
      destruct H1 as [_ H1%elem_of_map_to_list], H2 as [_ H2%elem_of_map_to_list].
      congruence.
    + apply NoDup_filter, NoDup_map_to_list.
  - intros name. rewrite UnsafeFuncs_Permutation, list_elem_of_fmap. split.
    + intros ([n info] & -> & [Hu Hin%elem_of_map_to_list]%list_elem_of_filter).
      by exists info.
    + intros (info & Hin & Hu). exists (name, info). split; [done|].
      apply list_elem_of_filter. split; [done | by apply elem_of_map_to_list].
  - intros MO'. apply Hindep.
  - rewrite (Hindep listOrder MO (FnMap typeString)). vm_compute. reflexivity.
Qed.

(** Registering with [Fn] decides what [BuildFuncMap] holds under that
    name: the callable registered last, present in the safe set only if
    registered as safe; the other names are as before, and a second
    registration under a name replaces the first. *)
Theorem Fn_BuildFuncMap (typeString : callable -> string) (t : templeFnMap)
    (name description : string) (funct : callable) (unsafe addUnsafeFuncs : bool) :
  BuildFuncMap (Fn typeString t name description funct unsafe) addUnsafeFuncs !! name
  = (if negb unsafe || addUnsafeFuncs then Some funct else None)
  /\ (forall other, other <> name ->
        BuildFuncMap (Fn typeString t name description funct unsafe) addUnsafeFuncs !! other
        = BuildFuncMap t addUnsafeFuncs !! other)
  /\ (forall d0 f0 u0,
        Fn typeString (Fn typeString t name d0 f0 u0) name description funct unsafe
        = Fn typeString t name description funct unsafe).
Proof.
  unfold Fn. split; [|split].
  - rewrite lookup_BuildFuncMap, lookup_insert_eq. reflexivity.
  - intros other Hne. rewrite !lookup_BuildFuncMap, lookup_insert_ne by done. reflexivity.
  - intros d0 f0 u0. apply insert_insert_eq.
Qed.

(** The safe set is a part of the full set, with the same callables; the
    two are the same exactly when no registered function is unsafe. *)
Theorem BuildFuncMap_safe_subset (t : templeFnMap) :
  BuildFuncMap t false ⊆ BuildFuncMap t true
  /\ (BuildFuncMap t false = BuildFuncMap t true
      <-> forall name info, t !! name = Some info -> Unsafe info = false).
Proof.
  split.
  - apply map_subseteq_spec. intros name f.
    rewrite !lookup_BuildFuncMap. destruct (t !! name) as [info|]; simpl; [|done].
    rewrite orb_true_r. by destruct (Unsafe info).
  - split.
    + intros Heq name info Hinfo.
      assert (Hl : BuildFuncMap t false !! name = BuildFuncMap t true !! name)
        by by rewrite Heq.
      rewrite !lookup_BuildFuncMap, Hinfo in Hl. simpl in Hl.
      rewrite orb_true_r in Hl. by destruct (Unsafe info).
    + intros Hsafe. apply map_eq. intros name. rewrite !lookup_BuildFuncMap.
      destruct (t !! name) as [info|] eqn:Hinfo; simpl; [|done].
      by rewrite (Hsafe name info Hinfo).
Qed.

(** *** The assembly: function set, names, unreadable files *)

Section AssemblyMore.
Context {data : Type} {E : Engine data} {MO : MapOrder}.

Lemma BuildHTMLTemplate_eq (fs : FS) (t : templeFnMap) (_unsafe : bool)
    (name _template : string) (loadedFiles : gmap string string)
    (localFiles : list string) :
  BuildHTMLTemplate fs t _unsafe name _template loadedFiles localFiles
  = BuildTemplate fs t _unsafe name _template loadedFiles localFiles.
Proof. reflexivity. Qed.

Lemma BuildTemplate_tfuncs (fs : FS) (t : templeFnMap) (_unsafe : bool)
    (name _template : string) (loadedFiles : gmap string string)
    (localFiles : list string) (tpl : Template data) (names : list string) :
  BuildTemplate fs t _unsafe name _template loadedFiles localFiles = inr (tpl, names) ->
  tfuncs tpl = BuildFuncMap t _unsafe.
Proof.
  rewrite BuildTemplate_steps. intros Hb.
  apply bind_inr in Hb as ([tpl0 all0] & H0 & Hb).
  apply bind_inr in Hb as ([tpl1 all1] & H1 & Hb).
  apply bind_inr in Hb as ([tpl2 all2] & H2 & Hb).
  simpl in Hb. destruct all2 as [|n all2]; [discriminate|].
  injection Hb as <- <-.
  apply inlineStep_inr in H0 as (_ & _ & Hf0).
  apply loadLocal_inr in H1 as (_ & _ & Hf1).
  apply loadNamed_inr in H2 as (_ & _ & Hf2).
  congruence.
Qed.

(** The function map of an assembled template, text or html, is the
    callable set built from the registry with the [_unsafe] argument: with
    [_unsafe = false] no function registered as unsafe can be called from
    any template of the assembly. *)
Theorem BuildTemplate_function_set (fs : FS) (t : templeFnMap) (_unsafe : bool)
    (name _template : string) (loadedFiles : gmap string string)
    (localFiles : list string) (tpl : Template data) (names : list string) :
  BuildTemplate fs t _unsafe name _template loadedFiles localFiles = inr (tpl, names)
  \/ BuildHTMLTemplate fs t _unsafe name _template loadedFiles localFiles = inr (tpl, names) ->
  tfuncs tpl = BuildFuncMap t _unsafe
  /\ (_unsafe = false ->
      forall fname info, t !! fname = Some info -> Unsafe info = true ->
                         tfuncs tpl !! fname = None).
Proof.
  intros Hb.
  assert (Hf : tfuncs tpl = BuildFuncMap t _unsafe).
  { destruct Hb as [Hb|Hb]; [|rewrite BuildHTMLTemplate_eq in Hb];
      by apply BuildTemplate_tfuncs in Hb. }
  split; [exact Hf|]. intros -> fname info Hinfo Hu.
  rewrite Hf, lookup_BuildFuncMap, Hinfo. simpl. by rewrite Hu.
Qed.

(** The list of names a successful [BuildTemplate] returns has one entry
    per source (the inline template if any, each local file, each
    fragment), so two sources with the same base name give the name twice;
    up to the order of the fragments it does not depend on how the map is
    ranged over. *)
Theorem BuildTemplate_names_count (fs : FS) (t : templeFnMap) (_unsafe : bool)
    (name _template : string) (loadedFiles : gmap string string)
    (localFiles : list string) (tpl : Template data) (names : list string) :
  BuildTemplate fs t _unsafe name _template loadedFiles localFiles = inr (tpl, names) ->
  length names
  = (if String.eqb _template "" then 0 else 1) + length localFiles + size loadedFiles
  /\ names ≡ₚ (if String.eqb _template "" then [] else [path_Base name])
              ++ map path_Base localFiles
              ++ map (fun e => path_Base e.1) (map_to_list loadedFiles).
Proof.
  intros Hb. apply BuildTemplate_inr in Hb as (_ & -> & _). split.
  - rewrite !length_app, !length_map.
    rewrite (mapRange_perm _ loadedFiles), length_map_to_list.
    destruct (String.eqb _template ""); simpl; lia.
  - by rewrite (mapRange_perm _ loadedFiles).
Qed.

Lemma loadLocal_unreadable (fs : FS) (localFiles : list string) (p : string)
    (st : Template data * list string) :
  In p localFiles -> (fload fs p).2 <> None ->
  exists e, loadLocal fs localFiles st = inl e.
Proof.
  intros Hin Hbad. revert st.
  induction localFiles as [|lft rest IH]; intros [tpl all]; [destruct Hin|].
  cbn [loadLocal]. destruct (fload fs lft) as [text [err|]] eqn:Hf; [by eauto|].
  destruct Hin as [->|Hin]; [by rewrite Hf in Hbad|].
  destruct (Parse (New tpl (path_Base lft)) text) as [e|tpl'] eqn:HP; simpl.
  - by eauto.
  - by apply IH.
Qed.

(** [BuildTemplate] returns no template when one of the local files cannot
    be opened or read, whatever the other sources are; the error is never
    "no templates found". *)
Theorem BuildTemplate_unreadable_file (fs : FS) (t : templeFnMap) (_unsafe : bool)
    (name _template : string) (loadedFiles : gmap string string)
    (localFiles : list string) (p : string) :
  In p localFiles -> (fload fs p).2 <> None ->
  exists e, BuildTemplate fs t _unsafe name _template loadedFiles localFiles = inl e
            /\ e <> ErrNoTemplates.
Proof.
  intros Hin Hbad. rewrite BuildTemplate_steps.
  destruct (inlineStep t _unsafe name _template) as [e|st0] eqn:H0.
  - exists e. split; [reflexivity|]. by apply inlineStep_error in H0.
  - destruct (loadLocal_unreadable fs localFiles p st0 Hin Hbad) as [e He].
    exists e. simpl. rewrite He. split; [reflexivity|].
    by apply loadLocal_error in He.
Qed.
End AssemblyMore.

Lemma BuildTemplate_function_set_witness :
  exists tpl names,
    BuildTemplate (E := literalEngine Value) noFiles (FnMap (fun _ => "func()")) false
      "post" "hi" ∅ [] = inr (tpl, names)
    /\ tfuncs tpl !! "cmd" = None /\ tfuncs tpl !! "hexenc" = Some f_hexenc.
Proof.
  exists hiTemplate, ["post"].
  assert (Hb : BuildTemplate (E := literalEngine Value) noFiles (FnMap (fun _ => "func()"))
                 false "post" "hi" ∅ [] = inr (hiTemplate, ["post"]))
    by (vm_compute; reflexivity).
  split; [exact Hb|].
  destruct (BuildTemplate_function_set _ _ _ _ _ _ _ _ _ (or_introl Hb)) as [Hf Hsafe].
  split.
  - apply (Hsafe eq_refl "cmd" (mkFn f_cmd "execute a command on local host" "func()" true));
      [vm_compute; reflexivity | reflexivity].
  - rewrite Hf. vm_compute. reflexivity.
Defined.

Lemma BuildTemplate_names_count_witness :
  exists tpl names,
    BuildTemplate (E := literalEngine Value) oneFile (FnMap (fun _ => "func()")) false
      "post" "hi" {["x/t.tpl" := "frag"]} ["/srv/t.tpl"] = inr (tpl, names)
    /\ length names = 3 /\ names = ["post"; "t.tpl"; "t.tpl"].
Proof.
  eexists _, _.
  assert (Hb : BuildTemplate (E := literalEngine Value) oneFile (FnMap (fun _ => "func()"))
                 false "post" "hi" {["x/t.tpl" := "frag"]} ["/srv/t.tpl"]
               = inr (mkTemplate (E := literalEngine Value) "t.tpl"
                        (<["t.tpl" := "frag"]> (<["post" := "hi"]> ∅))
                        (BuildFuncMap (FnMap (fun _ => "func()")) false ∪ ∅),
                      ["post"; "t.tpl"; "t.tpl"]))
    by (vm_compute; reflexivity).
  split; [exact Hb|]. split; [|reflexivity].
  exact (proj1 (BuildTemplate_names_count _ _ _ _ _ _ _ _ _ Hb)).
Defined.

Lemma BuildTemplate_unreadable_file_witness :
  exists e,
    BuildTemplate (E := literalEngine Value) noFiles (FnMap (fun _ => "func()")) false
      "post" "hi" ∅ ["missing.tpl"] = inl e /\ e <> ErrNoTemplates.
Proof.
  apply (BuildTemplate_unreadable_file (E := literalEngine Value) noFiles
           (FnMap (fun _ => "func()")) false "post" "hi" ∅ ["missing.tpl"] "missing.tpl").
  - left. reflexivity.
  - vm_compute. discriminate.
Defined.

(** *** The render service: method, build and execution errors, parts *)

Section ServerMore.
Context {data : Type} {TX : Text} {MO : MapOrder} {JS : Json data}.
Context (textTpl : Engine data) (htmlTpl : Engine string).
Variables (cfg : Config) (fnMap : templeFnMap) (r : Request).

(** A request whose method is not POST is answered by [bye], the
    permanent redirect to the fixed location, whatever its content type
    and body and whatever the registry and the engines are: nothing of it
    is parsed and no template is built. The Location header is set for
    every method; the Content-Type header for GET and HEAD only; the short
    page with the link is written for GET only, and there is no body
    otherwise. When the dump of the request is requested and fails, the
    answer is the status 500 with an empty message, for every method. *)
Theorem RenderServer_wrong_method :
  (DebugHTTPRequests cfg && isErr (DumpRequest r) = false ->
   Method r <> "POST" ->
   let resp := RenderServer textTpl htmlTpl cfg fnMap r in
   let url := "https://www.youtube.com/watch?v=dQw4w9WgXcQ?autoplay=1" in
   resp = bye r
   /\ status resp = 308
   /\ header resp !! "Location" = Some url
   /\ (Method r = "GET" ->
       header resp !! "Content-Type" = Some "text/html; charset=utf-8"
       /\ rbody resp = BText ("<a href=" +:+ dquote +:+ url +:+ dquote
                              +:+ ">Permanent Redirect</a>."
                              +:+ String "010" (String "010" "")))
   /\ (Method r = "HEAD" ->
       header resp !! "Content-Type" = Some "text/html; charset=utf-8"
       /\ rbody resp = BEmpty)
   /\ (Method r <> "GET" -> Method r <> "HEAD" ->
       header resp = <["Location" := url]> ∅ /\ rbody resp = BEmpty))
  /\ (DebugHTTPRequests cfg = true -> isErr (DumpRequest r) = true ->
      RenderServer textTpl htmlTpl cfg fnMap r = http_Error "" 500).
Proof.
  split.
  - intros Hdump Hm resp url.
    assert (Hbye : resp = bye r).
    { subst resp. unfold RenderServer. rewrite Hdump.
      by rewrite (proj2 (String.eqb_neq _ _) Hm). }
    rewrite Hbye. unfold bye, http_Redirect. cbn [status header rbody].
    split; [done|]. split; [done|]. split; [|split; [|split]].
    + by destruct (String.eqb (Method r) "GET" || String.eqb (Method r) "HEAD").
    + intros ->. done.
    + intros ->. done.
    + intros Hg Hh. rewrite (proj2 (String.eqb_neq _ _) Hg).
      by rewrite (proj2 (String.eqb_neq _ _) Hh).
  - intros Hd He. unfold RenderServer. by rewrite Hd, He.
Qed.

Hypothesis Hdump : DebugHTTPRequests cfg && isErr (DumpRequest r) = false.
Hypothesis Hpost : Method r = "POST".

(** For a POST request that was parsed: a failure of [BuildTemplate] is
    answered with status 400 and the text of its error in the JSON reply,
    a failure of the execution with status 500 and the text of that error;
    in particular a request with neither a template nor a fragment is
    answered with 400 and "no templates found". *)
Theorem RenderServer_build_and_execution_errors (post : jreq data) :
  parseRequest r = inr post ->
  (forall e,
      BuildTemplate (E := textTpl) (fsys cfg) fnMap (EnableUnsafeFunctions cfg)
        "post" (Template_ post) (Templates post) [] = inl e ->
      RenderServer textTpl htmlTpl cfg fnMap r = jsonError 400 (Error e))
  /\ (forall tpl names e,
      BuildTemplate (E := textTpl) (fsys cfg) fnMap (EnableUnsafeFunctions cfg)
        "post" (Template_ post) (Templates post) [] = inr (tpl, names) ->
      Execute tpl (Data post) = inl e ->
      RenderServer textTpl htmlTpl cfg fnMap r = jsonError 500 (Error e))
  /\ (Template_ post = "" -> Templates post = ∅ ->
      RenderServer textTpl htmlTpl cfg fnMap r = jsonError 400 "no templates found").
Proof.
  intros Hparse.
  assert (Hbuild : forall e,
      BuildTemplate (E := textTpl) (fsys cfg) fnMap (EnableUnsafeFunctions cfg)
        "post" (Template_ post) (Templates post) [] = inl e ->
      RenderServer textTpl htmlTpl cfg fnMap r = jsonError 400 (Error e)).
  { intros e Hb. unfold RenderServer. rewrite Hdump, Hpost. simpl.
    by rewrite Hparse, Hb. }
  split; [exact Hbuild|]. split.
  - intros tpl names e Hb He. unfold RenderServer. rewrite Hdump, Hpost. simpl.
    by rewrite Hparse, Hb, He.
  - intros Ht Hts. apply (Hbuild ErrNoTemplates).
    by apply BuildTemplate_none_supplied.
Qed.
End ServerMore.

Section Parts.
Context {data : Type} {TX : Text} {JS : Json data}.

Lemma readPart_unrecognised (part : Part) (post : jreq data) :
  recognised (inr part) = false -> readPart part post = inr post.
Proof.
  unfold recognised, readPart. simpl.
  destruct (String.eqb (FormName part) "template"); [done|].
  destruct (String.eqb (FormName part) "data"); [done|].
  destruct (String.eqb (FormName part) "templates"); [done|].
  destruct (String.eqb (FormName part) "outfile"); [done|].
  destruct (String.eqb (FormName part) "forcedl"); [done|]. done.
Qed.

(** Parts whose form name is none of template, data, templates, outfile
    and forcedl do not count: the parts of a multipart body are read to the
    same request, or to the same error response, with and without them,
    even when such a part cannot be read. *)
Theorem readParts_ignores_other_parts (parts : list (result Part)) (post : jreq data) :
  readParts (List.filter recognised parts) post = readParts parts post.
Proof.
  revert post. induction parts as [|[err|part] parts IH]; intros post.
  - reflexivity.
  - reflexivity.
  - cbn [List.filter]. destruct (recognised (inr part)) eqn:Hrec.
    + cbn [readParts]. destruct (readPart part post); [reflexivity | apply IH].
    + cbn [readParts]. rewrite (readPart_unrecognised part post Hrec). apply IH.
Qed.
End Parts.

(** A run: a GET request is answered with the redirect, the Content-Type
    header and the page with the link. *)
Lemma RenderServer_wrong_method_witness :
  let resp := RenderServer (TX := asciiText) (JS := noJson) (literalEngine Value)
                pageEngine testConfig (FnMap (fun _ => "func()")) getRequest in
  status resp = 308
  /\ header resp !! "Content-Type" = Some "text/html; charset=utf-8"
  /\ rbody resp
     = BText ("<a href=" +:+ dquote
              +:+ "https://www.youtube.com/watch?v=dQw4w9WgXcQ?autoplay=1" +:+ dquote
              +:+ ">Permanent Redirect</a>." +:+ String "010" (String "010" "")).
Proof.
  intros resp.
  pose proof (proj1 (RenderServer_wrong_method (TX := asciiText) (JS := noJson)
                (literalEngine Value) pageEngine testConfig (FnMap (fun _ => "func()"))
                getRequest) eq_refl) as H.
  cbv zeta in H.
  destruct H as (_ & Hs & _ & Hget & _); [discriminate|].
  destruct (Hget eq_refl) as [Hct Hb].
  split; [exact Hs|]. split; [exact Hct | exact Hb].
Defined.

Lemma RenderServer_build_and_execution_errors_witness :
  RenderServer (TX := asciiText) (JS := noJson) (literalEngine Value) pageEngine
    testConfig (FnMap (fun _ => "func()")) emptyMultipartRequest
  = jsonError 400 "no templates found".
Proof.
  refine (proj2 (proj2 (RenderServer_build_and_execution_errors (TX := asciiText)
            (JS := noJson) (literalEngine Value) pageEngine testConfig
            (FnMap (fun _ => "func()")) emptyMultipartRequest eq_refl eq_refl
            (mkJreq "" ∅ (VOther "<nil>") "" false) eq_refl)) eq_refl eq_refl).
Defined.

(** *** The tracker: count of the records, blocking *)

Section TrackerMore.
Context {TX : Text}.

(** In every state of a run, whatever the interleaving of the callers and
    the consumer, callers blocked in the send included: the records sent
    are, up to their order, the records logged, the record the consumer
    holds and the records of the callers that are blocked, so none is lost
    or made up; the counter of the WaitGroup is the number of records sent
    and not yet logged; it is zero exactly when every record sent has been
    logged; the flag is on only if the consumer exists; and once the
    consumer exists it can always finish: after one turn for each blocked
    caller and one more, every record sent is logged and the counter is
    zero. *)
Theorem tracker_keeps_order_and_count (st : TrackState) :
  reachable st ->
  sent st ≡ₚ logged st ++ held st ++ blocked st
  /\ Tracking st = length (held st) + length (blocked st)
  /\ Tracking st + length (logged st) = length (sent st)
  /\ (Tracking st = 0 <-> logged st ≡ₚ sent st)
  /\ (debugAllFunctions st = true -> startTracingOnce st = true)
  /\ (startTracingOnce st = true ->
      let st' := serve (S (length (blocked st))) st in
      reachable st' /\ Tracking st' = 0 /\ sent st' = sent st
      /\ logged st' = logged st ++ held st ++ blocked st).
Proof.
  intros Hreach. destruct (reachable_inv st Hreach) as (Hc & Hp & Hf).
  assert (Hlen : Tracking st + length (logged st) = length (sent st)).
  { rewrite Hp, !length_app. lia. }
  split; [exact Hp|]. split; [exact Hc|]. split; [exact Hlen|].
  split; [|split; [exact Hf|]].
  - split.
    + intros Hz. rewrite Hp.
      assert (Hh : held st = []) by (apply length_zero_iff_nil; lia).
      assert (Hb : blocked st = []) by (apply length_zero_iff_nil; lia).
      by rewrite Hh, Hb, !app_nil_r.
    + intros Hl. apply Permutation_length in Hl. lia.
  - intros Hon st'. subst st'.
    split; [by apply reachable_serve|].
    rewrite (serve_all (blocked st) st eq_refl). cbn.
    split; [lia|]. done.
Qed.

(** A helper that passes [alwaysTrack = true], such as [env], issues its
    record whether tracking is on or off. While [StartTracking] has never
    been called there is no consumer and the helper does not return: it
    stays blocked in the send, with the counter incremented. Once
    [StartTracking] has been called the helper returns its result with one
    more record sent, also after [StopTracking], which clears the flag and
    leaves the consumer running. *)
Theorem always_tracked_helper_needs_consumer (st : TrackState) (now : Z)
    (environ : gmap string string) (name : string) (or : list string) :
  (startTracingOnce st = false ->
   exists st', env_call st now environ name or = Blocks st'
               /\ Tracking st' = S (Tracking st)
               /\ length (sent st') = S (length (sent st)))
  /\ (startTracingOnce st = true ->
      exists st', env_call st now environ name or = Returns (env environ name or, st')
                  /\ length (sent st') = S (length (sent st)))
  /\ startTracingOnce (StopTracking st) = startTracingOnce st
  /\ startTracingOnce (StartTracking st) = true
  /\ startTracingOnce initialState = false.
Proof.
  split; [|split; [|done]].
  - intros Hoff. unfold env_call, deferTrackUsage, trackUsage.
    rewrite orb_true_r, Hoff. eexists. split; [reflexivity|]. simpl.
    split; [reflexivity|]. rewrite length_app. simpl. lia.
  - intros Hon. unfold env_call, deferTrackUsage, trackUsage.
    rewrite orb_true_r, Hon. eexists. split; [reflexivity|].
    rewrite serve_sent. simpl. rewrite length_app. simpl. lia.
Qed.
End TrackerMore.

(** A run: [env] called before [StartTracking] leaves a state of a run in
    which its caller is blocked, the counter is one and nothing is held or
    logged. *)
Lemma tracker_keeps_order_and_count_witness :
  let x := mkTrack 7 "env" [VString "HOME"; VOther "[]string"] "string" None in
  let st := issue initialState x in
  env_call (TX := asciiText) initialState 7 {["HOME" := "/root"]} "HOME" [] = Blocks st
  /\ Tracking st = length (held st) + length (blocked st)
  /\ Tracking st + length (logged st) = length (sent st)
  /\ Tracking st = 1 /\ blocked st = [x].
Proof.
  intros x st.
  destruct (tracker_keeps_order_and_count st
              (reach_step _ _ reach_init (step_issue initialState x true eq_refl)))
    as (_ & Hc & Hl & _).
  split; [reflexivity|]. split; [exact Hc|]. split; [exact Hl|]. split; reflexivity.
Defined.

Lemma always_tracked_helper_needs_consumer_witness :
  (exists st', env_call (TX := asciiText) initialState 7 {["HOME" := "/root"]} "HOME" []
               = Blocks st')
  /\ (exists st', env_call (TX := asciiText) (StopTracking (StartTracking initialState)) 7
                    {["HOME" := "/root"]} "HOME" [] = Returns ("/root", st')).
Proof.
  split.
  - destruct (proj1 (always_tracked_helper_needs_consumer (TX := asciiText) initialState 7
                       {["HOME" := "/root"]} "HOME" []) eq_refl) as (st' & Hb & _).
    by exists st'.
  - destruct (proj1 (proj2 (always_tracked_helper_needs_consumer (TX := asciiText)
                       (StopTracking (StartTracking initialState)) 7
                       {["HOME" := "/root"]} "HOME" [])) eq_refl) as (st' & Hr & _).
    by exists st'.
Defined.

(** *** The helpers: hex, unsupported arguments, keys, [is_], [math], gzip *)

Lemma hex_Encode_length (b : list byte) : length (hex_Encode b) = 2 * length b.
Proof. induction b as [|v b IH]; simpl; [reflexivity | rewrite IH; lia]. Qed.

Lemma hex_Decode_length (src out : list byte) :
  hex_Decode src = (out, None) -> length src = 2 * length out.
Proof.
  assert (Hn : forall n src out, length src <= n ->
                 hex_Decode src = (out, None) -> length src = 2 * length out).
  { clear. induction n as [|n IH]; intros [|p [|q rest]] out Hle; cbn [hex_Decode];
      simpl in Hle; try lia.
    - by intros [= <-].
    - by intros [= <-].
    - destruct (fromHexChar p); discriminate.
    - destruct (fromHexChar p); [|discriminate].
      destruct (fromHexChar q); [|discriminate].
      destruct (hex_Decode rest) as [out' e'] eqn:Hrest.
      intros [= <- ->]. simpl.
      rewrite (IH rest out' ltac:(lia) Hrest). lia. }
  apply (Hn (length src)). lia.
Qed.

Lemma length_string_of_list_byte (l : list byte) :
  String.length (string_of_list_byte l) = length l.
Proof. induction l as [|c l IH]; simpl; [reflexivity | by rewrite <- IH]. Qed.

(** [hexdec] of a reader over the digits written by [hexenc] returns the
    bytes that were encoded (the reader form, like the byte-sequence form,
    inverts [hexenc]); [hexenc] writes two digits per byte; and [hexdec] of
    a byte sequence succeeds only on an even number of digits, twice the
    number of bytes it returns. *)
Theorem hexdec_reader_and_lengths :
  (forall b, hexdec (VReader (inr (hex_Encode b))) = inr b)
  /\ (forall b, hexenc (VBytes b) = inr (hex_EncodeToString b)
               /\ String.length (hex_EncodeToString b) = 2 * length b)
  /\ (forall src out, hexdec (VBytes src) = inr out -> length src = 2 * length out)
  /\ (forall src, Nat.Odd (length src) -> exists e, hexdec (VBytes src) = inl e).
Proof.
  assert (Hlen : forall src out, hexdec (VBytes src) = inr out ->
                                 length src = 2 * length out).
  { intros src out. simpl. destruct (hex_Decode src) as [b [e|]] eqn:Hd; [discriminate|].
    intros [= <-]. rewrite firstn_all. by apply hex_Decode_length. }
  split; [|split; [|split]].
  - intros b. simpl. by rewrite hex_Decode_Encode.
  - intros b. split; [reflexivity|]. unfold hex_EncodeToString.
    rewrite length_string_of_list_byte. apply hex_Encode_length.
  - exact Hlen.
  - intros src [k Hk]. destruct (hexdec (VBytes src)) as [e|out] eqn:Hd; [by eauto|].
    apply Hlen in Hd. lia.
Qed.

(** An argument of a type that no branch of the type switch takes is
    rejected by [hexenc], [hexdec], [b64dec], [encrypt], [_gzip] and
    [_gunzip] with an error whose text names the type, before anything else
    is looked at. [decrypt] has no such branch: with a valid key it treats
    the argument as an empty ciphertext and fails with
    [io.ErrUnexpectedEOF]. *)
Theorem unsupported_argument_type {aead : AEAD} {GZ : Gzip} {TX : Text}
    (rnd : nat -> byte) (v : Value) (K A : string) :
  unsupported v = true ->
  hexenc v = inl (ErrInvalidArgument (typeName v) "string or []byte")
  /\ hexdec v = inl (ErrInvalidArgument (typeName v) "string or []byte")
  /\ b64dec v = inl (ErrInvalidArgument (typeName v) "io.Reader, string or []byte")
  /\ encrypt rnd v K A = inl (ErrInvalidArgument (typeName v) "string or []byte")
  /\ _gzip v = inl (ErrInvalidArgument (typeName v) "io.Reader, string or []byte")
  /\ _gunzip v = inl (ErrInvalidArgument (typeName v) "io.Reader or []byte")
  /\ Error (ErrInvalidArgument (typeName v) "string or []byte")
     = "invalid argument " +:+ typeName v +:+ ", supported types: string or []byte"
  /\ (forall key, base64_DecodeString K = inr key -> validKeyLen (length key) = true ->
        decrypt v K A = inl ErrUnexpectedEOF).
Proof.
  intros Hv.
  destruct v as [s|b|r|z|b|ty]; try discriminate Hv;
    (repeat (split; [reflexivity|]));
    intros key HK Hlen; unfold decrypt; simpl; rewrite HK; simpl;
    rewrite (aes_NewCipher_valid _ Hlen); reflexivity.
Qed.

(** [encrypt] and [decrypt] look at the data before the key: an error of
    the type switch (for [encrypt] an unsupported type or a reader that
    fails, for [decrypt] a string that is not base64 or a reader that
    fails) is returned whatever the key is. For all other data, a key
    that is not valid base64, or that decodes to a length other than 16,
    24 or 32 bytes, makes both fail with the decoder's error, respectively
    with the key-size error of that length; in [decrypt] this comes
    before the check of the length of the ciphertext. *)
Theorem encrypt_decrypt_bad_key {aead : AEAD} (rnd : nat -> byte) (K A : string) :
  (forall v, encrypt rnd v K A
             = match plaintextOf v with
               | inl e => inl e
               | inr p => encrypt rnd (VBytes p) K A
               end)
  /\ (forall v, decrypt v K A
                = match ciphertextOf v with
                  | inl e => inl e
                  | inr c => decrypt (VBytes c) K A
                  end)
  /\ (forall v e, plaintextOf v = inl e -> encrypt rnd v K A = inl e)
  /\ (forall v e, ciphertextOf v = inl e -> decrypt v K A = inl e)
  /\ (forall e, base64_DecodeString K = inl e ->
        (forall v p, plaintextOf v = inr p -> encrypt rnd v K A = inl e)
        /\ (forall v c, ciphertextOf v = inr c -> decrypt v K A = inl e))
  /\ (forall key, base64_DecodeString K = inr key -> validKeyLen (length key) = false ->
        (forall v p, plaintextOf v = inr p ->
           encrypt rnd v K A = inl (ErrKeySize (length key)))
        /\ (forall v c, ciphertextOf v = inr c ->
              decrypt v K A = inl (ErrKeySize (length key)))).
Proof.
  assert (He : forall v, encrypt rnd v K A
                         = match plaintextOf v with
                           | inl e => inl e
                           | inr p => encrypt rnd (VBytes p) K A
                           end).
  { intros v. unfold encrypt, plaintextOf.
    destruct v as [t|t|[e|c]|z|b|ty]; reflexivity. }
  assert (Hd : forall v, decrypt v K A
                         = match ciphertextOf v with
                           | inl e => inl e
                           | inr c => decrypt (VBytes c) K A
                           end).
  { intros v. unfold decrypt, ciphertextOf.
    destruct v as [t|t|[e|c]|z|b|ty]; reflexivity. }
  split; [exact He|]. split; [exact Hd|].
  split; [intros v e Hv; by rewrite He, Hv|].
  split; [intros v e Hv; by rewrite Hd, Hv|].
  split.
  - intros e HK. split.
    + intros v p Hv. rewrite He, Hv. unfold encrypt. simpl. by rewrite HK.
    + intros v c Hv. rewrite Hd, Hv. unfold decrypt. simpl. by rewrite HK.
  - intros key HK Hlen. split.
    + intros v p Hv. rewrite He, Hv. unfold encrypt, aes_NewCipher. simpl.
      rewrite HK. simpl. by rewrite Hlen.
    + intros v c Hv. rewrite Hd, Hv. unfold decrypt, aes_NewCipher. simpl.
      rewrite HK. simpl. by rewrite Hlen.
Qed.

Lemma HasPrefix_bar_false (s what : string) :
  HasPrefix what "|" = false -> forall TX : Text, is_ s what = String.eqb s what.
Proof. intros Hp TX. unfold is_. by rewrite Hp. Qed.

(** [is_] with a predicate that does not begin with "|" is the equality
    of the two strings; "|b" and "|bool" hold exactly of the strings "true"
    and "false" (not of the other spellings [strconv.ParseBool] accepts);
    the short and the long name of each predicate agree on every string. *)
Theorem is_literal_bool_and_aliases {TX : Text} (s : string) :
  (forall what, HasPrefix what "|" = false ->
     is_ s what = String.eqb s what /\ (is_ s what = true <-> s = what))
  /\ (is_ s "|bool" = true <-> s = "true" \/ s = "false")
  /\ is_ s "|b" = is_ s "|bool"
  /\ is_ s "|u" = is_ s "|upper" /\ is_ s "|l" = is_ s "|lower"
  /\ is_ s "|i" = is_ s "|int" /\ is_ s "|f" = is_ s "|float"
  /\ is_ s "|f32" = is_ s "|float32".
Proof.
  split; [|split; [|repeat split; reflexivity]].
  - intros what Hp. rewrite (HasPrefix_bar_false s what Hp TX).
    split; [reflexivity | apply String.eqb_eq].
  - change (is_ s "|bool")
      with (negb (negb (String.eqb s "true") && negb (String.eqb s "false"))).
    destruct (String.eqb_spec s "true") as [->|Ht]; simpl; [by intuition|].
    destruct (String.eqb_spec s "false") as [->|Hf]; simpl; [by intuition|].
    split; [discriminate | by intros [?|?]].
Qed.

(** [math] fails on every operator it has no case for, with an error that
    names the operator, whatever the operands; "*", which the description
    of math in the registry lists, is such an operator (multiplication is
    "x" or "mul"). *)
Theorem math_unsupported_operator {AR : Arith} {TX : Text} (b a : Value) (x : string) :
  ~ In x mathOperators ->
  math b a x = inl (Errorf ("unsupported method " +:+ x))
  /\ Error (Errorf ("unsupported method " +:+ x)) = "unsupported method " +:+ x.
Proof.
  intros Hx. split; [|reflexivity]. unfold math.
  assert (Hne : forall p, In p mathOperators -> String.eqb x p = false).
  { intros p Hp. apply String.eqb_neq. intros ->. by apply Hx. }
  cbn [existsb].
  rewrite !Hne by (unfold mathOperators; simpl; tauto). reflexivity.
Qed.

(** [_gunzip] undoes [_gzip]: the compressed form of a string, a byte
    sequence or the content of a reader decompresses, given as a byte
    sequence or through a reader, to the original bytes. Given as a string,
    compressed data must be base64-encoded: [_gunzip] decodes a string
    argument first and fails with the decoder's error on what is not
    base64. *)
Theorem gunzip_gzip {GZ : Gzip} (v : Value) (b : list byte) :
  v = VBytes b \/ v = VReader (inr b) \/ (exists s, v = VString s /\ b = list_byte_of_string s) ->
  _gzip v = inr (Compress b)
  /\ _gunzip (VBytes (Compress b)) = inr b
  /\ _gunzip (VReader (inr (Compress b))) = inr b
  /\ (forall s e, b64dec (VString s) = inl e -> _gunzip (VString s) = inl e)
  /\ (forall s z, b64dec (VString s) = inr z -> _gunzip (VString s) = _gunzip (VBytes z)).
Proof.
  intros Hv.
  split; [destruct Hv as [-> | [-> | (s & -> & ->)]]; reflexivity|].
  split; [unfold _gunzip; simpl; apply Decompress_Compress|].
  split; [unfold _gunzip; simpl; apply Decompress_Compress|].
  split.
  - intros s e Hs. unfold _gunzip. by rewrite Hs.
  - intros s z Hs. unfold _gunzip. by rewrite Hs.
Qed.

Lemma unsupported_argument_type_witness :
  hexenc (VInt 42) = inl (ErrInvalidArgument "int" "string or []byte")
  /\ decrypt (aead := tagOnly) (VInt 42) "AAAAAAAAAAAAAAAAAAAAAA==" "" = inl ErrUnexpectedEOF.
Proof.
  destruct (unsupported_argument_type (aead := tagOnly) (GZ := storeOnly) (TX := asciiText)
              countingRnd (VInt 42) "AAAAAAAAAAAAAAAAAAAAAA==" "" eq_refl)
    as (He & _ & _ & _ & _ & _ & _ & Hd).
  split; [exact He|].
  exact (Hd _ (proj1 zeroKey_valid) (proj2 zeroKey_valid)).
Defined.

(** Runs: a key of three bytes and a key that is not base64, on data that
    are read; data that are not read, with the same bad key. *)
Lemma encrypt_decrypt_bad_key_witness :
  encrypt (aead := tagOnly) countingRnd (VString "hi") "AAAA" "" = inl (ErrKeySize 3)
  /\ decrypt (aead := tagOnly) (VInt 1) "AAAA" "" = inl (ErrKeySize 3)
  /\ decrypt (aead := tagOnly) (VString "aGk=") "?" "" = inl (ErrBase64Corrupt 0)
  /\ decrypt (aead := tagOnly) (VString "AAA!") "?" "" = inl (ErrBase64Corrupt 3)
  /\ encrypt (aead := tagOnly) countingRnd (VInt 1) "?" ""
     = inl (ErrInvalidArgument "int" "string or []byte").
Proof.
  destruct (encrypt_decrypt_bad_key (aead := tagOnly) countingRnd "AAAA" "")
    as (_ & _ & _ & _ & _ & Hsize).
  destruct (encrypt_decrypt_bad_key (aead := tagOnly) countingRnd "?" "")
    as (_ & _ & Hpe & Hce & Hb64 & _).
  destruct (Hsize (repeat "000"%byte 3) eq_refl eq_refl) as [He Hd].
  split; [exact (He (VString "hi") _ eq_refl)|].
  split; [exact (Hd (VInt 1) _ eq_refl)|].
  split; [exact (proj2 (Hb64 (ErrBase64Corrupt 0) eq_refl) (VString "aGk=") _ eq_refl)|].
  split; [exact (Hce (VString "AAA!") _ eq_refl)|].
  exact (Hpe (VInt 1) _ eq_refl).
Defined.

Lemma is_literal_bool_and_aliases_witness :
  is_ (TX := asciiText) "abc" "abc" = true /\ is_ (TX := asciiText) "1" "|bool" = false.
Proof.
  destruct (is_literal_bool_and_aliases (TX := asciiText) "abc") as (Hlit & _).
  destruct (is_literal_bool_and_aliases (TX := asciiText) "1") as (_ & Hbool & _).
  split.
  - apply (proj2 (Hlit "abc" eq_refl)). reflexivity.
  - destruct (is_ (TX := asciiText) "1" "|bool") eqn:Hb; [|reflexivity].
    destruct (proj1 Hbool eq_refl) as [H|H]; discriminate H.
Defined.

Lemma math_unsupported_operator_witness :
  math (AR := firstArg) (VInt 6) (VInt 7) "*" = inl (Errorf "unsupported method *").
Proof.
  refine (proj1 (math_unsupported_operator (AR := firstArg) (TX := asciiText)
                   (VInt 6) (VInt 7) "*" _)).
  unfold mathOperators. simpl. intros Hin.
  repeat (destruct Hin as [Hin|Hin]; [discriminate Hin|]). exact Hin.
Defined.

Lemma gunzip_gzip_witness :
  _gzip (GZ := storeOnly) (VString "hi")
  = inr (@Compress storeOnly (list_byte_of_string "hi"))
  /\ _gunzip (GZ := storeOnly) (VBytes (@Compress storeOnly (list_byte_of_string "hi")))
     = inr (list_byte_of_string "hi").
Proof.
  destruct (gunzip_gzip (GZ := storeOnly) (VString "hi") (list_byte_of_string "hi"))
    as (Hz & Hu & _).
  - right. right. by exists "hi".
  - split; [exact Hz | exact Hu].
Defined.

(** *** Package main: the unsafe default, the data, the template executed *)

Lemma existsb_eqb_In (x : string) (l : list string) :
  existsb (String.eqb x) l = true <-> In x l.
Proof.
  rewrite existsb_exists. split.
  - intros (y & Hy & ->%String.eqb_eq). exact Hy.
  - intros Hin. exists x. split; [exact Hin | apply String.eqb_refl].
Qed.

(** The unsafe functions are off by default: [unsafeMode] is true exactly
    when XPRINT_UNSAFE is set to one of 1, t, T, true, TRUE, True; unset,
    empty or set to anything else it is false. *)
Theorem unsafeMode_default_off (environ : gmap string string) :
  unsafeMode environ = true
  <-> exists v, environ !! "XPRINT_UNSAFE" = Some v
                /\ In v ["1"; "t"; "T"; "true"; "TRUE"; "True"].
Proof.
  unfold unsafeMode, ParseBool.
  destruct (environ !! "XPRINT_UNSAFE") as [v|] eqn:Hv; simpl default.
  - destruct (existsb (String.eqb v) ["1"; "t"; "T"; "true"; "TRUE"; "True"]) eqn:Ht.
    + split; [|done]. intros _. exists v. split; [done|]. by apply existsb_eqb_In.
    + assert (Hnot : ~ In v ["1"; "t"; "T"; "true"; "TRUE"; "True"]).
      { intros Hin%existsb_eqb_In. congruence. }
      assert (Hfalse : match (if existsb (String.eqb v)
                                   ["0"; "f"; "F"; "false"; "FALSE"; "False"]
                              then inr false else inl (ErrParseBool v) : result bool) with
                       | inl _ => false
                       | inr envvar => envvar
                       end = false).
      { by destruct (existsb (String.eqb v) ["0"; "f"; "F"; "false"; "FALSE"; "False"]). }
      rewrite Hfalse. split; [discriminate|].
      intros (v' & Hv' & Hin). injection Hv' as <-. by destruct Hnot.
  - split; [discriminate|]. by intros (v & ? & _).
Qed.

Lemma to_uint_nonnil (n : nat) : Nat.to_uint n <> Decimal.Nil.
Proof.
  rewrite <- (DecimalNat.Unsigned.of_to n) at 1. rewrite DecimalNat.Unsigned.to_of.
  unfold Decimal.unorm. destruct (Decimal.nzhead _); discriminate.
Qed.

Lemma Itoa_inj (n m : nat) : Itoa n = Itoa m -> n = m.
Proof.
  unfold Itoa. intros Heq. apply DecimalNat.Unsigned.to_uint_inj.
  assert (Hn := NilZero.usu _ (to_uint_nonnil n)).
  assert (Hm := NilZero.usu _ (to_uint_nonnil m)).
  rewrite Heq in Hn. congruence.
Qed.

Lemma argKey_inj (n m : nat) : "arg" +:+ Itoa n = "arg" +:+ Itoa m -> n = m.
Proof. intros Heq. apply Itoa_inj. by apply (inj (String.append "arg")) in Heq. Qed.

Lemma concat_empty_app (l1 l2 : list string) :
  String.concat "" (l1 ++ l2) = String.concat "" l1 +:+ String.concat "" l2.
Proof.
  induction l1 as [|x l1 IH]; [reflexivity|].
  change ((x :: l1) ++ l2) with (x :: (l1 ++ l2)).
  by rewrite !concat_empty_cons, IH, append_assoc.
Qed.

Lemma appendData_from_spec (args : list string) (n : nat)
    (dat : gmap string string) (idx : list string) :
  (appendData_from n args (dat, idx)).2
  = idx ++ map (fun i => "arg" +:+ Itoa i) (seq n (length args))
  /\ (forall i s, args !! i = Some s ->
        (appendData_from n args (dat, idx)).1 !! ("arg" +:+ Itoa (n + i)) = Some s)
  /\ (forall k, (forall j, n <= j < n + length args -> k <> "arg" +:+ Itoa j) ->
        (appendData_from n args (dat, idx)).1 !! k = dat !! k).
Proof.
  revert n dat idx. induction args as [|s args IH]; intros n dat idx; cbn [appendData_from].
  - simpl. rewrite app_nil_r. split; [done|]. split; [|done]. intros i s'. by destruct i.
  - destruct (IH (S n) (<["arg" +:+ Itoa n := s]> dat) (idx ++ ["arg" +:+ Itoa n]))
      as (Hidx & Hget & Hother).
    simpl fst in *. simpl snd in *.
    split; [by rewrite Hidx, <- app_assoc|]. split.
    + intros [|i] s' Hi.
      * injection Hi as ->. rewrite Nat.add_0_r, Hother.
        -- apply lookup_insert_eq.
        -- intros j Hj Heq%argKey_inj. lia.
      * replace (n + S i) with (S n + i) by lia. by apply Hget.
    + intros k Hk. rewrite Hother by (intros j Hj; apply Hk; simpl; lia).
      apply lookup_insert_ne. intros Heq. apply (Hk n); [simpl; lia | done].
Qed.

Lemma echo_appendData (args : list string) (n : nat)
    (dat : gmap string string) (idx : list string) :
  (forall k, In k idx -> forall j, n <= j -> k <> "arg" +:+ Itoa j) ->
  echoData (appendData_from n args (dat, idx))
  = echoData (dat, idx) +:+ String.concat "" args.
Proof.
  revert n dat idx. induction args as [|s args IH]; intros n dat idx Hidx;
    cbn [appendData_from].
  - simpl. by rewrite append_empty_r.
  - simpl fst. simpl snd. rewrite IH.
    + unfold echoData. simpl fst. simpl snd.
      rewrite map_app, concat_empty_app, concat_empty_cons, append_assoc. cbn [map].
      rewrite lookup_insert_eq. simpl default.
      rewrite concat_empty_cons. change (String.concat "" []) with "".
      rewrite append_empty_r. f_equal. f_equal. apply map_ext_in.
      intros k Hk. rewrite lookup_insert_ne; [done|].
      intros Heq. by apply (Hidx k Hk n).
    + intros k Hk%in_app_or j Hj. destruct Hk as [Hk|[<-|[]]].
      * apply Hidx; [done | lia].
      * intros Heq%argKey_inj. lia.
Qed.

(** [appendData] stores the arguments under the keys arg0, arg1, ... in
    order: the n-th argument is found under "arg<n>", the keys are added to
    the index in that order, and every key other than these keeps what was
    stored under it, or stays absent. Without templates the output is
    therefore the standard input followed by the arguments, or the
    arguments followed by the standard input under -a, joined without
    separator. *)
Theorem appendData_keys_and_echo (args : list string) :
  (forall (dat : gmap string string) (idx : list string),
      let keys := map (fun i => "arg" +:+ Itoa i) (seq 0 (length args)) in
      (appendData args (dat, idx)).2 = idx ++ keys
      /\ (forall i s, args !! i = Some s ->
            (appendData args (dat, idx)).1 !! ("arg" +:+ Itoa i) = Some s)
      /\ (forall k, ~ In k keys -> (appendData args (dat, idx)).1 !! k = dat !! k)
      /\ (appendData args (dat, idx)).1 !! "stdin" = dat !! "stdin")
  /\ (forall stdin : option string,
        echoData (initData false stdin args) = default "" stdin +:+ String.concat "" args
        /\ echoData (initData true stdin args) = String.concat "" args +:+ default "" stdin).
Proof.
  split.
  - intros dat idx keys. unfold appendData.
    destruct (appendData_from_spec args 0 dat idx) as (Hidx & Hget & Hother).
    split; [exact Hidx|]. split; [exact Hget|]. split.
    + intros k Hk. apply Hother. intros j Hj ->. apply Hk. subst keys.
      apply in_map_iff. exists j. split; [done|]. apply in_seq. lia.
    + apply Hother. intros j _. discriminate.
  - intros stdin. split.
    + unfold initData, appendData. destruct stdin as [b|]; simpl.
      * rewrite echo_appendData.
        -- unfold echoData. simpl. by rewrite lookup_insert_eq.
        -- intros k [<-|[]] j _. discriminate.
      * rewrite echo_appendData by (intros k []). reflexivity.
    + unfold initData, appendData.
      assert (Hecho : echoData (appendData_from 0 args (∅, [])) = String.concat "" args).
      { rewrite echo_appendData by (intros k []). reflexivity. }
      destruct (appendData_from_spec args 0 ∅ []) as (Hidx & _ & _).
      destruct (appendData_from 0 args (∅, [])) as [dat idx] eqn:Hst.
      simpl snd in Hidx. destruct stdin as [b|]; simpl.
      * rewrite <- Hecho. unfold echoData. simpl fst. simpl snd.
        rewrite map_app, concat_empty_app. cbn [map].
        rewrite lookup_insert_eq. simpl default. rewrite concat_empty_cons.
        change (String.concat "" []) with "". rewrite append_empty_r.
        f_equal. f_equal. apply map_ext_in. intros k Hk.
        rewrite lookup_insert_ne; [done|]. intros <-.
        rewrite Hidx in Hk. simpl in Hk. apply in_map_iff in Hk as (j & Hj & _).
        discriminate.
      * rewrite <- Hecho. by rewrite append_empty_r.
Qed.

Lemma cliTemplates_from_files (ts : list (string * bool)) (n : nat)
    (acc : gmap string string * list string) :
  (cliTemplates_from n ts acc).2 = acc.2 ++ map fst (List.filter snd ts).
Proof.
  revert n acc. induction ts as [|[s isFile] ts IH]; intros n acc; cbn [cliTemplates_from].
  - simpl. by rewrite app_nil_r.
  - rewrite IH. destruct isFile; simpl.
    + by rewrite <- app_assoc.
    + by destruct (0 <? String.length s)%nat.
Qed.

Section Cli.
Context {data : Type} {E : Engine data} {MO : MapOrder}.

(** When the command line has a -f file, [main] executes the template of
    the first file given (under its base name), wherever it stands among
    the options and whatever -t templates come before or after it; the
    local files are taken in the order of the command line. *)
Theorem cli_executes_first_file (rnd : nat -> byte) (cfg : Config)
    (pre rest : list (string * bool)) (f : string) (d : data)
    (tpl : Template data) (names : list string) :
  Forall (fun o => o.2 = false) pre ->
  BuildTemplate (fsys cfg) (FnMap (typeString cfg)) (EnableUnsafeFunctions cfg)
    (hex_EncodeToString (Random rnd 12)) ""
    (cliTemplates (pre ++ (f, true) :: rest)).1
    (cliTemplates (pre ++ (f, true) :: rest)).2 = inr (tpl, names) ->
  (cliTemplates (pre ++ (f, true) :: rest)).2 = f :: map fst (List.filter snd rest)
  /\ cliRender rnd cfg (pre ++ (f, true) :: rest) d = ExecuteTemplate tpl (path_Base f) d.
Proof.
  intros Hpre Hb.
  assert (Hfiles : (cliTemplates (pre ++ (f, true) :: rest)).2
                   = f :: map fst (List.filter snd rest)).
  { assert (Hnil : List.filter snd pre = []).
    { clear Hb. induction Hpre as [|[s b] pre Hs _ IH]; [reflexivity|].
      simpl in Hs. subst b. exact IH. }
    unfold cliTemplates. rewrite cliTemplates_from_files.
    rewrite List.filter_app, Hnil. reflexivity. }
  split; [exact Hfiles|].
  unfold cliRender. destruct (cliTemplates (pre ++ (f, true) :: rest)) as [aT lT] eqn:Hc.
  simpl fst in *. simpl snd in *. rewrite Hb. simpl.
  apply BuildTemplate_inr in Hb as (_ & -> & _). rewrite Hfiles. reflexivity.
Qed.
End Cli.

Lemma unsafeMode_default_off_witness :
  unsafeMode {["XPRINT_UNSAFE" := "true"]} = true /\ unsafeMode ∅ = false
  /\ unsafeMode {["XPRINT_UNSAFE" := "yes"]} = false.
Proof.
  split; [|split; reflexivity].
  apply (proj2 (unsafeMode_default_off {["XPRINT_UNSAFE" := "true"]})).
  exists "true". split; [reflexivity|]. simpl. tauto.
Defined.

Lemma appendData_keys_and_echo_witness :
  echoData (initData false (Some "in:") ["a"; "b"]) = "in:ab"
  /\ echoData (initData true (Some "in:") ["a"; "b"]) = "abin:"
  /\ (appendData ["a"; "b"] ({["arg7" := "kept"]}, [])).1 !! "arg7" = Some "kept".
Proof.
  destruct (proj2 (appendData_keys_and_echo ["a"; "b"]) (Some "in:")) as [H1 H2].
  pose proof (proj1 (appendData_keys_and_echo ["a"; "b"]) {["arg7" := "kept"]} []) as H.
  cbv zeta in H. destruct H as (_ & _ & Hother & _).
  split; [exact H1|]. split; [exact H2|].
  rewrite Hother; [reflexivity|].
  simpl. intros [H|[H|[]]]; discriminate H.
Defined.

Lemma cli_executes_first_file_witness :
  cliRender (E := literalEngine Value) countingRnd
    (mkConfig false false (fun _ => "func()") (fun _ => "") "" twoFiles)
    [("inline", false); ("a.tpl", true); ("b.tpl", true)] (VOther "<nil>")
  = inr (list_byte_of_string ("A" +:+ LF)).
Proof.
  assert (Hb : BuildTemplate (E := literalEngine Value) twoFiles (FnMap (fun _ => "func()"))
                 false (hex_EncodeToString (Random countingRnd 12)) ""
                 (cliTemplates ([("inline", false)] ++ ("a.tpl", true) :: [("b.tpl", true)])).1
                 (cliTemplates ([("inline", false)] ++ ("a.tpl", true) :: [("b.tpl", true)])).2
               = inr (mkTemplate (E := literalEngine Value) "opt0"
                        (<["opt0" := "inline"]> (<["b.tpl" := "B" +:+ LF]>
                           (<["a.tpl" := "A" +:+ LF]> ∅)))
                        (BuildFuncMap (FnMap (fun _ => "func()")) false ∪ ∅),
                      ["a.tpl"; "b.tpl"; "opt0"]))
    by (vm_compute; reflexivity).
  etrans.
  - exact (proj2 (cli_executes_first_file (E := literalEngine Value) countingRnd
             (mkConfig false false (fun _ => "func()") (fun _ => "") "" twoFiles)
             [("inline", false)] [("b.tpl", true)] "a.tpl" (VOther "<nil>") _ _
             ltac:(by repeat constructor) Hb)).
  - vm_compute. reflexivity.
Defined.

(** *** [fload] on plain files, base names *)

Lemma scanLines_line (rerr : option error) (l data cur : string) :
  forallb (fun c => negb (Ascii.eqb c "010")) (list_ascii_of_string l) = true ->
  scanLines rerr (l +:+ data) cur = scanLines rerr data (cur +:+ l).
Proof.
  revert cur. induction l as [|c l IH]; intros cur Hl.
  - by rewrite append_empty_r.
  - simpl in Hl. apply andb_prop in Hl as [Hc Hl].
    change (String c l +:+ data) with (String c (l +:+ data)). cbn [scanLines].
    destruct (Ascii.eqb c "010"); [discriminate|].
    rewrite IH by done. by rewrite append_assoc.
Qed.

Lemma scanLines_clean (lines : list string) :
  Forall (fun l => cleanLine l = true) lines ->
  scanLines None (String.concat "" (map (fun l => l +:+ LF) lines)) "" = (lines, None).
Proof.
  induction 1 as [|l lines Hl _ IH]; [reflexivity|].
  cbn [map]. rewrite concat_empty_cons, append_assoc.
  unfold cleanLine in Hl.
  apply andb_prop in Hl as [[[Hnl Hcr]%andb_prop Hlong]%andb_prop Hpre].
  rewrite scanLines_line by done.
  change (LF +:+ ?x) with (String "010" x). cbn [scanLines].
  change (Ascii.eqb "010" "010") with true. cbv iota.
  change ("" +:+ l) with l.
  apply negb_true_iff in Hlong. rewrite Hlong, IH.
  by apply String.eqb_eq in Hcr as ->.
Qed.

Lemma filter_all_clean (lines : list string) :
  Forall (fun l => cleanLine l = true) lines ->
  filter (fun t => HasPrefix t "#!" = false) lines = lines.
Proof.
  induction 1 as [|l lines Hl _ IH]; [reflexivity|].
  rewrite filter_cons_True, IH; [done|].
  unfold cleanLine in Hl. apply andb_prop in Hl as [_ Hpre]. by apply negb_true_iff.
Qed.

(** A file made of lines that end in a newline, none of which has a final
    carriage return, fills the scanner's buffer or begins with "#!", is
    loaded as it is. *)
Theorem fload_plain_file (fs : FS) (p : string) (lines : list string) :
  fs p = inr (String.concat "" (map (fun l => l +:+ LF) lines), None) ->
  Forall (fun l => cleanLine l = true) lines ->
  fload fs p = (String.concat "" (map (fun l => l +:+ LF) lines), None).
Proof.
  intros Hfs Hclean. unfold fload. rewrite Hfs. simpl fmap.
  change (ErrExternal <$> None) with (@None error).
  rewrite (scanLines_clean lines Hclean), fload_loop_filter.
  by rewrite (filter_all_clean lines Hclean).
Qed.

Lemma fload_plain_file_witness :
  fload (fun _ => inr ("hello {{.n}}" +:+ LF +:+ "bye" +:+ LF, None)) "t.tpl"
  = ("hello {{.n}}" +:+ LF +:+ "bye" +:+ LF, None).
Proof.
  apply (fload_plain_file (fun _ => inr ("hello {{.n}}" +:+ LF +:+ "bye" +:+ LF, None))
           "t.tpl" ["hello {{.n}}"; "bye"]).
  - reflexivity.
  - repeat constructor.
Defined.

Lemma takeWhile_all {A} (f : A -> bool) (l : list A) :
  forallb f l = true -> takeWhile f l = l.
Proof.
  induction l as [|x l IH]; [reflexivity|]. simpl.
  intros [Hx Hl]%andb_prop. by rewrite Hx, IH.
Qed.

Lemma takeWhile_forallb {A} (f : A -> bool) (l : list A) :
  forallb f (takeWhile f l) = true.
Proof.
  induction l as [|x l IH]; [reflexivity|]. simpl.
  destruct (f x) eqn:Hx; [simpl; by rewrite Hx | reflexivity].
Qed.

Lemma list_ascii_of_string_inj_nil (s : string) :
  list_ascii_of_string s = [] -> s = "".
Proof. destruct s; [reflexivity | discriminate]. Qed.

(** [path.Base] of a base name is that name: taking the base twice changes
    nothing, the base is never empty, and it has no slash unless it is "/"
    itself. *)
Lemma path_Base_cases (p : string) :
  path_Base p = "." \/ path_Base p = "/"
  \/ exists c last, path_Base p = string_of_list_ascii (c :: last)
                    /\ forallb (fun c => negb (isSlash c)) (c :: last) = true.
Proof.
  unfold path_Base. destruct (String.eqb p ""); [by left|].
  set (stripped := dropWhile isSlash (rev (list_ascii_of_string p))).
  pose proof (takeWhile_forallb (fun c => negb (isSlash c)) stripped) as Hall.
  destruct (rev (takeWhile (fun c => negb (isSlash c)) stripped)) as [|c last] eqn:Hlast.
  { right. by left. }
  right. right. exists c, last. split; [reflexivity|].
  rewrite <- Hlast. rewrite forallb_forall in *.
  intros x Hx. apply Hall. by apply in_rev.
Qed.

Lemma path_Base_idempotent (p : string) :
  path_Base (path_Base p) = path_Base p
  /\ path_Base p <> ""
  /\ (path_Base p = "/"
      \/ forallb (fun c => negb (isSlash c)) (list_ascii_of_string (path_Base p)) = true).
Proof.
  destruct (path_Base_cases p) as [-> | [-> | (c & last & -> & Hns)]].
  - split; [reflexivity | split; [discriminate | by right]].
  - split; [reflexivity | split; [discriminate | by left]].
  - assert (Hrev : forallb (fun c => negb (isSlash c)) (rev (c :: last)) = true).
    { rewrite forallb_forall in *. intros x Hx. apply Hns. by apply in_rev. }
    split; [|split].
    + unfold path_Base. simpl String.eqb. cbv iota.
      rewrite list_ascii_of_string_of_list_ascii.
      assert (Hdrop : dropWhile isSlash (rev (c :: last)) = rev (c :: last)).
      { destruct (rev (c :: last)) as [|x r] eqn:Hr; [reflexivity|].
        simpl in Hrev. apply andb_prop in Hrev as [Hx _]. simpl.
        by apply negb_true_iff in Hx as ->. }
      rewrite Hdrop, (takeWhile_all _ _ Hrev), rev_involutive. reflexivity.
    + discriminate.
    + right. by rewrite list_ascii_of_string_of_list_ascii.
Qed.

(** Every name in the list a successful [BuildTemplate] returns is a base
    name: non-empty, equal to its own [path.Base], and without a slash
    unless it is "/" itself. *)
Theorem BuildTemplate_names_are_base_names {data : Type} {E : Engine data} {MO : MapOrder}
    (fs : FS) (t : templeFnMap) (_unsafe : bool) (name _template : string)
    (loadedFiles : gmap string string) (localFiles : list string)
    (tpl : Template data) (names : list string) :
  BuildTemplate fs t _unsafe name _template loadedFiles localFiles = inr (tpl, names) ->
  Forall (fun n => path_Base n = n /\ n <> ""
                   /\ (n = "/" \/ forallb (fun c => negb (isSlash c))
                                      (list_ascii_of_string n) = true)) names.
Proof.
  intros Hb. apply BuildTemplate_inr in Hb as (_ & -> & _).
  assert (Hbase : forall p, let n := path_Base p in
            path_Base n = n /\ n <> ""
            /\ (n = "/" \/ forallb (fun c => negb (isSlash c))
                             (list_ascii_of_string n) = true)).
  { intros p. apply path_Base_idempotent. }
  rewrite !Forall_app. split; [|split].
  - destruct (String.eqb _template ""); [constructor|].
    apply Forall_cons. split; [apply Hbase | constructor].
  - apply Forall_forall. intros n (p & <- & _)%list_elem_of_In%in_map_iff. apply Hbase.
  - apply Forall_forall. intros n (p & <- & _)%list_elem_of_In%in_map_iff. apply Hbase.
Qed.

Lemma BuildTemplate_names_are_base_names_witness :
  Forall (fun n => path_Base n = n /\ n <> ""
                   /\ (n = "/" \/ forallb (fun c => negb (isSlash c))
                                      (list_ascii_of_string n) = true))
         ["post"; "t.tpl"; "t.tpl"].
Proof.
  refine (BuildTemplate_names_are_base_names (E := literalEngine Value) oneFile
            (FnMap (fun _ => "func()")) false "post" "hi" {["x/t.tpl" := "frag"]}
            ["/srv/t.tpl"]
            (mkTemplate (E := literalEngine Value) "t.tpl"
               (<["t.tpl" := "frag"]> (<["post" := "hi"]> ∅))
               (BuildFuncMap (FnMap (fun _ => "func()")) false ∪ ∅))
            ["post"; "t.tpl"; "t.tpl"] _).
  vm_compute. reflexivity.
Defined.

(* ------------------------------------------------------------------ *)
(** *** base64: encoding and decoding *)
(* ------------------------------------------------------------------ *)

Lemma eq_of_bits8 (x y : N) :
  (x < 256)%N -> (y < 256)%N ->
  (forall n, In n [0; 1; 2; 3; 4; 5; 6; 7]%N -> N.testbit x n = N.testbit y n) -> x = y.
Proof.
  intros Hx Hy H. apply N.bits_inj. intros n.
  destruct (N.lt_ge_cases n 8) as [Hn|Hn].
  - apply H. simpl.
    assert (n = 0 \/ n = 1 \/ n = 2 \/ n = 3 \/ n = 4 \/ n = 5 \/ n = 6 \/ n = 7)%N by lia.
    intuition.
  - rewrite !N.bits_above_log2; auto.
    + destruct y; [simpl; lia|]. apply N.lt_le_trans with 8%N; [|lia].
      apply N.log2_lt_pow2; simpl; lia.
    + destruct x; [simpl; lia|]. apply N.lt_le_trans with 8%N; [|lia].
      apply N.log2_lt_pow2; simpl; lia.
Qed.

Lemma byte_high (a : byte) (k : N) : (8 <= k)%N -> N.testbit (Byte.to_N a) k = false.
Proof.
  intros Hk. destruct (N.eq_dec (Byte.to_N a) 0%N) as [->|Hz]; [apply N.bits_0|].
  apply N.bits_above_log2. apply N.lt_le_trans with 8%N; [|lia].
  apply N.log2_lt_pow2; [lia|]. pose proof (Byte.to_N_bounded a). simpl. lia.
Qed.

Ltac bits_step :=
  first [ rewrite N.land_spec | rewrite N.lor_spec | rewrite N.shiftr_spec'
        | rewrite N.shiftl_spec_high' by (vm_compute; discriminate)
        | rewrite N.shiftl_spec_low by (vm_compute; reflexivity) ].

Ltac bits_solve :=
  repeat bits_step;
  repeat match goal with
         | |- context [N.testbit _ ?k] =>
             let k' := eval vm_compute in k in progress change k with k'
         end;
  repeat match goal with
         | |- context [N.testbit (Byte.to_N ?x) ?k] =>
             rewrite (byte_high x k) by (vm_compute; discriminate)
         end;
  simpl;
  repeat match goal with
         | |- context [N.testbit (Byte.to_N ?x) ?k] => destruct (N.testbit (Byte.to_N x) k)
         end;
  reflexivity.

Ltac bits8 :=
  apply eq_of_bits8;
  [ change 255%N with (N.ones 8); rewrite N.land_ones; apply N.mod_lt; discriminate
  | match goal with |- (Byte.to_N ?a < _)%N => pose proof (Byte.to_N_bounded a); lia end
  | let n := fresh "n" in let Hn := fresh "Hn" in
    intros n Hn; simpl in Hn;
    repeat (destruct Hn as [<-|Hn]; [bits_solve|]); contradiction ].

Lemma quantum3 (a b c : byte) :
  let val := N.lor (N.lor (N.shiftl (Byte.to_N a) 16) (N.shiftl (Byte.to_N b) 8)) (Byte.to_N c) in
  let val' := N.lor (N.lor (N.shiftl (sextet val 18) 18) (N.shiftl (sextet val 12) 12))
                    (N.lor (N.shiftl (sextet val 6) 6) (sextet val 0)) in
  N.land (N.shiftr val' 16) 255 = Byte.to_N a
  /\ N.land (N.shiftr val' 8) 255 = Byte.to_N b
  /\ N.land val' 255 = Byte.to_N c.
Proof.
  intros val val'. unfold val', val, sextet. split; [|split]; bits8.
Qed.

Lemma quantum2 (a b : byte) :
  let val := N.lor (N.shiftl (Byte.to_N a) 16) (N.shiftl (Byte.to_N b) 8) in
  let val' := N.lor (N.lor (N.shiftl (sextet val 18) 18) (N.shiftl (sextet val 12) 12))
                    (N.lor (N.shiftl (sextet val 6) 6) 0) in
  N.land (N.shiftr val' 16) 255 = Byte.to_N a
  /\ N.land (N.shiftr val' 8) 255 = Byte.to_N b.
Proof.
  intros val val'. unfold val', val, sextet. split; bits8.
Qed.

Lemma quantum1 (a : byte) :
  let val := N.shiftl (Byte.to_N a) 16 in
  let val' := N.lor (N.lor (N.shiftl (sextet val 18) 18) (N.shiftl (sextet val 12) 12))
                    (N.lor (N.shiftl 0 6) 0)%N in
  N.land (N.shiftr val' 16) 255 = Byte.to_N a.
Proof.
  intros val val'. unfold val', val, sextet. bits8.
Qed.

Lemma byte_of_to_N (a : byte) : byte_of_N (Byte.to_N a) = a.
Proof. unfold byte_of_N. by rewrite Byte.of_to_N. Qed.

Lemma sextet_lt (val k : N) : (sextet val k < 64)%N.
Proof.
  unfold sextet. change 63%N with (N.ones 6). rewrite N.land_ones.
  apply N.mod_lt. discriminate.
Qed.

Lemma decodeMap_encodeStd (s : N) :
  (s < 64)%N -> b64_decodeMap (b64_encodeStd s) = Some s.
Proof.
  intros Hs.
  assert (Hall : forallb (fun i => match b64_decodeMap (b64_encodeStd i) with
                                   | Some j => N.eqb j i
                                   | None => false
                                   end) (map N.of_nat (seq 0 64)) = true)
    by (vm_compute; reflexivity).
  rewrite forallb_forall in Hall.
  specialize (Hall s). destruct (b64_decodeMap (b64_encodeStd s)) as [j|].
  - f_equal. apply N.eqb_eq, Hall. apply in_map_iff. exists (N.to_nat s).
    split; [lia|]. apply in_seq. lia.
  - discriminate Hall. apply in_map_iff. exists (N.to_nat s).
    split; [lia|]. apply in_seq. lia.
Qed.

Lemma b64_decodeFrom_cons padded total c rest si dbuf :
  b64_decodeFrom padded total (c :: rest) si dbuf =
  match b64_decodeMap c with
  | Some out =>
      if (length dbuf =? 3)%nat then
        let '(o, e) := b64_decodeFrom padded total rest (S si) [] in
        (quantumBytes (dbuf ++ [out]) ++ o, e)
      else b64_decodeFrom padded total rest (S si) (dbuf ++ [out])
  | None =>
      if isNewline c then b64_decodeFrom padded total rest (S si) dbuf
      else if negb (padded && isPad c) then ([], Some (ErrBase64Corrupt si))
      else
        match length dbuf with
        | 0 | 1 => ([], Some (ErrBase64Corrupt si))
        | 2 =>
            let '(rest', k) := skipNewlines rest in
            match rest' with
            | [] => ([], Some (ErrBase64Corrupt total))
            | c2 :: rest2 =>
                if isPad c2 then b64_afterPad rest2 (S (S si + k)) dbuf
                else ([], Some (ErrBase64Corrupt (S si + k - 1)))
            end
        | _ => b64_afterPad rest (S si) dbuf
        end
  end.
Proof. reflexivity. Qed.

Lemma quantumBytes_3 (a b c : byte) :
  let val := N.lor (N.lor (N.shiftl (Byte.to_N a) 16) (N.shiftl (Byte.to_N b) 8)) (Byte.to_N c) in
  quantumBytes [sextet val 18; sextet val 12; sextet val 6; sextet val 0] = [a; b; c].
Proof.
  intros val. destruct (quantum3 a b c) as (Ha & Hb & Hc).
  unfold quantumBytes. cbn [nth length firstn Nat.sub].
  subst val. rewrite Ha, Hb, Hc. by rewrite !byte_of_to_N.
Qed.

Lemma quantumBytes_2 (a b : byte) :
  let val := N.lor (N.shiftl (Byte.to_N a) 16) (N.shiftl (Byte.to_N b) 8) in
  quantumBytes [sextet val 18; sextet val 12; sextet val 6] = [a; b].
Proof.
  intros val. destruct (quantum2 a b) as (Ha & Hb).
  unfold quantumBytes. cbn [nth length firstn Nat.sub].
  subst val. rewrite Ha, Hb. by rewrite !byte_of_to_N.
Qed.

Lemma quantumBytes_1 (a : byte) :
  let val := N.shiftl (Byte.to_N a) 16 in
  quantumBytes [sextet val 18; sextet val 12] = [a].
Proof.
  intros val. pose proof (quantum1 a) as Ha.
  unfold quantumBytes. cbn [nth length firstn Nat.sub].
  subst val. rewrite Ha. by rewrite !byte_of_to_N.
Qed.

Ltac decode_sextet :=
  rewrite b64_decodeFrom_cons, decodeMap_encodeStd by apply sextet_lt;
  cbn [length app Nat.eqb].

Lemma b64_decodeFrom_Encode (padded : bool) (n : nat) :
  forall (src : list byte) (total si : nat),
    length src <= n ->
    b64_decodeFrom padded total (b64_Encode padded src) si [] = (src, None).
Proof.
  induction n as [|n IH]; intros src total si Hn.
  - destruct src; [reflexivity | simpl in Hn; lia].
  - destruct src as [|a [|b [|c rest]]].
    + reflexivity.
    + cbn [b64_Encode]. do 2 decode_sextet.
      destruct padded.
      * rewrite b64_decodeFrom_cons.
        change (b64_decodeMap padChar) with (@None N).
        change (isNewline padChar) with false.
        change (isPad padChar) with true.
        cbn [andb negb length skipNewlines].
        change (isNewline padChar) with false.
        change (isPad padChar) with true. cbn iota beta.
        unfold b64_afterPad. cbn [skipNewlines].
        by rewrite quantumBytes_1.
      * cbn [b64_decodeFrom length]. by rewrite quantumBytes_1.
    + cbn [b64_Encode]. do 3 decode_sextet.
      destruct padded.
      * rewrite b64_decodeFrom_cons.
        change (b64_decodeMap padChar) with (@None N).
        change (isNewline padChar) with false.
        change (isPad padChar) with true.
        cbn [andb negb length].
        unfold b64_afterPad. cbn [skipNewlines].
        by rewrite quantumBytes_2.
      * cbn [b64_decodeFrom length]. by rewrite quantumBytes_2.
    + cbn [b64_Encode]. do 4 decode_sextet.
      rewrite IH by (simpl in Hn; lia).
      by rewrite quantumBytes_3.
Qed.

Lemma base64_Decode_Encode (padded : bool) (src : list byte) :
  base64_Decode padded (b64_Encode padded src) = (src, None).
Proof. unfold base64_Decode. by apply (b64_decodeFrom_Encode padded (length src)). Qed.

Lemma b64_Encode_length (n : nat) :
  forall src : list byte,
    length src <= n -> length (b64_Encode true src) = b64_EncodedLen (length src).
Proof.
  unfold b64_EncodedLen.
  induction n as [|n IH]; intros src Hn.
  - destruct src; [reflexivity | simpl in Hn; lia].
  - destruct src as [|a [|b [|c rest]]]; try reflexivity.
    cbn [b64_Encode length]. rewrite IH by (simpl in Hn; lia).
    replace (S (S (S (length rest))) + 2) with (length rest + 2 + 1 * 3) by lia.
    rewrite Nat.div_add by lia. lia.
Qed.

(** [b64dec] inverts [b64enc] on strings and byte sequences: the text
    [b64enc] returns has the length [EncodedLen] announces (a multiple of
    four, padding included) and [b64dec] gives back the bytes that were
    encoded, from the text as a string and as a byte sequence. *)
Theorem b64dec_b64enc_roundtrip :
  (forall b : list byte,
      exists s, b64enc (VBytes b) = inr s
                /\ String.length s = b64_EncodedLen (length b)
                /\ b64dec (VString s) = inr b
                /\ b64dec (VBytes (list_byte_of_string s)) = inr b)
  /\ (forall t : string,
         exists s, b64enc (VString t) = inr s
                   /\ String.length s = b64_EncodedLen (String.length t)
                   /\ b64dec (VString s) = inr (list_byte_of_string t)).
Proof.
  split.
  - intros b. eexists. split; [reflexivity|]. split; [|split].
    + rewrite length_string_of_list_byte. by apply (b64_Encode_length (length b)).
    + cbn [b64dec]. rewrite list_byte_of_string_of_list_byte.
      by rewrite base64_Decode_Encode.
    + cbn [b64dec]. rewrite list_byte_of_string_of_list_byte.
      by rewrite base64_Decode_Encode.
  - intros t. eexists. split; [reflexivity|]. split.
    + rewrite length_string_of_list_byte.
      rewrite (b64_Encode_length (length (list_byte_of_string t))) by lia.
      f_equal. rewrite <- (length_string_of_list_byte (list_byte_of_string t)).
      by rewrite string_of_list_byte_of_string.
    + cbn [b64dec]. rewrite list_byte_of_string_of_list_byte.
      by rewrite base64_Decode_Encode.
Qed.

Lemma b64_Encode_app_blocks (padded : bool) (n : nat) :
  forall a b : list byte,
    length a = 3 * n ->
    b64_Encode padded (a ++ b) = b64_Encode padded a ++ b64_Encode padded b.
Proof.
  induction n as [|n IH]; intros a b Ha.
  - destruct a; [reflexivity | simpl in Ha; lia].
  - destruct a as [|x [|y [|z a]]]; simpl in Ha; try lia.
    change ((x :: y :: z :: a) ++ b) with (x :: y :: z :: (a ++ b)).
    cbn [b64_Encode]. rewrite IH by lia. reflexivity.
Qed.

Lemma encoder_interior_inv padded out p whole k :
  length whole = 3 * k -> out = b64_Encode padded whole ->
  encoder_inv padded (encoder_interior padded out p) (whole ++ p).
Proof.
  intros Hw ->. unfold encoder_interior.
  set (nn := length p / 3 * 3).
  assert (Hnn : nn <= length p /\ length p - nn < 3 /\ nn = 3 * (length p / 3))
    by (subst nn; pose proof (Nat.div_mod_eq (length p) 3);
        pose proof (Nat.mod_upper_bound (length p) 3); lia).
  exists (whole ++ firstn nn p), (k + length p / 3). cbn [ebuf eout].
  split; [by rewrite <- app_assoc, take_drop|].
  split; [rewrite length_app, length_take; lia|].
  split; [rewrite length_drop; lia|].
  symmetry. apply (b64_Encode_app_blocks padded k). exact Hw.
Qed.

Lemma encoder_Write_inv padded e all p :
  encoder_inv padded e all -> encoder_inv padded (encoder_Write padded e p) (all ++ p).
Proof.
  intros (whole & k & -> & Hw & Hb & Hout). unfold encoder_Write.
  destruct (0 <? length (ebuf e))%nat eqn:Hnb.
  - apply Nat.ltb_lt in Hnb.
    set (i := Nat.min (length p) (3 - length (ebuf e))).
    destruct (length (ebuf e ++ firstn i p) <? 3)%nat eqn:Hlt.
    + apply Nat.ltb_lt in Hlt. rewrite length_app, length_take in Hlt.
      assert (Hi : length p <= i) by (subst i; lia).
      exists whole, k. cbn [ebuf eout].
      rewrite (take_ge p i) by exact Hi.
      split; [by rewrite app_assoc|]. split; [exact Hw|].
      split; [|exact Hout].
      rewrite length_app. lia.
    + apply Nat.ltb_ge in Hlt. rewrite length_app, length_take in Hlt.
      assert (Hlen : length (ebuf e ++ firstn i p) = 3)
        by (rewrite length_app, length_take; subst i; lia).
      replace ((whole ++ ebuf e) ++ p)
        with ((whole ++ (ebuf e ++ firstn i p)) ++ skipn i p)
        by (rewrite <- !app_assoc; by rewrite take_drop).
      apply (encoder_interior_inv padded _ _ _ (k + 1)).
      * rewrite length_app. lia.
      * rewrite Hout. symmetry. by apply (b64_Encode_app_blocks padded k).
  - apply Nat.ltb_ge in Hnb.
    assert (Hnil : ebuf e = []) by (destruct (ebuf e); [reflexivity | simpl in Hnb; lia]).
    rewrite Hnil, app_nil_r.
    by apply (encoder_interior_inv padded _ _ _ k).
Qed.

Lemma encoder_foldl_inv padded chunks :
  forall e all,
    encoder_inv padded e all ->
    encoder_inv padded (foldl (encoder_Write padded) e chunks) (all ++ concat chunks).
Proof.
  induction chunks as [|p chunks IH]; intros e all Hinv.
  - simpl. by rewrite app_nil_r.
  - cbn [foldl concat]. rewrite app_assoc. apply IH. by apply encoder_Write_inv.
Qed.

Lemma encoder_inv_whole padded e all :
  encoder_inv padded e all ->
  eout e = b64_Encode padded (firstn (length all / 3 * 3) all)
  /\ ebuf e = skipn (length all / 3 * 3) all.
Proof.
  intros (whole & k & -> & Hw & Hb & Hout).
  assert (Hn : length (whole ++ ebuf e) / 3 * 3 = length whole).
  { rewrite length_app, Hw.
    replace (3 * k + length (ebuf e)) with (length (ebuf e) + k * 3) by lia.
    rewrite Nat.div_add by lia. rewrite (Nat.div_small _ 3) by lia. lia. }
  rewrite Hn. by rewrite take_app_length, drop_app_length.
Qed.

(** The stream encoder writes the encoding of the whole three-byte blocks
    of what it has been given and keeps the one or two bytes left over,
    whatever the pieces the content arrives in; so without a call of
    [Close] the output never has padding and never covers those bytes. *)
Theorem encoder_Copy_whole_blocks (padded : bool) (chunks : list (list byte)) :
  let all := concat chunks in
  let e := encoder_Copy padded chunks in
  eout e = b64_Encode padded (firstn (length all / 3 * 3) all)
  /\ ebuf e = skipn (length all / 3 * 3) all
  /\ length (ebuf e) = length all mod 3.
Proof.
  intros all e.
  assert (Hinv : encoder_inv padded e all).
  { apply (encoder_foldl_inv padded chunks newEncoder []).
    exists [], 0. cbn. repeat split; lia. }
  destruct (encoder_inv_whole _ _ _ Hinv) as [Ho Hb].
  split; [exact Ho|]. split; [exact Hb|].
  rewrite Hb, length_drop. pose proof (Nat.div_mod_eq (length all) 3). lia.
Qed.

Lemma b64_Encode_blocks_length (padded : bool) (k : nat) :
  forall l : list byte, length l = 3 * k -> length (b64_Encode padded l) = 4 * k.
Proof.
  induction k as [|k IH]; intros l Hl.
  - destruct l; [reflexivity | simpl in Hl; lia].
  - destruct l as [|x [|y [|z l]]]; simpl in Hl; try lia.
    cbn [b64_Encode length]. rewrite IH; lia.
Qed.

(** [b64enc] of a reader returns the unpadded encoding of the content
    without its last [len mod 3] bytes (the stream encoder is never
    closed): decoding the text as a reader gives back the content cut to a
    multiple of three bytes, hence the content itself exactly when its
    length is a multiple of three. *)
Theorem b64enc_reader_drops_incomplete_block (content : list byte) :
  exists s,
    b64enc (VReader (inr content)) = inr s
    /\ String.length s = length content / 3 * 4
    /\ b64dec (VReader (inr (list_byte_of_string s)))
       = inr (firstn (length content / 3 * 3) content)
    /\ (b64dec (VReader (inr (list_byte_of_string s))) = inr content
        <-> length content mod 3 = 0).
Proof.
  eexists. split; [reflexivity|].
  assert (Hinv : encoder_inv false (encoder_Copy false [content]) content).
  { pose proof (encoder_foldl_inv false [content] newEncoder []) as H.
    cbn [concat] in H. rewrite app_nil_r in H. apply H.
    exists [], 0. cbn. repeat split; lia. }
  destruct (encoder_inv_whole _ _ _ Hinv) as [Ho _]. rewrite Ho.
  assert (Hdec : b64dec (VReader (inr (list_byte_of_string (string_of_list_byte
                   (b64_Encode false (firstn (length content / 3 * 3) content))))))
                 = inr (firstn (length content / 3 * 3) content)).
  { cbn [b64dec]. rewrite list_byte_of_string_of_list_byte.
    by rewrite base64_Decode_Encode. }
  split; [|split; [exact Hdec|]].
  - rewrite length_string_of_list_byte.
    rewrite (b64_Encode_blocks_length false (length content / 3)); [lia|].
    rewrite length_take. pose proof (Nat.div_mod_eq (length content) 3). lia.
  - rewrite Hdec. split.
    + intros Heq.
      assert (Ht : firstn (length content / 3 * 3) content = content) by congruence.
      apply (f_equal length) in Ht. rewrite length_take in Ht.
      pose proof (Nat.div_mod_eq (length content) 3). lia.
    + intros Hm. f_equal. apply take_ge.
      pose proof (Nat.div_mod_eq (length content) 3). lia.
Qed.
